(** * NumS: application manager, NumPy-style API wrappers and the block engine

    A shallow embedding of [nums/core/application_manager.py] and of the
    creation, manipulation and reduction wrappers of [nums/numpy/api.py],
    together with the parts of the block engine (device grid, blocked
    contraction, blocked reduction) that the wrappers dispatch to. *)

From Stdlib Require Import List ZArith Lia String Bool Arith PeanoNat DecimalString
     Permutation SpecFloat.
Import ListNotations.

Set Implicit Arguments.

(** ** Python values shared by both modules *)

(** The exception classes the two modules raise or let through.
    [KeyboardInterrupt] stands for the classes that derive from
    [BaseException] without deriving from [Exception]. *)
Inductive exn : Type :=
| Exception (msg : string)
| NotImplementedError (msg : string)
| ValueError (msg : string)
| KeyError (key : string)
| IndexError (msg : string)
| ZeroDivisionError (msg : string)
| KeyboardInterrupt.

(** [isinstance(e, Exception)], the test an [except Exception] clause makes. *)
Definition is_Exception (e : exn) : bool :=
  match e with
  | KeyboardInterrupt => false
  | _ => true
  end.

(** What a call yields: a value, or an exception on its way up. *)
Inductive result (A : Type) : Type :=
| Ok (a : A)
| Raise (e : exn).

Arguments Ok {A} a.
Arguments Raise {A} e.

(** The value a 64-bit two's-complement integer holds for [z]. *)
Definition wrap_int64 (z : Z) : Z := ((z + 2 ^ 63) mod 2 ^ 64 - 2 ^ 63)%Z.

(** [int(np.product(l))] of a tuple of integers that fit [int64]: NumPy
    multiplies in [int64], where an overflowing product wraps around.  The
    product of the empty tuple is 1. *)
Definition np_product (l : list Z) : Z :=
  fold_right (fun x acc => wrap_int64 (x * acc)) 1%Z l.

(** ** nums/core/application_manager.py *)

Module ApplicationManager.

(** The attributes of [nums.core.settings] that [create] reads. *)
Record Settings : Type := {
  system_name : string;
  address : option string;
  use_head : bool;
  num_cpus : option Z;
  cluster_shape : list Z;
  compute_name : string;
  device_grid_name : string
}.

(** The system objects [create] can construct, with their constructor
    arguments. *)
Inductive SystemInterface : Type :=
| SerialSystem (num_cpus : option Z)
| RaySystem (address : option string) (use_head : bool) (num_nodes : Z)
            (num_cpus : option Z)
| RaySystemStockScheduler (address : option string) (use_head : bool)
                          (num_nodes : Z) (num_cpus : option Z)
| DaskSystem (address : option string) (num_nodes : Z) (num_cpus : option Z)
| DaskSystemStockScheduler (address : option string) (num_nodes : Z)
                           (num_cpus : option Z).

Inductive ComputeModule : Type := numpy_compute.

(** The device grids [create] can construct: cluster shape, device type and
    the system whose [devices()] populate the grid. *)
Inductive DeviceGrid : Type :=
| CyclicDeviceGrid (cluster_shape : list Z) (device_type : string)
                   (system : SystemInterface)
| PackedDeviceGrid (cluster_shape : list Z) (device_type : string)
                   (system : SystemInterface).

Record ComputeManager : Type := {
  system : SystemInterface;
  compute_module : ComputeModule;
  device_grid : DeviceGrid
}.

(** [ArrayApplication(cm, fs)], where [fs = FileSystem(cm)].  [app_id] is the
    identity of the Python object: two applications are the same object
    exactly when their identities agree. *)
Record ArrayApplication : Type := {
  app_id : nat;
  cm : ComputeManager
}.

Section Manager.

(** A hook is a Python callable taking the application.  The model keeps
    what the manager does with it, the registration and each invocation, and
    how an invocation ends; a hook is taken not to call back into the
    manager. *)
Variable Hook : Type.

(** What the manager does to the world outside its two globals. *)
Inductive Event : Type :=
| EvConfigureLogging
| EvSystemInit (s : SystemInterface)
| EvSystemShutdown (s : SystemInterface)
| EvComputeManagerCreate (c : ComputeManager)
| EvComputeManagerDestroy
| EvHook (func : Hook) (app : ArrayApplication).

(** The module's globals [_instance] and [_call_on_create], the allocator of
    object identities, and the events so far, oldest first. *)
Record State : Type := {
  _instance : option ArrayApplication;
  _call_on_create : list Hook;
  next_id : nat;
  trace : list Event
}.

Definition initial_state : State :=
  {| _instance := None; _call_on_create := []; next_id := 0; trace := [] |}.

Definition emit (ev : Event) (st : State) : State :=
  {| _instance := _instance st;
     _call_on_create := _call_on_create st;
     next_id := next_id st;
     trace := trace st ++ [ev] |}.

Definition set_instance (i : option ArrayApplication) (st : State) : State :=
  {| _instance := i;
     _call_on_create := _call_on_create st;
     next_id := next_id st;
     trace := trace st |}.

Definition is_initialized (st : State) : bool :=
  match _instance st with
  | Some _ => true
  | None => false
  end.

Definition configure_logging (st : State) : State := emit EvConfigureLogging st.

(** How [func(app)] ends when it is called in state [st]: it returns, or it
    raises. *)
Variable hook_result : Hook -> ArrayApplication -> State -> result unit.

(** [func(_instance)]: the call is made, and ends as the hook does. *)
Definition call_hook (app : ArrayApplication) (func : Hook) (st : State)
  : result unit * State :=
  (hook_result func app st, emit (EvHook func app) st).

(** The hook is appended first: it stays registered when its call raises. *)
Definition call_on_create (func : Hook) (st : State) : result unit * State :=
  let st1 := {| _instance := _instance st;
                _call_on_create := _call_on_create st ++ [func];
                next_id := next_id st;
                trace := trace st |} in
  match _instance st1 with
  | Some app => call_hook app func st1
  | None => (Ok tt, st1)
  end.

(** The [if]/[elif] chain of [create] on [settings.system_name]. *)
Definition select_system (settings : Settings) : result SystemInterface :=
  let name := system_name settings in
  let num_nodes := np_product (cluster_shape settings) in
  if String.eqb name "serial" then
    Ok (SerialSystem (num_cpus settings))
  else if String.eqb name "ray" then
    Ok (RaySystem (address settings) (use_head settings) num_nodes
                  (num_cpus settings))
  else if String.eqb name "ray-scheduler" then
    Ok (RaySystemStockScheduler (address settings) (use_head settings)
                                num_nodes (num_cpus settings))
  else if String.eqb name "dask" then
    Ok (DaskSystem (address settings) num_nodes (num_cpus settings))
  else if String.eqb name "dask-scheduler" then
    Ok (DaskSystemStockScheduler (address settings) num_nodes
                                 (num_cpus settings))
  else
    Raise (Exception ("Unexpected system name " ++ name)).

(** [{"numpy": numpy_compute}[settings.compute_name]]. *)
Definition select_compute_module (settings : Settings) : result ComputeModule :=
  if String.eqb (compute_name settings) "numpy" then Ok numpy_compute
  else Raise (KeyError (compute_name settings)).

Definition select_device_grid (settings : Settings) (s : SystemInterface)
  : result DeviceGrid :=
  let name := device_grid_name settings in
  if String.eqb name "cyclic" then
    Ok (CyclicDeviceGrid (cluster_shape settings) "cpu" s)
  else if String.eqb name "packed" then
    Ok (PackedDeviceGrid (cluster_shape settings) "cpu" s)
  else
    Raise (Exception ("Unexpected device grid name " ++ name)).

(** [ArrayApplication(cm, fs)]: a new object. *)
Definition new_application (c : ComputeManager) (st : State)
  : ArrayApplication * State :=
  ({| app_id := next_id st; cm := c |},
   {| _instance := _instance st;
      _call_on_create := _call_on_create st;
      next_id := S (next_id st);
      trace := trace st |}).

(** [create] reads [_instance] and never assigns it: the assignment is
    [instance]'s.  [ComputeManager.create] is recorded as an event. *)
Definition create (settings : Settings) (st : State)
  : result ArrayApplication * State :=
  let st := configure_logging st in
  match _instance st with
  | Some _ => (Raise (Exception "create() called more than once."), st)
  | None =>
    match select_system settings with
    | Raise e => (Raise e, st)
    | Ok s =>
      let st := emit (EvSystemInit s) st in
      match select_compute_module settings with
      | Raise e => (Raise e, st)
      | Ok m =>
        match select_device_grid settings s with
        | Raise e => (Raise e, st)
        | Ok g =>
          let c := {| system := s; compute_module := m; device_grid := g |} in
          let st := emit (EvComputeManagerCreate c) st in
          let (app, st) := new_application c st in
          (Ok app, st)
        end
      end
    end
  end.

(** [for func in hooks: func(app)].  The loop is not guarded: the first
    hook that raises ends it, and the hooks after it are not called. *)
Fixpoint run_hooks (app : ArrayApplication) (hooks : list Hook) (st : State)
  : result unit * State :=
  match hooks with
  | [] => (Ok tt, st)
  | func :: rest =>
    match call_hook app func st with
    | (Ok _, st) => run_hooks app rest st
    | (Raise e, st) => (Raise e, st)
    end
  end.

(** [_instance] is assigned before the hooks run, so the application stays
    registered when a hook raises. *)
Definition instance (settings : Settings) (st : State)
  : result ArrayApplication * State :=
  match _instance st with
  | None =>
    match create settings st with
    | (Ok app, st) =>
      let st := set_instance (Some app) st in
      match run_hooks app (_call_on_create st) st with
      | (Ok _, st) => (Ok app, st)
      | (Raise e, st) => (Raise e, st)
      end
    | (Raise e, st) => (Raise e, st)
    end
  | Some app => (Ok app, st)
  end.

Definition destroy (st : State) : State :=
  match _instance st with
  | None => st
  | Some app =>
    let st := emit (EvSystemShutdown (system (cm app))) st in
    let st := emit EvComputeManagerDestroy st in
    set_instance None st
  end.

(** The settings under which [create] constructs an application. *)
Definition settings_ok (settings : Settings) : bool :=
  (String.eqb (system_name settings) "serial"
   || String.eqb (system_name settings) "ray"
   || String.eqb (system_name settings) "ray-scheduler"
   || String.eqb (system_name settings) "dask"
   || String.eqb (system_name settings) "dask-scheduler")
  && String.eqb (compute_name settings) "numpy"
  && (String.eqb (device_grid_name settings) "cyclic"
      || String.eqb (device_grid_name settings) "packed").

(** Every registered hook returns normally, whenever and on whatever it is
    called. *)
Definition hooks_return (st : State) : Prop :=
  forall func,
    In func (_call_on_create st) ->
    forall app st', hook_result func app st' = Ok tt.

(** Every application that exists was allocated before [next_id]. *)
Definition allocated (st : State) : Prop :=
  forall app, _instance st = Some app -> app_id app < next_id st.

(** The states the module can be in: its functions applied in any order,
    under any settings. *)
Inductive reachable : State -> Prop :=
| reach_init : reachable initial_state
| reach_call_on_create : forall st func,
    reachable st -> reachable (snd (call_on_create func st))
| reach_instance : forall st settings,
    reachable st -> reachable (snd (instance settings st))
| reach_create : forall st settings,
    reachable st -> reachable (snd (create settings st))
| reach_destroy : forall st,
    reachable st -> reachable (destroy st).

End Manager.

Arguments initial_state {Hook}.
Arguments EvConfigureLogging {Hook}.
Arguments EvComputeManagerDestroy {Hook}.

End ApplicationManager.

(** ** Python built-ins used by nums/numpy/api.py *)

(** [str] of an integer, as ["%s" % n] prints it. *)
Definition str_of_Z (z : Z) : string := NilZero.string_of_int (Z.to_int z).

(** The position a Python index denotes in a sequence of length [len]:
    negative indices count from the end. *)
Definition py_index (len : nat) (i : Z) : option nat :=
  let n := Z.of_nat len in
  if (0 <=? i)%Z && (i <? n)%Z then Some (Z.to_nat i)
  else if (- n <=? i)%Z && (i <? 0)%Z then Some (Z.to_nat (n + i))
  else None.

(** [t[i]] on a tuple, as [shape] and [block_shape] are. *)
Definition py_getitem {A : Type} (l : list A) (i : Z) : result A :=
  match py_index (List.length l) i with
  | Some k =>
    match nth_error l k with
    | Some a => Ok a
    | None => Raise (IndexError "tuple index out of range")
    end
  | None => Raise (IndexError "tuple index out of range")
  end.

Fixpoint list_update {A : Type} (l : list A) (k : nat) (v : A) : list A :=
  match l, k with
  | [], _ => []
  | _ :: t, O => v :: t
  | h :: t, S k' => h :: list_update t k' v
  end.

(** [l[i] = v]. *)
Definition py_setitem {A : Type} (l : list A) (i : Z) (v : A) : result (list A) :=
  match py_index (List.length l) i with
  | Some k => Ok (list_update l k v)
  | None => Raise (IndexError "list assignment index out of range")
  end.

(** [a % b] on integers: the remainder takes the sign of [b].  The text of
    the error is CPython 3.11's; older interpreters word it as they do for
    [//]. *)
Definition py_mod (a b : Z) : result Z :=
  if (b =? 0)%Z then Raise (ZeroDivisionError "integer modulo by zero")
  else Ok (a mod b)%Z.

(** [a // b] on integers: rounds towards minus infinity. *)
Definition py_floordiv (a b : Z) : result Z :=
  if (b =? 0)%Z then Raise (ZeroDivisionError "integer division or modulo by zero")
  else Ok (a / b)%Z.

(** [len(range(start, stop, step))] for a non-zero step. *)
Definition py_range_len (start stop step : Z) : Z :=
  if (0 <? step)%Z then Z.max 0 ((stop - start + step - 1) / step)
  else Z.max 0 ((start - stop - step - 1) / (- step)).

(** [range(start, stop, step)], listed. *)
Definition py_range (start stop step : Z) : result (list Z) :=
  if (step =? 0)%Z then Raise (ValueError "range() arg 3 must not be zero")
  else Ok (map (fun i => (start + Z.of_nat i * step)%Z)
               (seq 0 (Z.to_nat (py_range_len start stop step)))).

(** How often [v] occurs in [l]. *)
Definition occurrences (l : list Z) (v : Z) : nat := count_occ Z.eq_dec l v.

(** Whether [v] is to be preferred to [best] as the mode of [l]: it occurs
    more often, or as often and is smaller. *)
Definition preferred (l : list Z) (v best : Z) : bool :=
  (occurrences l best <? occurrences l v)
  || ((occurrences l v =? occurrences l best) && (v <? best)%Z).

(** [scipy.stats.mode(l).mode.item()] on a list of integers: the most common
    value, the smallest one when several are as common.  On an empty list
    [mode] is an empty array and [item()] raises. *)
Definition scipy_stats_mode (l : list Z) : result Z :=
  match l with
  | [] => Raise (ValueError "can only convert an array of size 1 to a Python scalar")
  | x :: _ => Ok (fold_left (fun best v => if preferred l v best then v else best) l x)
  end.

(** ** nums/numpy/api.py *)

Module Api.

(** [slice(start, stop, step)]. *)
Record slice : Type := { start : option Z; stop : option Z; step : Z }.

(** The second argument of [split]: an [int], or anything else. *)
Inductive indices_or_sections : Type :=
| Sections (n : Z)
| Indices (l : list Z).

Section Wrappers.

(** The objects the wrappers pass around without looking inside. *)
Variables App BlockArray ndarray dtype kwargs : Type.

(** The attributes [shape] and [block_shape] of a [BlockArray], and [shape]
    of a NumPy array. *)
Variable shape : BlockArray -> list Z.
Variable block_shape : BlockArray -> list Z.
Variable np_shape : ndarray -> list Z.

(** The calls the wrappers make into the application, the block array, NumPy
    and [warnings], indexed by what they return. *)
Inductive Call : Type -> Type :=
| _instance : Call App
| get_num_cores (app : App) : Call Z
| app_loadtxt (app : App) (fname : string) (dt : dtype) (kw : kwargs)
              (num_workers : Z) : Call BlockArray
| app_compute_block_shape (app : App) (shp : list Z) (dt : dtype) : Call (list Z)
| app_get_block_shape (app : App) (shp : list Z) (dt : dtype) : Call (list Z)
| ba_reshape (ba : BlockArray) (blk : list Z) : Call BlockArray
| warnings_warn (msg : string) : Call unit
| np_loadtxt (fname : string) (dt : dtype) (kw : kwargs) : Call ndarray
| app_array (app : App) (np_arr : ndarray) (blk : list Z) : Call BlockArray
| app_concatenate (app : App) (arrays : list BlockArray) (axis : Z)
                  (axis_block_size : Z) : Call BlockArray
| ba_getitem (ary : BlockArray) (ss : list slice) : Call BlockArray
| app_ones (app : App) (shp : list Z) (blk : list Z) (dt : dtype) : Call BlockArray
| app_eye (app : App) (shp : list Z) (blk : list Z) (dt : dtype) : Call BlockArray
| app_matmul (app : App) (arr_1 arr_2 : BlockArray) : Call BlockArray
| app_argop (app : App) (op_name : string) (a : BlockArray) (axis : option Z)
  : Call BlockArray
| app_sum (app : App) (a : BlockArray) (axis : option Z) (keepdims : bool)
          (dt : option dtype) : Call BlockArray.

Inductive AnyCall : Type :=
| any : forall A : Type, Call A -> AnyCall.

(** How the callees answer. *)
Variable perform : forall A : Type, Call A -> result A.

(** A wrapper runs against the log of the calls dispatched so far and
    yields its outcome and the extended log. *)
Definition M (A : Type) : Type := list AnyCall -> result A * list AnyCall.

Definition ret {A : Type} (a : A) : M A := fun log => (Ok a, log).

Definition raise {A : Type} (e : exn) : M A := fun log => (Raise e, log).

Definition bind {A B : Type} (m : M A) (k : A -> M B) : M B :=
  fun log =>
    match m log with
    | (Ok a, log') => k a log'
    | (Raise e, log') => (Raise e, log')
    end.

Definition call {A : Type} (c : Call A) : M A :=
  fun log => (perform c, log ++ [any c]).

(** A pure computation that may raise. *)
Definition lift {A : Type} (r : result A) : M A := fun log => (r, log).

(** [try: body / except Exception as _: handler]. *)
Definition try_except {A : Type} (body handler : M A) : M A :=
  fun log =>
    match body log with
    | (Ok a, log') => (Ok a, log')
    | (Raise e, log') =>
      if is_Exception e then handler log' else (Raise e, log')
    end.

Notation "x <- m ;; k" := (bind m (fun x => k))
  (at level 61, m at next level, right associativity).

Fixpoint mapM {A B : Type} (f : A -> M B) (l : list A) : M (list B) :=
  match l with
  | [] => ret []
  | a :: t => b <- f a ;; bs <- mapM f t ;; ret (b :: bs)
  end.

(** [for x in l: acc = body(acc, x)]. *)
Fixpoint foreach {A S : Type} (l : list A) (body : S -> A -> M S) (acc : S) : M S :=
  match l with
  | [] => ret acc
  | a :: t => acc' <- body acc a ;; foreach t body acc'
  end.

Definition loadtxt (fname : string) (dt : dtype) (kw : kwargs) : M BlockArray :=
  app <- call _instance ;;
  num_rows <- call (get_num_cores app) ;;
  try_except
    (ba <- call (app_loadtxt app fname dt kw num_rows) ;;
     let shp := shape ba in
     blk <- call (app_compute_block_shape app shp dt) ;;
     call (ba_reshape ba blk))
    (_ <- call (warnings_warn
                  "Failed to load text data in parallel; using np.loadtxt locally.") ;;
     np_arr <- call (np_loadtxt fname dt kw) ;;
     let shp := np_shape np_arr in
     blk <- call (app_compute_block_shape app shp dt) ;;
     call (app_array app np_arr blk)).

Definition ones (shp : list Z) (dt : dtype) : M BlockArray :=
  app <- call _instance ;;
  blk <- call (app_get_block_shape app shp dt) ;;
  call (app_ones app shp blk dt).

Definition concatenate (arrays : list BlockArray) (axis : Z)
           (out : option BlockArray) : M BlockArray :=
  match out with
  | Some _ => raise (NotImplementedError "out is currently not supported for concatenate.")
  | None =>
    sizes <- mapM (fun arr => lift (py_getitem (block_shape arr) axis)) arrays ;;
    axis_block_size <- lift (scipy_stats_mode sizes) ;;
    app <- call _instance ;;
    call (app_concatenate app arrays axis axis_block_size)
  end.

(** The body of the [for] loop of [split]; the loop carries [ss_op] and
    [results]. *)
Definition split_step (ary : BlockArray) (axis dim_partial : Z)
           (acc : list slice * list BlockArray) (i : Z)
  : M (list slice * list BlockArray) :=
  let (ss_op, results) := acc in
  let start := i in
  let stop := (i + dim_partial)%Z in
  ss_op <- lift (py_setitem ss_op axis
                   {| start := Some start; stop := Some stop; step := 1 |}) ;;
  ary_part <- call (ba_getitem ary ss_op) ;;
  ret (ss_op, results ++ [ary_part]).

Definition split (ary : BlockArray) (ios : indices_or_sections) (axis : Z)
  : M (list BlockArray) :=
  match ios with
  | Indices _ => raise (NotImplementedError "Split currently supports integers only.")
  | Sections n =>
    dim_total <- lift (py_getitem (shape ary) axis) ;;
    r <- lift (py_mod dim_total n) ;;
    if negb (r =? 0)%Z then
      raise (ValueError ("ary axis " ++ str_of_Z axis ++ " cannot be split into "
                         ++ str_of_Z n ++ " equal arrays."))
    else
      dim_partial <- lift (py_floordiv dim_total n) ;;
      let results := [] in
      let ss_op := map (fun _ => {| start := None; stop := None; step := 1 |})
                       (shape ary) in
      rng <- lift (py_range 0 dim_total dim_partial) ;;
      acc <- foreach rng (split_step ary axis dim_partial) (ss_op, results) ;;
      ret (snd acc)
  end.

Definition eye (N : Z) (M_ : option Z) (k : Z) (dt : dtype) : M BlockArray :=
  app <- call _instance ;;
  if negb (k =? 0)%Z then
    raise (NotImplementedError "Only k==0 is currently supported.")
  else
    let M_ := match M_ with None => N | Some m => m end in
    let shp := [N; M_] in
    blk <- call (app_get_block_shape app shp dt) ;;
    call (app_eye app shp blk dt).

Definition identity (n : Z) (dt : dtype) : M BlockArray :=
  eye n (Some n) 0 dt.

Definition matmul (x1 x2 : BlockArray) : M BlockArray :=
  app <- call _instance ;;
  call (app_matmul app x1 x2).

Definition argmin (a : BlockArray) (axis : option Z) (out : option BlockArray)
  : M BlockArray :=
  match out with
  | Some _ => raise (NotImplementedError "'out' is currently not supported.")
  | None =>
    app <- call _instance ;;
    call (app_argop app "argmin" a axis)
  end.

Definition argmax (a : BlockArray) (axis : option Z) (out : option BlockArray)
  : M BlockArray :=
  if (1 <? List.length (shape a))%nat then
    raise (NotImplementedError "argmax currently only supports one-dimensional arrays.")
  else
    match out with
    | Some _ => raise (NotImplementedError "'out' is currently not supported.")
    | None =>
      app <- call _instance ;;
      call (app_argop app "argmax" a axis)
    end.

(** [initial] and [where] are only tested against [None]. *)
Definition sum (a : BlockArray) (axis : option Z) (dt : option dtype)
           (out : option BlockArray) (keepdims : bool)
           (initial where_ : bool) : M BlockArray :=
  if initial then raise (NotImplementedError "'initial' is currently not supported.")
  else if where_ then raise (NotImplementedError "'where' is currently not supported.")
  else match out with
       | Some _ => raise (NotImplementedError "'out' is currently not supported.")
       | None =>
         app <- call _instance ;;
         call (app_sum app a axis keepdims dt)
       end.

End Wrappers.

Arguments _instance {App BlockArray ndarray dtype kwargs}.
Arguments get_num_cores {App BlockArray ndarray dtype kwargs} app.
Arguments app_loadtxt {App BlockArray ndarray dtype kwargs} app fname dt kw num_workers.
Arguments app_compute_block_shape {App BlockArray ndarray dtype kwargs} app shp dt.
Arguments app_get_block_shape {App BlockArray ndarray dtype kwargs} app shp dt.
Arguments ba_reshape {App BlockArray ndarray dtype kwargs} ba blk.
Arguments warnings_warn {App BlockArray ndarray dtype kwargs} msg.
Arguments np_loadtxt {App BlockArray ndarray dtype kwargs} fname dt kw.
Arguments app_array {App BlockArray ndarray dtype kwargs} app np_arr blk.
Arguments app_concatenate {App BlockArray ndarray dtype kwargs} app arrays axis axis_block_size.
Arguments ba_getitem {App BlockArray ndarray dtype kwargs} ary ss.
Arguments app_ones {App BlockArray ndarray dtype kwargs} app shp blk dt.
Arguments app_eye {App BlockArray ndarray dtype kwargs} app shp blk dt.
Arguments app_matmul {App BlockArray ndarray dtype kwargs} app arr_1 arr_2.
Arguments app_argop {App BlockArray ndarray dtype kwargs} app op_name a axis.
Arguments app_sum {App BlockArray ndarray dtype kwargs} app a axis keepdims dt.
Arguments any {App BlockArray ndarray dtype kwargs A} c.

(** The selection [ary[tuple(ss_op)]] that covers, along the axis at
    position [k], the [i]-th run of [dim_partial] consecutive indices and,
    along every other axis, everything. *)
Definition section_slices (shp : list Z) (k : nat) (dim_partial i : Z)
  : list slice :=
  list_update (map (fun _ => {| start := None; stop := None; step := 1 |}) shp)
              k
              {| start := Some (i * dim_partial)%Z;
                 stop := Some (i * dim_partial + dim_partial)%Z;
                 step := 1 |}.

End Api.

(** ** The device grid *)

Module Grid.

(** Modelled from the spec: [CyclicDeviceGrid] of [nums/core/grid/grid.py],
    which [create] constructs and which is not among the sources.  The
    coordinate is flattened in row-major order over the cluster shape; an
    axis the cluster shape lacks counts as one of size 1, on which every
    coordinate lands on the same device, and cluster axes past the
    coordinate's are dropped. *)
Fixpoint flatten_from (acc : nat) (cluster_shape coordinate : list nat) : nat :=
  match coordinate, cluster_shape with
  | c :: cs, s :: ss => flatten_from (acc * s + c) ss cs
  | _ :: _, [] => acc
  | [], _ => acc
  end.

Definition flatten (cluster_shape coordinate : list nat) : nat :=
  flatten_from 0 cluster_shape coordinate.

(** The coordinates of a grid of the given shape, in row-major order. *)
Fixpoint coordinates (shape : list nat) : list (list nat) :=
  match shape with
  | [] => [[]]
  | s :: rest => flat_map (fun i => map (cons i) (coordinates rest)) (seq 0 s)
  end.

(** The number of coordinates of a grid of the given shape. *)
Definition volume (shape : list nat) : nat := fold_right Nat.mul 1 shape.

Section Cyclic.

Variable Device : Type.
Variable Device_eq_dec : forall x y : Device, {x = y} + {x <> y}.

Record CyclicDeviceGrid : Type := {
  cluster_shape : list nat;
  devices : list Device
}.

(** Modelled from the spec: the cyclic policy assigns the device at position
    [index mod device_count]. *)
Definition get_device (g : CyclicDeviceGrid) (coordinate : list nat)
  : option Device :=
  nth_error (devices g)
            (flatten (cluster_shape g) coordinate mod List.length (devices g)).

Definition assigned_to (g : CyclicDeviceGrid) (d : Device) (coordinate : list nat)
  : bool :=
  match get_device g coordinate with
  | Some d' => if Device_eq_dec d d' then true else false
  | None => false
  end.

(** How many coordinates of the cluster grid the policy assigns to [d]. *)
Definition load (g : CyclicDeviceGrid) (d : Device) : nat :=
  List.length (filter (assigned_to g d) (coordinates (cluster_shape g))).

End Cyclic.

End Grid.

(** ** The block engine *)

Module Engine.

(** The wrappers of [api.py] call into [ArrayApplication] and [BlockArray],
    which are not among the sources.  The engine below follows the spec's
    data model and blocked reduction, for arrays of one and two axes.  Its
    entries are integers: it serves the sums of arrays of ones, which every
    dtype computes exactly.  The products are on the float64 engine further
    down. *)

(** Modelled from the spec: the geometry of [BlockArray].  How many blocks
    of extent [b] cover an axis of length [n]. *)
Definition num_blocks (n b : nat) : nat := (n + b - 1) / b.

(** The extent of block [i] along an axis of length [n] cut into blocks of
    [b]: [b], except for a smaller block at the boundary. *)
Definition extent (n b i : nat) : nat := Nat.min b (n - i * b).

Definition zsum (l : list Z) : Z := fold_right Z.add 0%Z l.

(** Modelled from the spec: the block record of [BlockArray], with its local
    shape and its values.  The device of the record is advisory and plays no
    part in the values; it is left out. *)
Record Block : Type := {
  local_shape : nat * nat;
  data : list (list Z)
}.

Definition entry (B : Block) (a c : nat) : Z := nth c (nth a (data B) []) 0%Z.

Definition tabulate (p t : nat) (f : nat -> nat -> Z) : Block :=
  {| local_shape := (p, t);
     data := map (fun a => map (fun c => f a c) (seq 0 t)) (seq 0 p) |}.

(** Modelled from the spec: a [BlockArray] of two axes, with its shape, its
    block shape and its grid of blocks in row-major order. *)
Record Matrix : Type := {
  shape : nat * nat;
  block_shape : nat * nat;
  grid : list (list Block)
}.

(** Modelled from the spec: a [BlockArray] of one axis. *)
Record Vector : Type := {
  vshape : nat;
  vblock_shape : nat;
  vgrid : list (list Z)
}.

Inductive BlockArray : Type :=
| Mat (m : Matrix)
| Vec (v : Vector).

Definition block_at (A : Matrix) (i j : nat) : Block :=
  nth j (nth i (grid A) []) (tabulate 0 0 (fun _ _ => 0%Z)).

(** The entry at global position [(r, c)]. *)
Definition get (A : Matrix) (r c : nat) : Z :=
  let (b0, b1) := block_shape A in
  entry (block_at A (r / b0) (c / b1)) (r mod b0) (c mod b1).

Definition to_dense (A : Matrix) : list (list Z) :=
  map (fun r => map (get A r) (seq 0 (snd (shape A)))) (seq 0 (fst (shape A))).

Definition vget (V : Vector) (c : nat) : Z :=
  nth (c mod vblock_shape V) (nth (c / vblock_shape V) (vgrid V) []) 0%Z.

Definition vto_dense (V : Vector) : list Z := map (vget V) (seq 0 (vshape V)).

(** The grid of an array of shape [shp] cut into blocks of [blk]: one block
    per block coordinate. *)
Definition build (shp blk : nat * nat) (block : nat -> nat -> Block) : Matrix :=
  {| shape := shp;
     block_shape := blk;
     grid := map (fun i => map (fun j => block i j)
                               (seq 0 (num_blocks (snd shp) (snd blk))))
                 (seq 0 (num_blocks (fst shp) (fst blk))) |}.

(** The array whose entry at [(r, c)] is [f r c]. *)
Definition of_fun (shp blk : nat * nat) (f : nat -> nat -> Z) : Matrix :=
  build shp blk
        (fun i j => tabulate (extent (fst shp) (fst blk) i)
                             (extent (snd shp) (snd blk) j)
                             (fun a c => f (i * fst blk + a) (j * snd blk + c))).

(** Modelled from the spec: [ArrayApplication.ones]. *)
Definition ones (shp blk : nat * nat) : Matrix :=
  of_fun shp blk (fun _ _ => 1%Z).

(** The tiling invariant: positive block shape, one block per block
    coordinate, each of the extent its position gives it. *)
Definition block_ok (p t : nat) (B : Block) : bool :=
  (fst (local_shape B) =? p) && (snd (local_shape B) =? t)
  && (List.length (data B) =? p)
  && forallb (fun row => List.length row =? t) (data B).

Definition well_tiled (A : Matrix) : bool :=
  let (n, m) := shape A in
  let (b0, b1) := block_shape A in
  (0 <? b0) && (0 <? b1)
  && (List.length (grid A) =? num_blocks n b0)
  && forallb (fun i =>
                (List.length (nth i (grid A) []) =? num_blocks m b1)
                && forallb (fun j => block_ok (extent n b0 i) (extent m b1 j)
                                              (block_at A i j))
                           (seq 0 (num_blocks m b1)))
             (seq 0 (num_blocks n b0)).

(** The kernel of the reduction on a single block: its partial sums along
    axis 0. *)
Definition block_sum0 (X : Block) : list Z :=
  map (fun c => zsum (map (fun a => entry X a c) (seq 0 (fst (local_shape X)))))
      (seq 0 (snd (local_shape X))).

Definition vec_add (x y : list Z) : list Z :=
  map (fun c => (nth c x 0 + nth c y 0)%Z) (seq 0 (List.length x)).

(** Modelled from the spec: the reduction tree.  Partial results are
    combined in ascending block-coordinate order. *)
Definition combine_ascending {T : Type} (combiner : T -> T -> T) (empty : T)
           (partials : list T) : T :=
  match partials with
  | [] => empty
  | p :: ps => fold_left combiner ps p
  end.

(** Modelled from the spec: [ArrayApplication.sum] along axis 0 of a
    matrix, without [keepdims].  Phase 1 reduces each block on its own;
    phase 2 combines the partial results that share the retained coordinate,
    in ascending order of the reduced one. *)
Definition sum_axis0 (A : Matrix) : Vector :=
  let I := num_blocks (fst (shape A)) (fst (block_shape A)) in
  let J := num_blocks (snd (shape A)) (snd (block_shape A)) in
  {| vshape := snd (shape A);
     vblock_shape := snd (block_shape A);
     vgrid := map (fun j =>
                     combine_ascending vec_add []
                       (map (fun i => block_sum0 (block_at A i j)) (seq 0 I)))
                  (seq 0 J) |}.

(** The dense reference: the column sums of a dense matrix of [m] columns. *)
Definition dense_sum0 (m : nat) (rows : list (list Z)) : list Z :=
  map (fun c => zsum (map (fun row => nth c row 0%Z) rows)) (seq 0 m).

End Engine.

(** ** The wrappers run on the block engine *)

Module Backend.

Section Backend.

Variables App ndarray dtype kwargs : Type.

(** The block shape the application picks for a shape and dtype. *)
Variable get_block_shape : list Z -> dtype -> list Z.

(** The answers of the callees outside the engine. *)
Variable other :
  forall A : Type, Api.Call App Engine.BlockArray ndarray dtype kwargs A -> result A.

(** A pair of positive extents, as the engine takes them. *)
Definition geometry (l : list Z) : option (nat * nat) :=
  match l with
  | [a; b] => if (0 <? a)%Z && (0 <? b)%Z then Some (Z.to_nat a, Z.to_nat b) else None
  | _ => None
  end.

Definition construct (mk : nat * nat -> nat * nat -> Engine.Matrix)
           (shp blk : list Z) : result Engine.BlockArray :=
  match geometry shp, geometry blk with
  | Some s, Some b => Ok (Engine.Mat (mk s b))
  | _, _ => Raise (ValueError "invalid shape or block shape")
  end.

(** [app.get_block_shape], [app.ones] and [app.sum] along axis 0 of a
    matrix are the engine's; every other call is answered by [other]. *)
Definition perform (A : Type)
           (c : Api.Call App Engine.BlockArray ndarray dtype kwargs A) : result A :=
  match c in Api.Call _ _ _ _ _ T return result T with
  | @Api.app_get_block_shape _ _ _ _ _ _ shp dt => Ok (get_block_shape shp dt)
  | @Api.app_ones _ _ _ _ _ _ shp blk _ => construct Engine.ones shp blk
  | @Api.app_sum _ _ _ _ _ _ (Engine.Mat a) (Some 0%Z) false _ =>
    Ok (Engine.Vec (Engine.sum_axis0 a))
  | c' => other c'
  end.

End Backend.

End Backend.

(** ** Concrete instances *)

Module Samples.

Import ApplicationManager.

Definition serial_settings : Settings :=
  {| system_name := "serial";
     address := None;
     use_head := false;
     num_cpus := Some 4%Z;
     cluster_shape := [1; 1]%Z;
     compute_name := "numpy";
     device_grid_name := "cyclic" |}.

(** Hooks are numbered.  Here every hook returns. *)
Definition returning (func : nat) (app : ArrayApplication) (st : State nat)
  : result unit := Ok tt.


(** Hook 7 registered, and no application yet. *)
Definition registered : State nat :=
  snd (call_on_create returning 7 initial_state).

(** Hook 7 registered, then the application created. *)
Definition running : State nat :=
  snd (instance returning serial_settings registered).


(** An array known by its shape and block shape only. *)
Definition Geometry : Type := (list Z * list Z)%type.

(** The shape a selection leaves: along an axis cut from [a] to [b], the
    extent [b - a]. *)
Fixpoint selected (shp : list Z) (ss : list Api.slice) : list Z :=
  match shp, ss with
  | d :: shp', s :: ss' =>
    match Api.start s, Api.stop s with
    | Some a, Some b => (b - a)%Z
    | _, _ => d
    end :: selected shp' ss'
  | _, _ => shp
  end.

(** Callees for arrays known by their geometry; the parallel ingestion
    fails, the local parse yields a (3, 2) array. *)
Definition answer (A : Type)
           (c : Api.Call unit Geometry (list Z) unit unit A) : result A :=
  match c in Api.Call _ _ _ _ _ T return result T with
  | Api._instance => Ok tt
  | Api.get_num_cores _ => Ok 4%Z
  | Api.app_loadtxt _ _ _ _ _ => Raise (Exception "no workers")
  | Api.app_compute_block_shape _ shp _ => Ok shp
  | Api.app_get_block_shape _ shp _ => Ok shp
  | Api.ba_reshape ba blk => Ok (fst ba, blk)
  | Api.warnings_warn _ => Ok tt
  | Api.np_loadtxt _ _ _ => Ok [3; 2]%Z
  | Api.app_array _ np_arr blk => Ok (np_arr, blk)
  | Api.ba_getitem ary ss => Ok (selected (fst ary) ss, snd ary)
  | _ => Raise (NotImplementedError "not part of this instance")
  end.

(** Callees outside the engine: only the application itself. *)
Definition engine_other (A : Type)
           (c : Api.Call unit Engine.BlockArray (list Z) unit unit A) : result A :=
  match c in Api.Call _ _ _ _ _ T return result T with
  | Api._instance => Ok tt
  | _ => Raise (NotImplementedError "not part of this instance")
  end.

Definition grid_2_3 : Grid.CyclicDeviceGrid nat :=
  {| Grid.cluster_shape := [2; 3]; Grid.devices := [10; 11; 12; 13] |}.

End Samples.

(** ** The block engine on float64 *)

Module Engine64.

(** [identity] and [eye] build arrays of dtype [float], NumPy's float64,
    unless they are told otherwise.  The engine below follows the spec's data
    model and blocked contraction for arrays of two axes with float64
    entries.  The values and their arithmetic are IEEE 754 binary64 as the
    Standard Library specifies it, rounding to nearest, ties to even. *)
Definition prec : Z := 53.
Definition emax : Z := 1024.

(** [+0.0] and [1.0]. *)
Definition pzero : spec_float := S754_zero false.
Definition one : spec_float := S754_finite false 4503599627370496 (-52).

Definition fadd : spec_float -> spec_float -> spec_float := SFadd prec emax.
Definition fmul : spec_float -> spec_float -> spec_float := SFmul prec emax.

(** [x == y]: false as soon as one side is a NaN, true on two zeros of
    either sign. *)
Definition feqb : spec_float -> spec_float -> bool := SFeqb.

(** The float64 value of an integer. *)
Definition of_Z (z : Z) : spec_float := binary_normalize prec emax z 0 false.

(** A float64 value that is neither an infinity nor a NaN. *)
Definition is_finite (x : spec_float) : bool :=
  match x with
  | S754_zero _ => true
  | S754_finite _ m e => bounded prec emax m e
  | _ => false
  end.

Definition is_zero (x : spec_float) : bool :=
  match x with
  | S754_zero _ => true
  | _ => false
  end.

(** [x], with [-0.0] turned into [+0.0]. *)
Definition unsigned_zero (x : spec_float) : spec_float :=
  if is_zero x then pzero else x.

(** A sum accumulated from [+0.0], left to right. *)
Definition fsum (l : list spec_float) : spec_float := fold_left fadd l pzero.

(** Modelled from the spec: the block record of a float64 [BlockArray],
    with its local shape and its values. *)
Record Block : Type := {
  local_shape : nat * nat;
  data : list (list spec_float)
}.

Definition entry (B : Block) (a c : nat) : spec_float :=
  nth c (nth a (data B) []) pzero.

Definition tabulate (p t : nat) (f : nat -> nat -> spec_float) : Block :=
  {| local_shape := (p, t);
     data := map (fun a => map (fun c => f a c) (seq 0 t)) (seq 0 p) |}.

(** Modelled from the spec: a float64 [BlockArray] of two axes, with its
    shape, its block shape and its grid of blocks in row-major order. *)
Record Matrix : Type := {
  shape : nat * nat;
  block_shape : nat * nat;
  grid : list (list Block)
}.

Definition block_at (A : Matrix) (i j : nat) : Block :=
  nth j (nth i (grid A) []) (tabulate 0 0 (fun _ _ => pzero)).

(** The entry at global position [(r, c)]. *)
Definition get (A : Matrix) (r c : nat) : spec_float :=
  let (b0, b1) := block_shape A in
  entry (block_at A (r / b0) (c / b1)) (r mod b0) (c mod b1).

Definition to_dense (A : Matrix) : list (list spec_float) :=
  map (fun r => map (get A r) (seq 0 (snd (shape A)))) (seq 0 (fst (shape A))).

Definition build (shp blk : nat * nat) (block : nat -> nat -> Block) : Matrix :=
  {| shape := shp;
     block_shape := blk;
     grid := map (fun i => map (fun j => block i j)
                               (seq 0 (Engine.num_blocks (snd shp) (snd blk))))
                 (seq 0 (Engine.num_blocks (fst shp) (fst blk))) |}.

(** The array whose entry at [(r, c)] is [f r c]. *)
Definition of_fun (shp blk : nat * nat) (f : nat -> nat -> spec_float) : Matrix :=
  build shp blk
        (fun i j => tabulate (Engine.extent (fst shp) (fst blk) i)
                             (Engine.extent (snd shp) (snd blk) j)
                             (fun a c => f (i * fst blk + a) (j * snd blk + c))).

(** Modelled from the spec: [ArrayApplication.eye], [1.0] on the diagonal
    and [+0.0] elsewhere, block by block. *)
Definition eye (shp blk : nat * nat) : Matrix :=
  of_fun shp blk (fun r c => if r =? c then one else pzero).

(** The tiling invariant: positive block shape, one block per block
    coordinate, each of the extent its position gives it. *)
Definition block_ok (p t : nat) (B : Block) : bool :=
  (fst (local_shape B) =? p) && (snd (local_shape B) =? t)
  && (List.length (data B) =? p)
  && forallb (fun row => List.length row =? t) (data B).

Definition well_tiled (A : Matrix) : bool :=
  let (n, m) := shape A in
  let (b0, b1) := block_shape A in
  (0 <? b0) && (0 <? b1)
  && (List.length (grid A) =? Engine.num_blocks n b0)
  && forallb (fun i =>
                (List.length (nth i (grid A) []) =? Engine.num_blocks m b1)
                && forallb (fun j => block_ok (Engine.extent n b0 i)
                                              (Engine.extent m b1 j)
                                              (block_at A i j))
                           (seq 0 (Engine.num_blocks m b1)))
             (seq 0 (Engine.num_blocks n b0)).

(** Whether every entry is finite. *)
Definition all_finite (A : Matrix) : bool :=
  forallb (forallb is_finite) (to_dense A).

(** The kernel of the product on single blocks: each inner product is
    accumulated in ascending order. *)
Definition block_matmul (X Y : Block) : Block :=
  tabulate (fst (local_shape X)) (snd (local_shape Y))
           (fun a c => fsum (map (fun b => fmul (entry X a b) (entry Y b c))
                                 (seq 0 (snd (local_shape X))))).

Definition block_add (X Y : Block) : Block :=
  tabulate (fst (local_shape X)) (snd (local_shape X))
           (fun a c => fadd (entry X a c) (entry Y a c)).

(** Modelled from the spec: [ArrayApplication.matmul], the blocked
    contraction.  The contracted axis must be cut identically on both
    operands, a mismatch is rejected; for each output block coordinate one
    partial product per contraction block, combined in ascending order. *)
Definition matmul (A B : Matrix) : result Matrix :=
  if negb (snd (shape A) =? fst (shape B)) then
    Raise (ValueError "matmul: shapes are not aligned")
  else if negb (snd (block_shape A) =? fst (block_shape B)) then
    Raise (ValueError "matmul: block shapes differ along the contracted axis")
  else
    let K := Engine.num_blocks (snd (shape A)) (snd (block_shape A)) in
    Ok (build (fst (shape A), snd (shape B))
              (fst (block_shape A), snd (block_shape B))
              (fun i j =>
                 Engine.combine_ascending
                   block_add (tabulate 0 0 (fun _ _ => pzero))
                   (map (fun k => block_matmul (block_at A i k) (block_at B k j))
                        (seq 0 K)))).

End Engine64.

(** ** The wrappers run on the float64 engine *)

Module Backend64.

Section Backend.

Variables App ndarray dtype kwargs : Type.

(** Whether a dtype is float64, as [float] and [np.float] are. *)
Variable is_float64 : dtype -> bool.

(** The block shape the application picks for a shape and dtype. *)
Variable get_block_shape : list Z -> dtype -> list Z.

(** The answers of the callees outside the engine. *)
Variable other :
  forall A : Type, Api.Call App Engine64.Matrix ndarray dtype kwargs A -> result A.

Definition construct (mk : nat * nat -> nat * nat -> Engine64.Matrix)
           (shp blk : list Z) : result Engine64.Matrix :=
  match Backend.geometry shp, Backend.geometry blk with
  | Some s, Some b => Ok (mk s b)
  | _, _ => Raise (ValueError "invalid shape or block shape")
  end.

(** [app.get_block_shape], [app.eye] for the dtype float64 and [app.matmul]
    are the engine's; every other call is answered by [other]. *)
Definition perform (A : Type)
           (c : Api.Call App Engine64.Matrix ndarray dtype kwargs A) : result A :=
  match c in Api.Call _ _ _ _ _ T return result T with
  | Api.app_get_block_shape _ shp dt => Ok (get_block_shape shp dt)
  | Api.app_eye app shp blk dt =>
    if is_float64 dt then construct Engine64.eye shp blk
    else other (Api.app_eye app shp blk dt)
  | Api.app_matmul _ a b => Engine64.matmul a b
  | c' => other c'
  end.

End Backend.

End Backend64.

Module Samples64.

Import Engine64.

(** Callees outside the engine: only the application itself. *)
Definition engine64_other (A : Type)
           (c : Api.Call unit Matrix (list Z) string unit A) : result A :=
  match c in Api.Call _ _ _ _ _ T return result T with
  | Api._instance => Ok tt
  | _ => Raise (NotImplementedError "not part of this instance")
  end.

(** The dtypes are known by their names. *)
Definition is_float64 (dt : string) : bool :=
  String.eqb dt "float64" || String.eqb dt "float".

(** A (4, 3) array in (2, 2) blocks, with entry [10 r + c] at [(r, c)]. *)
Definition X43 : Matrix :=
  of_fun (4, 3) (2, 2) (fun r c => of_Z (Z.of_nat (10 * r + c))).

(** A (2, 1) array in one block, with an infinite entry below a finite
    one. *)
Definition X21 : Matrix :=
  of_fun (2, 1) (2, 1) (fun r _ => if r =? 0 then one else S754_infinity false).

End Samples64.

(** ** nums/numpy/api.py: the other creation, shape and reduction wrappers *)

Module ApiRest.

(** *** Logged calls over any family of callees *)

Section Effects.

Variable E : Type -> Type.

Inductive AnyCall : Type :=
| any : forall A : Type, E A -> AnyCall.

Variable perform : forall A : Type, E A -> result A.

Definition M (A : Type) : Type := list AnyCall -> result A * list AnyCall.

Definition ret {A : Type} (a : A) : M A := fun log => (Ok a, log).

Definition raise {A : Type} (e : exn) : M A := fun log => (Raise e, log).

Definition bind {A B : Type} (m : M A) (k : A -> M B) : M B :=
  fun log =>
    match m log with
    | (Ok a, log') => k a log'
    | (Raise e, log') => (Raise e, log')
    end.

Definition call {A : Type} (c : E A) : M A :=
  fun log => (perform c, log ++ [any c]).

End Effects.

Arguments any {E A} c.
Arguments ret {E A} a.
Arguments raise {E A} e.

(** The first argument of [array]: a [BlockArray], or any other object. *)
Inductive array_like (BlockArray PyObject : Type) : Type :=
| IsBlockArray (ba : BlockArray)
| Other (object : PyObject).

Arguments IsBlockArray {BlockArray PyObject} ba.
Arguments Other {BlockArray PyObject} object.

Section Wrappers.

Variables App BlockArray ndarray dtype kwargs number PyObject : Type.

(** The attributes [shape] and [dtype] of a [BlockArray]; [shape] and
    [str(dtype)] of a NumPy array. *)
Variable shape : BlockArray -> list Z.
Variable dtype_of : BlockArray -> dtype.
Variable np_shape : ndarray -> list Z.
Variable np_dtype_str : ndarray -> string.

(** [d1 is d2] and [d1 == d2] on dtypes. *)
Variable dtype_is : dtype -> dtype -> bool.
Variable dtype_eq : dtype -> dtype -> bool.

(** [np.float64], and the empty [**kwargs]. *)
Variable float64 : dtype.
Variable no_kwargs : kwargs.

Inductive Call : Type -> Type :=
| _instance : Call App
| app_compute_block_shape (app : App) (shp : list Z) (dt : dtype) : Call (list Z)
| app_get_block_shape (app : App) (shp : list Z) (dt : dtype) : Call (list Z)
| np_array (object : PyObject) (dt : option dtype) (copy : bool)
           (order : option string) (ndmin : Z) (subok : bool) : Call ndarray
| np_getattribute (name : string) : Call dtype
| app_array (app : App) (np_arr : ndarray) (blk : list Z) : Call BlockArray
| ba_copy (ba : BlockArray) : Call BlockArray
| ba_astype (ba : BlockArray) (dt : dtype) : Call BlockArray
| app_empty (app : App) (shp blk : list Z) (dt : dtype) : Call BlockArray
| app_zeros (app : App) (shp blk : list Z) (dt : dtype) : Call BlockArray
| app_ones (app : App) (shp blk : list Z) (dt : dtype) : Call BlockArray
| app_diag (app : App) (v : BlockArray) : Call BlockArray
| app_arange (app : App) (shp blk : list Z) (step : Z) (dt : dtype)
  : Call BlockArray
| app_linspace (app : App) (start stop : number) (shp blk : list Z)
               (endpoint retstep : bool) (dt : dtype) (axis : Z)
  : Call BlockArray
| app_scalar (app : App) (value : number) : Call BlockArray
| ufunc_kwargs (kw : kwargs) : Call kwargs
| app_map_uop (app : App) (op_name : string) (arr : BlockArray)
              (out : option BlockArray) (where_ : bool) (kw : kwargs)
  : Call BlockArray
| app_map_bop (app : App) (op_name : string) (arr_1 arr_2 : BlockArray)
              (out : option BlockArray) (where_ : bool) (kw : kwargs)
  : Call BlockArray
| app_tensordot (app : App) (arr_1 arr_2 : BlockArray) (axes : Z) : Call BlockArray
| ba_reshape (x : BlockArray) (shp blk : list Z) : Call BlockArray
| ba_expand_dims (x : BlockArray) (axis : Z) : Call BlockArray
| ba_squeeze (x : BlockArray) : Call BlockArray
| app_min (app : App) (a : BlockArray) (axis : option Z) (keepdims : bool)
  : Call BlockArray
| app_max (app : App) (a : BlockArray) (axis : option Z) (keepdims : bool)
  : Call BlockArray
| app_mean (app : App) (a : BlockArray) (axis : option Z) (keepdims : bool)
           (dt : option dtype) : Call BlockArray
| app_var (app : App) (a : BlockArray) (axis : option Z) (ddof : Z)
          (keepdims : bool) (dt : option dtype) : Call BlockArray
| app_std (app : App) (a : BlockArray) (axis : option Z) (ddof : Z)
          (keepdims : bool) (dt : option dtype) : Call BlockArray
| app_all (app : App) (a : BlockArray) (axis : option Z) (keepdims : bool)
  : Call BlockArray
| app_allclose (app : App) (a b : BlockArray) (rtol atol : number)
  : Call BlockArray.

Variable perform : forall A : Type, Call A -> result A.

Notation "x <- m ;; k" := (bind m (fun x => k))
  (at level 61, m at next level, right associativity).

Abbreviation run c := (call perform c).

(** [order is not None and order != "K"]. *)
Definition bad_order (order : option string) : bool :=
  match order with
  | None => false
  | Some o => negb (String.eqb o "K")
  end.

Definition array (object : array_like BlockArray PyObject) (dt : option dtype)
           (copy : bool) (order : option string) (ndmin : Z) (subok : bool)
  : M Call BlockArray :=
  if bad_order order then
    raise (NotImplementedError "Only order='K' is supported.")
  else if negb (ndmin =? 0)%Z then
    raise (NotImplementedError "Only ndmin=0 is currently supported.")
  else if subok then
    raise (ValueError "subok must be False.")
  else
    match object with
    | IsBlockArray ba =>
      object <- (if copy then run (ba_copy ba) else ret ba) ;;
      match dt with
      | Some d =>
        if negb (dtype_is d (dtype_of object)) then run (ba_astype object d)
        else ret object
      | None => ret object
      end
    | Other obj =>
      result <- run (np_array obj dt copy order ndmin subok) ;;
      d <- run (np_getattribute (np_dtype_str result)) ;;
      let shp := np_shape result in
      app <- run _instance ;;
      blk <- run (app_compute_block_shape app shp d) ;;
      run (app_array app result blk)
    end.

Definition empty (shp : list Z) (dt : dtype) : M Call BlockArray :=
  app <- run _instance ;;
  blk <- run (app_compute_block_shape app shp dt) ;;
  run (app_empty app shp blk dt).

Definition zeros (shp : list Z) (dt : dtype) : M Call BlockArray :=
  app <- run _instance ;;
  blk <- run (app_get_block_shape app shp dt) ;;
  run (app_zeros app shp blk dt).

Definition ones (shp : list Z) (dt : dtype) : M Call BlockArray :=
  app <- run _instance ;;
  blk <- run (app_get_block_shape app shp dt) ;;
  run (app_ones app shp blk dt).

(** The common body of [empty_like], [zeros_like] and [ones_like], which
    differ in the constructor they end with. *)
Definition like (constructor : list Z -> dtype -> M Call BlockArray)
           (prototype : BlockArray) (dt : option dtype) (order : option string)
           (shp : option (list Z)) : M Call BlockArray :=
  let shp := match shp with None => shape prototype | Some s => s end in
  let dt := match dt with None => dtype_of prototype | Some d => d end in
  if bad_order order then
    raise (NotImplementedError "Only order='K' is supported.")
  else constructor shp dt.

Definition empty_like := like empty.
Definition zeros_like := like zeros.
Definition ones_like := like ones.

Definition diag (v : BlockArray) (k : Z) : M Call BlockArray :=
  app <- run _instance ;;
  if negb (k =? 0)%Z then
    raise (NotImplementedError "Only k==0 is currently supported.")
  else run (app_diag app v).

(** [arange] called with a [start]; [stop] may be left at [None]. *)
Definition arange (start : Z) (stop : option Z) (step : Z) (dt : dtype)
  : M Call BlockArray :=
  let (start, stop) :=
      match stop with
      | None => (0%Z, start)
      | Some s => (start, s)
      end in
  if negb (step =? 1)%Z then
    raise (NotImplementedError "Only step size of 1 is currently supported.")
  else
    let shp := [(stop - start)%Z] in
    app <- run _instance ;;
    blk <- run (app_get_block_shape app shp dt) ;;
    run (app_arange app shp blk step dt).

Definition linspace (start stop : number) (num : Z) (endpoint retstep : bool)
           (dt : option dtype) (axis : Z) : M Call BlockArray :=
  let shp := [num] in
  let dt := match dt with None => float64 | Some d => d end in
  app <- run _instance ;;
  blk <- run (app_get_block_shape app shp dt) ;;
  run (app_linspace app start stop shp blk endpoint retstep dt axis).

(** The generated wrappers: each passes its own name as [op_name]. *)
Definition unary (op_name : string) (x : BlockArray) (out : option BlockArray)
           (where_ : bool) (kw : kwargs) : M Call BlockArray :=
  app <- run _instance ;;
  kw <- run (ufunc_kwargs kw) ;;
  run (app_map_uop app op_name x out where_ kw).

Definition binary (op_name : string) (x1 x2 : BlockArray)
           (out : option BlockArray) (where_ : bool) (kw : kwargs)
  : M Call BlockArray :=
  app <- run _instance ;;
  kw <- run (ufunc_kwargs kw) ;;
  run (app_map_bop app op_name x1 x2 out where_ kw).

Definition power := binary "power".

Definition logspace (start stop : number) (num : Z) (endpoint : bool)
           (base : number) (dt : option dtype) (axis : Z) : M Call BlockArray :=
  app <- run _instance ;;
  ba <- linspace start stop num endpoint false None axis ;;
  b <- run (app_scalar app base) ;;
  ba <- power b ba None true no_kwargs ;;
  match dt with
  | Some d =>
    if negb (dtype_eq d (dtype_of ba)) then run (ba_astype ba d) else ret ba
  | None => ret ba
  end.

Definition tensordot (x1 x2 : BlockArray) (axes : Z) : M Call BlockArray :=
  app <- run _instance ;;
  run (app_tensordot app x1 x2 axes).

Definition reshape (x : BlockArray) (shp : list Z) : M Call BlockArray :=
  app <- run _instance ;;
  blk <- run (app_compute_block_shape app shp (dtype_of x)) ;;
  run (ba_reshape x shp blk).

Definition expand_dims (x : BlockArray) (axis : Z) : M Call BlockArray :=
  run (ba_expand_dims x axis).

Definition squeeze (x : BlockArray) : M Call BlockArray :=
  run (ba_squeeze x).

(** The guards of [min] and [max] on [initial], [where] and [out], in the
    order they are tested. *)
Definition extremum (dispatch : App -> Call BlockArray)
           (out : option BlockArray) (initial : option number)
           (where_ : option BlockArray) : M Call BlockArray :=
  match initial with
  | Some _ => raise (NotImplementedError "'initial' is currently not supported.")
  | None =>
    match where_ with
    | Some _ => raise (NotImplementedError "'where' is currently not supported.")
    | None =>
      match out with
      | Some _ => raise (NotImplementedError "'out' is currently not supported.")
      | None => app <- run _instance ;; run (dispatch app)
      end
    end
  end.

Definition min (a : BlockArray) (axis : option Z) (out : option BlockArray)
           (keepdims : bool) (initial : option number)
           (where_ : option BlockArray) : M Call BlockArray :=
  extremum (fun app => app_min app a axis keepdims) out initial where_.

Definition max (a : BlockArray) (axis : option Z) (out : option BlockArray)
           (keepdims : bool) (initial : option number)
           (where_ : option BlockArray) : M Call BlockArray :=
  extremum (fun app => app_max app a axis keepdims) out initial where_.

(** The guard of [mean], [var], [std] and [all] on [out]. *)
Definition reduction (dispatch : App -> Call BlockArray)
           (out : option BlockArray) : M Call BlockArray :=
  match out with
  | Some _ => raise (NotImplementedError "'out' is currently not supported.")
  | None => app <- run _instance ;; run (dispatch app)
  end.

Definition mean (a : BlockArray) (axis : option Z) (dt : option dtype)
           (out : option BlockArray) (keepdims : bool) : M Call BlockArray :=
  reduction (fun app => app_mean app a axis keepdims dt) out.

Definition var (a : BlockArray) (axis : option Z) (dt : option dtype)
           (out : option BlockArray) (ddof : Z) (keepdims : bool)
  : M Call BlockArray :=
  reduction (fun app => app_var app a axis ddof keepdims dt) out.

Definition std (a : BlockArray) (axis : option Z) (dt : option dtype)
           (out : option BlockArray) (ddof : Z) (keepdims : bool)
  : M Call BlockArray :=
  reduction (fun app => app_std app a axis ddof keepdims dt) out.

Definition all (a : BlockArray) (axis : option Z) (out : option BlockArray)
           (keepdims : bool) : M Call BlockArray :=
  reduction (fun app => app_all app a axis keepdims) out.

(** [equal_nan is not False], for a Boolean [equal_nan]. *)
Definition allclose (a b : BlockArray) (rtol atol : number) (equal_nan : bool)
  : M Call BlockArray :=
  if equal_nan then raise (NotImplementedError "equal_nan=True not supported.")
  else
    app <- run _instance ;;
    run (app_allclose app a b rtol atol).

End Wrappers.

Arguments _instance {App BlockArray ndarray dtype kwargs number PyObject}.
Arguments app_compute_block_shape {App BlockArray ndarray dtype kwargs number PyObject} app shp dt.
Arguments app_get_block_shape {App BlockArray ndarray dtype kwargs number PyObject} app shp dt.
Arguments np_array {App BlockArray ndarray dtype kwargs number PyObject} object dt copy order ndmin subok.
Arguments np_getattribute {App BlockArray ndarray dtype kwargs number PyObject} name.
Arguments app_array {App BlockArray ndarray dtype kwargs number PyObject} app np_arr blk.
Arguments ba_copy {App BlockArray ndarray dtype kwargs number PyObject} ba.
Arguments ba_astype {App BlockArray ndarray dtype kwargs number PyObject} ba dt.
Arguments app_empty {App BlockArray ndarray dtype kwargs number PyObject} app shp blk dt.
Arguments app_zeros {App BlockArray ndarray dtype kwargs number PyObject} app shp blk dt.
Arguments app_ones {App BlockArray ndarray dtype kwargs number PyObject} app shp blk dt.
Arguments app_diag {App BlockArray ndarray dtype kwargs number PyObject} app v.
Arguments app_arange {App BlockArray ndarray dtype kwargs number PyObject} app shp blk step dt.
Arguments app_linspace {App BlockArray ndarray dtype kwargs number PyObject} app start stop shp blk endpoint retstep dt axis.
Arguments app_scalar {App BlockArray ndarray dtype kwargs number PyObject} app value.
Arguments ufunc_kwargs {App BlockArray ndarray dtype kwargs number PyObject} kw.
Arguments app_map_uop {App BlockArray ndarray dtype kwargs number PyObject} app op_name arr out where_ kw.
Arguments app_map_bop {App BlockArray ndarray dtype kwargs number PyObject} app op_name arr_1 arr_2 out where_ kw.
Arguments app_tensordot {App BlockArray ndarray dtype kwargs number PyObject} app arr_1 arr_2 axes.
Arguments ba_reshape {App BlockArray ndarray dtype kwargs number PyObject} x shp blk.
Arguments ba_expand_dims {App BlockArray ndarray dtype kwargs number PyObject} x axis.
Arguments ba_squeeze {App BlockArray ndarray dtype kwargs number PyObject} x.
Arguments app_min {App BlockArray ndarray dtype kwargs number PyObject} app a axis keepdims.
Arguments app_max {App BlockArray ndarray dtype kwargs number PyObject} app a axis keepdims.
Arguments app_mean {App BlockArray ndarray dtype kwargs number PyObject} app a axis keepdims dt.
Arguments app_var {App BlockArray ndarray dtype kwargs number PyObject} app a axis ddof keepdims dt.
Arguments app_std {App BlockArray ndarray dtype kwargs number PyObject} app a axis ddof keepdims dt.
Arguments app_all {App BlockArray ndarray dtype kwargs number PyObject} app a axis keepdims.
Arguments app_allclose {App BlockArray ndarray dtype kwargs number PyObject} app a b rtol atol.

End ApiRest.

(** ** Readings of the manager's state and of the wrappers' logs *)

Module Views.

Import ApplicationManager.

Section Manager.

Variable Hook : Type.
Variable hook_result : Hook -> ArrayApplication -> State Hook -> result unit.

(** The hooks invoked along a trace, in order. *)
Fixpoint hooks_fired (tr : list (Event Hook)) : list Hook :=
  match tr with
  | [] => []
  | EvHook func _ :: tr' => func :: hooks_fired tr'
  | _ :: tr' => hooks_fired tr'
  end.

(** How many handlers [configure_logging] has added to the root logger. *)
Fixpoint handlers_added (tr : list (Event Hook)) : nat :=
  match tr with
  | [] => 0
  | EvConfigureLogging :: tr' => S (handlers_added tr')
  | _ :: tr' => handlers_added tr'
  end.

(** The events that leave a running system as it is: a hook invocation or
    one more logging handler. *)
Definition quiet (ev : Event Hook) : bool :=
  match ev with
  | EvHook _ _ => true
  | EvConfigureLogging => true
  | _ => false
  end.

(** [destroy()] followed by [instance()]. *)
Definition cycle (settings : Settings) (st : State Hook) : State Hook :=
  snd (instance hook_result settings (destroy st)).

End Manager.

(** The system whose devices populate a device grid. *)
Definition grid_system (g : DeviceGrid) : SystemInterface :=
  match g with
  | CyclicDeviceGrid _ _ s => s
  | PackedDeviceGrid _ _ s => s
  end.

Section Rest.

Variables App BlockArray ndarray dtype kwargs number PyObject : Type.

(** Whether a logged call is a method of an array ([copy] or [astype]). *)
Definition is_array_method
           (c : ApiRest.AnyCall
                  (ApiRest.Call App BlockArray ndarray dtype kwargs number PyObject))
  : bool :=
  match c with
  | ApiRest.any (ApiRest.ba_copy _) => true
  | ApiRest.any (ApiRest.ba_astype _ _) => true
  | _ => false
  end.

End Rest.

End Views.

(** ** More concrete instances *)

Module Samples2.

Import Samples.

(** Callees for arrays known by their geometry, with the outcomes of the
    parallel ingestion, of the re-blocking, of the local parse and of a
    selection left open. *)
Definition respond (load reblock : result Geometry) (parse : result (list Z))
           (select : Geometry -> list Api.slice -> result Geometry)
           (A : Type) (c : Api.Call unit Geometry (list Z) unit unit A)
  : result A :=
  match c in Api.Call _ _ _ _ _ T return result T with
  | Api._instance => Ok tt
  | Api.get_num_cores _ => Ok 4%Z
  | Api.app_loadtxt _ _ _ _ _ => load
  | Api.app_compute_block_shape _ shp _ => Ok shp
  | Api.app_get_block_shape _ shp _ => Ok shp
  | Api.ba_reshape _ _ => reblock
  | Api.warnings_warn _ => Ok tt
  | Api.np_loadtxt _ _ _ => parse
  | Api.app_array _ np_arr blk => Ok (np_arr, blk)
  | Api.app_concatenate _ _ _ b => Ok ([], [b])
  | Api.ba_getitem ary ss => select ary ss
  | _ => Raise (NotImplementedError "not part of this instance")
  end.

(** A selection that fails from index 4 on along the first axis. *)
Definition select_below_4 (ary : Geometry) (ss : list Api.slice)
  : result Geometry :=
  match ss with
  | s :: _ =>
    match Api.start s with
    | Some a => if (a <? 4)%Z then Ok (selected (fst ary) ss, snd ary)
                else Raise (Exception "worker lost")
    | None => Ok (selected (fst ary) ss, snd ary)
    end
  | [] => Ok ary
  end.

(** Settings that name a compute module [create] does not know. *)
Definition jax_settings : ApplicationManager.Settings :=
  {| ApplicationManager.system_name := "serial";
     ApplicationManager.address := None;
     ApplicationManager.use_head := false;
     ApplicationManager.num_cpus := Some 4%Z;
     ApplicationManager.cluster_shape := [1; 1]%Z;
     ApplicationManager.compute_name := "jax";
     ApplicationManager.device_grid_name := "cyclic" |}.

(** The first application built under [serial_settings]. *)
Definition serial_app : ApplicationManager.ArrayApplication :=
  {| ApplicationManager.app_id := 0;
     ApplicationManager.cm :=
       {| ApplicationManager.system :=
            ApplicationManager.SerialSystem (Some 4%Z);
          ApplicationManager.compute_module := ApplicationManager.numpy_compute;
          ApplicationManager.device_grid :=
            ApplicationManager.CyclicDeviceGrid
              [1; 1]%Z "cpu" (ApplicationManager.SerialSystem (Some 4%Z)) |} |}.

(** An array known by its shape and the name of its dtype. *)
Definition Typed : Type := (list Z * string)%type.

(** Callees for the other wrappers, on arrays known by shape and dtype. *)
Definition respond_rest (A : Type)
           (c : ApiRest.Call unit Typed (list Z) string unit Z (list Z) A)
  : result A :=
  match c in ApiRest.Call _ _ _ _ _ _ _ T return result T with
  | ApiRest._instance => Ok tt
  | ApiRest.app_get_block_shape _ shp _ => Ok shp
  | ApiRest.app_compute_block_shape _ shp _ => Ok shp
  | ApiRest.app_arange _ shp _ _ dt => Ok (shp, dt)
  | ApiRest.app_linspace _ _ _ shp _ _ _ dt _ => Ok (shp, dt)
  | ApiRest.app_scalar _ _ => Ok ([], "float64"%string)
  | ApiRest.ufunc_kwargs kw => Ok kw
  | ApiRest.app_map_bop _ _ _ arr_2 _ _ _ => Ok arr_2
  | ApiRest.ba_copy ba => Ok ba
  | ApiRest.ba_astype ba dt => Ok (fst ba, dt)
  | _ => Raise (NotImplementedError "not part of this instance")
  end.

End Samples2.

(** * Properties *)

(** ** The application manager *)

Module ManagerFacts.

Import ApplicationManager.

Section Facts.

Variable Hook : Type.
Variable hook_result : Hook -> ArrayApplication -> State Hook -> result unit.

Implicit Types (st : State Hook) (settings : Settings) (func : Hook).

(** The loop over the hooks touches neither global nor the allocator, and
    invokes an initial part of the list, in order. *)
Lemma run_hooks_keeps app (hooks : list Hook) st :
  let st' := snd (run_hooks hook_result app hooks st) in
  _instance st' = _instance st
  /\ _call_on_create st' = _call_on_create st
  /\ next_id st' = next_id st
  /\ exists k, trace st' = trace st ++ map (fun f => EvHook f app) (firstn k hooks).
Proof.
  revert st; induction hooks as [|f hooks IH]; intros st; cbn.
  - repeat split. exists 0. now rewrite app_nil_r.
  - destruct (hook_result f app st) as [u|e]; cbn.
    + destruct (IH (emit (EvHook f app) st)) as (Hi & Hc & Hn & k & Ht).
      cbn in Hi, Hc, Hn, Ht. rewrite Hi, Hc, Hn. repeat split.
      exists (S k). rewrite Ht. cbn. now rewrite <- app_assoc.
    + repeat split. now exists 1.
Qed.

(** Hooks that return are all invoked. *)
Lemma run_hooks_return app (hooks : list Hook) st :
  (forall f, In f hooks -> forall s, hook_result f app s = Ok tt) ->
  fst (run_hooks hook_result app hooks st) = Ok tt
  /\ trace (snd (run_hooks hook_result app hooks st))
     = trace st ++ map (fun f => EvHook f app) hooks.
Proof.
  revert st; induction hooks as [|f hooks IH]; intros st Hret; cbn.
  - now rewrite app_nil_r.
  - rewrite (Hret f (or_introl eq_refl)).
    destruct (IH (emit (EvHook f app) st)) as [Hr Ht].
    { intros g Hg. apply Hret. now right. }
    rewrite Hr, Ht. cbn. now rewrite <- app_assoc.
Qed.

(** What the loop raises, a hook of the list has raised. *)
Lemma run_hooks_raise app (hooks : list Hook) st e :
  fst (run_hooks hook_result app hooks st) = Raise e ->
  exists f s, In f hooks /\ hook_result f app s = Raise e.
Proof.
  revert st; induction hooks as [|f hooks IH]; intros st; cbn; [discriminate|].
  destruct (hook_result f app st) as [u|e'] eqn:Hf; cbn.
  - intros H. destruct (IH _ H) as (g & s & Hg & Hs). exists g, s. auto.
  - intros [= <-]. exists f, st. auto.
Qed.

Lemma select_ok settings :
  settings_ok settings = true ->
  exists s m g,
    select_system settings = Ok s
    /\ select_compute_module settings = Ok m
    /\ select_device_grid settings s = Ok g.
Proof.
  unfold settings_ok, select_system, select_compute_module, select_device_grid.
  intros H.
  apply andb_prop in H as [H Hg]. apply andb_prop in H as [Hs Hm].
  rewrite Hm. revert Hs Hg. cbv zeta.
  repeat match goal with
         | |- context [String.eqb ?a ?b] => destruct (String.eqb a b)
         end; cbn; intros; try discriminate;
    do 3 eexists; repeat split; reflexivity.
Qed.

(** What [create] does when there is no instance and the settings are
    supported. *)
Lemma create_fresh settings st :
  _instance st = None ->
  settings_ok settings = true ->
  exists app st1,
    create settings st = (Ok app, st1)
    /\ app_id app = next_id st
    /\ _instance st1 = None
    /\ _call_on_create st1 = _call_on_create st
    /\ next_id st1 = S (next_id st).
Proof.
  intros Hnone Hok.
  destruct (select_ok _ Hok) as (s & m & g & Hs & Hm & Hg).
  unfold create. cbn. rewrite Hnone, Hs, Hm, Hg. cbn.
  eexists _, _; repeat split; cbn; auto.
Qed.

Lemma create_keeps settings st r st1 :
  create settings st = (r, st1) ->
  _instance st1 = _instance st
  /\ _call_on_create st1 = _call_on_create st
  /\ next_id st <= next_id st1
  /\ (forall app, r = Ok app -> next_id st1 = S (app_id app) /\ app_id app = next_id st).
Proof.
  unfold create. cbn.
  destruct (_instance st) eqn:Hi;
    [|destruct (select_system settings) as [s|];
      [destruct (select_compute_module settings);
       [destruct (select_device_grid settings s)|]|]];
    cbn; intros [= <- <-]; cbn; (split; [|split; [|split]]); auto;
    try discriminate.
  intros ? [= <-]. cbn. auto.
Qed.

(** What a creating [instance()] leaves, whatever the hooks do: the
    application registered, and an initial part of the hooks invoked on it.
    It returns the application unless a hook raised. *)
Lemma instance_builds settings st app st1 :
  _instance st = None ->
  create settings st = (Ok app, st1) ->
  exists r st2,
    instance hook_result settings st = (r, st2)
    /\ _instance st2 = Some app
    /\ _call_on_create st2 = _call_on_create st
    /\ next_id st2 = next_id st1
    /\ (exists k,
           trace st2
           = trace st1
             ++ map (fun f => EvHook f app) (firstn k (_call_on_create st)))
    /\ (r = Ok app
        \/ exists func s e,
            In func (_call_on_create st)
            /\ hook_result func app s = Raise e
            /\ r = Raise e)
    /\ (hooks_return hook_result st ->
        r = Ok app
        /\ trace st2
           = trace st1 ++ map (fun f => EvHook f app) (_call_on_create st)).
Proof.
  intros Hnone Hc.
  destruct (create_keeps _ _ Hc) as (_ & Hh & _).
  unfold instance. rewrite Hnone, Hc.
  set (st0 := set_instance (Some app) st1).
  assert (Hh0 : _call_on_create st0 = _call_on_create st) by exact Hh.
  rewrite Hh0.
  pose proof (run_hooks_keeps app (_call_on_create st) st0) as Hk.
  pose proof (@run_hooks_raise app (_call_on_create st) st0) as Hr.
  pose proof (@run_hooks_return app (_call_on_create st) st0) as Hret.
  destruct (run_hooks hook_result app (_call_on_create st) st0) as [[u|e] st2];
    cbn in Hk, Hr, Hret; destruct Hk as (Hi & Hc' & Hn & k & Ht);
    eexists _, st2; (split; [reflexivity|]);
    (split; [exact Hi|]); (split; [congruence|]); (split; [exact Hn|]);
    (split; [exists k; exact Ht|]); split.
  - now left.
  - intros Hall. split; [reflexivity|].
    apply Hret. intros f Hf s. now apply Hall.
  - right. destruct (Hr e eq_refl) as (f & s & Hf & Hs). now exists f, s, e.
  - intros Hall.
    destruct Hret as [Hbad _]; [intros f Hf s; now apply Hall|discriminate].
Qed.

Lemma instance_returns settings st app st1 :
  instance hook_result settings st = (Ok app, st1) -> _instance st1 = Some app.
Proof.
  destruct (_instance st) as [old|] eqn:Hi.
  - unfold instance. rewrite Hi. now intros [= <- <-].
  - destruct (create settings st) as [[a|e] st'] eqn:Hc.
    + destruct (@instance_builds _ _ _ _ Hi Hc) as (r & st2 & Hrun & Hreg & _ & _ & _ & Hr & _).
      rewrite Hrun. intros [= -> ->].
      destruct Hr as [[= ->]|(f & s & e & _ & _ & [=])]. exact Hreg.
    + unfold instance. rewrite Hi, Hc. discriminate.
Qed.

Lemma instance_initialized settings st app :
  _instance st = Some app -> instance hook_result settings st = (Ok app, st).
Proof. unfold instance. now intros ->. Qed.

Lemma destroy_clears st :
  _instance (destroy st) = None
  /\ _call_on_create (destroy st) = _call_on_create st
  /\ next_id (destroy st) = next_id st.
Proof. unfold destroy. destruct (_instance st) eqn:Hi; cbn; auto. Qed.

Lemma call_on_create_keeps func st :
  let st' := snd (call_on_create hook_result func st) in
  _instance st' = _instance st
  /\ _call_on_create st' = _call_on_create st ++ [func]
  /\ next_id st' = next_id st
  /\ trace st'
     = trace st
       ++ match _instance st with
          | Some app => [EvHook func app]
          | None => []
          end.
Proof.
  unfold call_on_create. cbn. destruct (_instance st); cbn; repeat split; auto.
  now rewrite app_nil_r.
Qed.

Lemma allocated_reachable st : reachable hook_result st -> allocated st.
Proof.
  induction 1 as [|st func _ IH|st settings _ IH|st settings _ IH|st _ IH];
    intros app Happ.
  - discriminate.
  - destruct (call_on_create_keeps func st) as (Hi & _ & Hn & _).
    rewrite Hn. apply IH. congruence.
  - destruct (_instance st) as [old|] eqn:Hi.
    + rewrite (instance_initialized settings _ Hi) in *. cbn in *.
      apply IH. congruence.
    + destruct (create settings st) as [[a|e] st'] eqn:Hc.
      * destruct (create_keeps _ _ Hc) as (_ & _ & _ & Hid).
        destruct (Hid a eq_refl) as [Hn _].
        destruct (@instance_builds _ _ _ _ Hi Hc) as (r & st2 & Hrun & Hreg & _ & Hn2 & _).
        rewrite Hrun in *. cbn in *. rewrite Hn2.
        assert (a = app) by congruence. subst a. lia.
      * unfold instance in Happ. rewrite Hi, Hc in Happ. cbn in Happ.
        destruct (create_keeps _ _ Hc) as (H1 & _). congruence.
  - destruct (create settings st) as [r st'] eqn:Hc. cbn in *.
    destruct (create_keeps _ _ Hc) as (H1 & _ & H3 & _).
    rewrite H1 in Happ. specialize (IH app Happ). lia.
  - destruct (destroy_clears st) as (H1 & _). congruence.
Qed.

(** C8: the singleton.  Once [instance()] has returned an application,
    every later call returns that same object and leaves the state as it
    is; [create()] while an instance exists raises and leaves the instance
    in place; [destroy()] without an instance does nothing; after
    [destroy()] the module is not initialized, and under supported settings
    the next [instance()] builds and registers an application that is a new
    object.  That call returns the application when the hooks return; a hook
    that raises ends it with the hook's exception, the new application
    registered all the same. *)
Theorem singleton_lifecycle settings st :
  (forall app st1,
      instance hook_result settings st = (Ok app, st1) ->
      forall settings' n,
        instance hook_result settings' st1 = (Ok app, st1)
        /\ Nat.iter n (fun s => snd (instance hook_result settings' s)) st1 = st1)
  /\ (forall app,
         _instance st = Some app ->
         create settings st
         = (Raise (Exception "create() called more than once."),
            configure_logging st)
         /\ _instance (configure_logging st) = Some app)
  /\ (_instance st = None -> destroy st = st)
  /\ is_initialized (destroy st) = false
  /\ (reachable hook_result st ->
      settings_ok settings = true ->
      exists app r st',
        instance hook_result settings (destroy st) = (r, st')
        /\ _instance st' = Some app
        /\ is_initialized st' = true
        /\ (forall old, _instance st = Some old -> app_id app <> app_id old)
        /\ (r = Ok app
            \/ exists func s e,
                In func (_call_on_create st)
                /\ hook_result func app s = Raise e
                /\ r = Raise e)
        /\ (hooks_return hook_result st -> r = Ok app)).
Proof.
  split; [|split; [|split; [|split]]].
  - intros app st1 Hfirst settings' n.
    apply instance_returns in Hfirst. split.
    + now apply instance_initialized.
    + induction n as [|n IH]; [reflexivity|].
      rewrite Nat.iter_succ, IH.
      now rewrite (instance_initialized settings' _ Hfirst).
  - intros app Hsome. split.
    + unfold create. cbn. now rewrite Hsome.
    + exact Hsome.
  - unfold destroy. now intros ->.
  - unfold is_initialized. now destruct (destroy_clears st) as (-> & _).
  - intros Hreach Hok.
    destruct (destroy_clears st) as (Hi & Hc & Hn).
    destruct (create_fresh settings (destroy st) Hi Hok)
      as (app & st1 & Hcr & Hid & _).
    destruct (@instance_builds _ _ _ _ Hi Hcr)
      as (r & st2 & Hrun & Hreg & _ & _ & _ & Hr & Hret).
    exists app, r, st2.
    split; [exact Hrun|]. split; [exact Hreg|].
    split; [unfold is_initialized; now rewrite Hreg|].
    split; [|split].
    + intros old Hold. apply allocated_reachable in Hreach.
      specialize (Hreach old Hold). lia.
    + rewrite Hc in Hr. exact Hr.
    + intros Hall. apply Hret. unfold hooks_return. now rewrite Hc.
Qed.


End Facts.

End ManagerFacts.

(** ** Python built-ins *)

Module BuiltinFacts.

(** [v] is strictly preferred to [w] as the mode of [l]. *)
Lemma preferred_spec l v w :
  preferred l v w = true
  <-> (occurrences l w < occurrences l v
       \/ (occurrences l v = occurrences l w /\ (v < w)%Z)).
Proof.
  unfold preferred.
  rewrite orb_true_iff, andb_true_iff, Nat.ltb_lt, Nat.eqb_eq, Z.ltb_lt.
  reflexivity.
Qed.

(** The scan keeps a candidate that nothing scanned so far beats. *)
Lemma mode_scan l scanned x :
  let m := fold_left (fun best v => if preferred l v best then v else best)
                     scanned x in
  (m = x \/ In m scanned)
  /\ preferred l x m = false
  /\ forall v, In v scanned -> preferred l v m = false.
Proof.
  revert x. induction scanned as [|u scanned IH]; intros x; cbn.
  - repeat split; auto.
    + apply not_true_is_false. rewrite preferred_spec. lia.
    + intros v [].
  - destruct (preferred l u x) eqn:Hp.
    + destruct (IH u) as (Hin & Hu & Hall). repeat split.
      * right. destruct Hin; auto.
      * apply not_true_is_false. intros Hx.
        apply not_true_iff_false in Hu.
        rewrite preferred_spec in *. lia.
      * intros v [<-|Hv]; auto.
    + destruct (IH x) as (Hin & Hx & Hall). repeat split.
      * destruct Hin; auto.
      * exact Hx.
      * intros v [<-|Hv]; auto.
        apply not_true_is_false. intros Hu.
        apply not_true_iff_false in Hp, Hx.
        rewrite preferred_spec in *. lia.
Qed.

(** On a non-empty list the mode is an element that occurs at least as
    often as any value, and the smallest such element. *)
Lemma scipy_stats_mode_spec l :
  l <> [] ->
  exists m,
    scipy_stats_mode l = Ok m
    /\ In m l
    /\ (forall v, occurrences l v <= occurrences l m)
    /\ (forall v, occurrences l v = occurrences l m -> (m <= v)%Z).
Proof.
  destruct l as [|x l']; [congruence|]. intros _.
  set (l := x :: l').
  destruct (mode_scan l l x) as (Hin & _ & Hall). cbv zeta in *.
  set (m := fold_left _ l x) in *.
  assert (Hm : In m l) by (destruct Hin as [->|]; [now left|assumption]).
  assert (Hpos : 0 < occurrences l m)
    by (apply (count_occ_In Z.eq_dec); exact Hm).
  exists m. split; [reflexivity|]. split; [exact Hm|].
  split; intros v.
  - destruct (in_dec Z.eq_dec v l) as [Hv|Hv].
    + specialize (Hall v Hv). apply not_true_iff_false in Hall.
      rewrite preferred_spec in Hall. lia.
    + apply (count_occ_not_In Z.eq_dec) in Hv. unfold occurrences. lia.
  - intros Heq. destruct (in_dec Z.eq_dec v l) as [Hv|Hv].
    + specialize (Hall v Hv). apply not_true_iff_false in Hall.
      rewrite preferred_spec in Hall. lia.
    + apply (count_occ_not_In Z.eq_dec) in Hv. unfold occurrences in *. lia.
Qed.

End BuiltinFacts.

(** ** The API wrappers *)

Module ApiFacts.
Import Api.

Lemma list_update_length {A : Type} (l : list A) k v :
  List.length (list_update l k v) = List.length l.
Proof.
  revert k; induction l as [|h t IH]; intros [|k]; cbn; auto.
Qed.

Lemma list_update_twice {A : Type} (l : list A) k v w :
  list_update (list_update l k v) k w = list_update l k w.
Proof.
  revert k; induction l as [|h t IH]; intros [|k]; cbn; auto.
  now rewrite IH.
Qed.

(** Over a positive extent that [step] divides, [range(0, n * step, step)]
    is the [n] multiples of [step] from [0] on. *)
Lemma py_range_multiples (n step : Z) :
  (0 < step)%Z -> (0 <= n)%Z ->
  py_range 0 (n * step) step
  = Ok (map (fun i => (0 + Z.of_nat i * step)%Z) (seq 0 (Z.to_nat n))).
Proof.
  intros Hstep Hn. unfold py_range, py_range_len.
  destruct (Z.eqb_spec step 0); [lia|].
  destruct (Z.ltb_spec 0 step); [|lia].
  replace ((n * step - 0 + step - 1) / step)%Z with n.
  - now rewrite Z.max_r by lia.
  - apply Z.div_unique with (r := (step - 1)%Z); lia.
Qed.

Section Facts.

Variables App BlockArray ndarray dtype kwargs : Type.
Variable shape : BlockArray -> list Z.
Variable block_shape : BlockArray -> list Z.
Variable np_shape : ndarray -> list Z.
Variable perform :
  forall A : Type, Call App BlockArray ndarray dtype kwargs A -> result A.

Local Abbreviation Log := (list (AnyCall App BlockArray ndarray dtype kwargs)).

Lemma bind_Ok {A B : Type} (m : M App BlockArray ndarray dtype kwargs A)
      (f : A -> M App BlockArray ndarray dtype kwargs B) (log log' : Log) (a : A) :
  m log = (Ok a, log') -> bind m f log = f a log'.
Proof. unfold bind. now intros ->. Qed.

Lemma mapM_lift {A B : Type} (f : A -> result B) (l : list A) (r : list B)
      (log : Log) :
  Forall2 (fun a b => f a = Ok b) l r ->
  mapM (fun a => lift (f a)) l log = (Ok r, log).
Proof.
  induction 1 as [|a b l r Hab _ IH]; [reflexivity|].
  cbn [mapM].
  erewrite bind_Ok by (unfold lift; rewrite Hab; reflexivity).
  erewrite bind_Ok by exact IH. reflexivity.
Qed.

(** C10: [argmax] refuses every array of more than one axis before it
    reaches the application: it raises [NotImplementedError] and dispatches
    nothing.  [argmin] makes no test on the rank: for every array it asks
    for the application and dispatches the [argmin] reduction. *)
Theorem argmax_rank_guard (a : BlockArray) (axis : option Z)
        (out : option BlockArray) (log : Log) :
  (1 < List.length (shape a) ->
   argmax shape perform a axis out log
   = (Raise (NotImplementedError
               "argmax currently only supports one-dimensional arrays."),
      log))
  /\ (forall app,
         perform _instance = Ok app ->
         argmin perform a axis None log
         = (perform (app_argop app "argmin" a axis),
            log ++ [any _instance; any (app_argop app "argmin" a axis)])).
Proof.
  split.
  - intros Hrank. unfold argmax.
    apply Nat.ltb_lt in Hrank. now rewrite Hrank.
  - intros app Happ. unfold argmin, bind, call. rewrite Happ.
    now rewrite <- app_assoc.
Qed.

(** C7: when the parallel ingestion raises an [Exception], [loadtxt] warns,
    parses the file with [np.loadtxt], computes the block shape for the
    parsed array's shape and the dtype, and returns the array the
    application makes of the parsed data with that block shape; the
    exception of the parallel ingestion is not propagated. *)
Theorem loadtxt_fallback (fname : string) (dt : dtype) (kw : kwargs)
        (app : App) (num_rows : Z) (e : exn) (np_arr : ndarray)
        (blk : list Z) (ba : BlockArray) (log : Log) :
  perform _instance = Ok app ->
  perform (get_num_cores app) = Ok num_rows ->
  perform (app_loadtxt app fname dt kw num_rows) = Raise e ->
  is_Exception e = true ->
  perform (warnings_warn
             "Failed to load text data in parallel; using np.loadtxt locally.")
  = Ok tt ->
  perform (np_loadtxt fname dt kw) = Ok np_arr ->
  perform (app_compute_block_shape app (np_shape np_arr) dt) = Ok blk ->
  perform (app_array app np_arr blk) = Ok ba ->
  loadtxt shape np_shape perform fname dt kw log
  = (Ok ba,
     log ++ [any _instance;
             any (get_num_cores app);
             any (app_loadtxt app fname dt kw num_rows);
             any (warnings_warn
                    "Failed to load text data in parallel; using np.loadtxt locally.");
             any (np_loadtxt fname dt kw);
             any (app_compute_block_shape app (np_shape np_arr) dt);
             any (app_array app np_arr blk)]).
Proof.
  intros Happ Hcores Hload Hexc Hwarn Hnp Hblk Harr.
  unfold loadtxt, bind, try_except, call.
  rewrite Happ, Hcores, Hload, Hexc, Hwarn, Hnp, Hblk, Harr.
  repeat rewrite <- app_assoc. reflexivity.
Qed.

(** X19: the clause is [except Exception].  What the parallel ingestion
    raises outside that class ([KeyboardInterrupt], [SystemExit]) is let
    through, with no warning and no local parse. *)
Remark loadtxt_lets_through (fname : string) (dt : dtype) (kw : kwargs)
       (app : App) (num_rows : Z) (e : exn) (log : Log) :
  perform _instance = Ok app ->
  perform (get_num_cores app) = Ok num_rows ->
  perform (app_loadtxt app fname dt kw num_rows) = Raise e ->
  is_Exception e = false ->
  loadtxt shape np_shape perform fname dt kw log
  = (Raise e,
     log ++ [any _instance;
             any (get_num_cores app);
             any (app_loadtxt app fname dt kw num_rows)]).
Proof.
  intros Happ Hcores Hload Hexc.
  unfold loadtxt, bind, try_except, call.
  rewrite Happ, Hcores, Hload, Hexc.
  repeat rewrite <- app_assoc. reflexivity.
Qed.

(** C6: for a non-empty list of arrays that all have the axis,
    [concatenate] passes to the application's concatenation, as the block
    size along the axis, the most common of the inputs' block sizes along
    it (the smallest one among equally common ones), and that is the only
    work it dispatches. *)
Theorem concatenate_mode (arrays : list BlockArray) (axis : Z)
        (sizes : list Z) (app : App) (log : Log) :
  arrays <> [] ->
  Forall2 (fun arr size => py_getitem (block_shape arr) axis = Ok size)
          arrays sizes ->
  perform _instance = Ok app ->
  exists axis_block_size,
    In axis_block_size sizes
    /\ (forall v, occurrences sizes v <= occurrences sizes axis_block_size)
    /\ (forall v, occurrences sizes v = occurrences sizes axis_block_size ->
                  (axis_block_size <= v)%Z)
    /\ concatenate block_shape perform arrays axis None log
       = (perform (app_concatenate app arrays axis axis_block_size),
          log ++ [any _instance;
                  any (app_concatenate app arrays axis axis_block_size)]).
Proof.
  intros Hne Hsizes Happ.
  assert (Hne' : sizes <> []).
  { intros ->. inversion Hsizes. congruence. }
  destruct (BuiltinFacts.scipy_stats_mode_spec Hne')
    as (m & Hmode & Hin & Hmax & Hmin).
  exists m. repeat split; auto.
  unfold concatenate, bind.
  rewrite (mapM_lift _ log Hsizes).
  unfold lift, call. rewrite Hmode, Happ.
  now rewrite <- app_assoc.
Qed.

Section Split.

Variable ary : BlockArray.
Variable axis : Z.
Variable k : nat.
Variable dim_partial : Z.
Hypothesis Hk : py_index (List.length (shape ary)) axis = Some k.

Local Abbreviation section i :=
  (section_slices (shape ary) k dim_partial (Z.of_nat i)).

Lemma split_step_section (i : nat) (ss_op : list slice)
      (results : list BlockArray) (p : BlockArray) (log : Log) :
  List.length ss_op = List.length (shape ary) ->
  (forall v, list_update ss_op k v
             = list_update (map (fun _ => {| start := None; stop := None; step := 1 |})
                                (shape ary)) k v) ->
  perform (ba_getitem ary (section i)) = Ok p ->
  split_step perform ary axis dim_partial (ss_op, results)
             (0 + Z.of_nat i * dim_partial)%Z log
  = (Ok (section i, results ++ [p]), log ++ [any (ba_getitem ary (section i))]).
Proof.
  intros Hlen Hss Hp.
  unfold split_step, bind, lift, py_setitem. rewrite Hlen, Hk, Hss.
  unfold call.
  change (list_update _ k _) with (section i).
  now rewrite Hp.
Qed.

Lemma split_loop (indices : list nat) :
  forall (ss_op : list slice) (results parts : list BlockArray) (log : Log),
    List.length ss_op = List.length (shape ary) ->
    (forall v, list_update ss_op k v
               = list_update (map (fun _ => {| start := None; stop := None; step := 1 |})
                                  (shape ary)) k v) ->
    map Ok parts = map (fun i => perform (ba_getitem ary (section i))) indices ->
    exists ss_op',
      foreach (map (fun i => (0 + Z.of_nat i * dim_partial)%Z) indices)
              (split_step perform ary axis dim_partial) (ss_op, results) log
      = (Ok (ss_op', results ++ parts),
         log ++ map (fun i => any (ba_getitem ary (section i))) indices).
Proof.
  induction indices as [|i indices IH]; intros ss_op results parts log Hlen Hss Hparts.
  - destruct parts; [|discriminate]. cbn.
    exists ss_op. unfold ret. now rewrite !app_nil_r.
  - destruct parts as [|p parts]; [discriminate|].
    cbn in Hparts. injection Hparts as Hp Hparts. symmetry in Hp.
    destruct (IH (section i) (results ++ [p]) parts
                 (log ++ [any (ba_getitem ary (section i))]))
      as (ss_op' & Hloop); auto.
    + unfold section_slices.
      now rewrite list_update_length, length_map.
    + intros v. unfold section_slices. apply list_update_twice.
    + exists ss_op'. cbn [map foreach].
      erewrite bind_Ok by (eapply split_step_section; eauto).
      rewrite Hloop. now rewrite <- !app_assoc.
Qed.

End Split.

(** C5: [split] into [n > 0] sections along an axis of the array.  When [n]
    does not divide the extent along the axis, [split] raises [ValueError]
    and has dispatched nothing.  When it does and the extent is positive,
    [split] dispatches exactly [n] selections, in ascending order, the
    [i]-th covering the [i]-th run of [dim_total // n] indices along the
    axis, and returns the tuple of the [n] arrays they answer with. *)
Theorem split_sections (ary : BlockArray) (n axis dim_total : Z) (k : nat)
        (log : Log) :
  (0 < n)%Z ->
  py_index (List.length (shape ary)) axis = Some k ->
  py_getitem (shape ary) axis = Ok dim_total ->
  let section i :=
      section_slices (shape ary) k (dim_total / n) (Z.of_nat i) in
  ((dim_total mod n)%Z <> 0%Z ->
   split shape perform ary (Sections n) axis log
   = (Raise (ValueError ("ary axis " ++ str_of_Z axis ++ " cannot be split into "
                         ++ str_of_Z n ++ " equal arrays.")),
      log))
  /\ ((0 < dim_total)%Z ->
      (dim_total mod n)%Z = 0%Z ->
      forall parts,
        map Ok parts
        = map (fun i => perform (ba_getitem ary (section i)))
              (seq 0 (Z.to_nat n)) ->
        split shape perform ary (Sections n) axis log
        = (Ok parts,
           log ++ map (fun i => any (ba_getitem ary (section i)))
                      (seq 0 (Z.to_nat n)))
        /\ List.length parts = Z.to_nat n).
Proof.
  intros Hn Hk Hdim section. split.
  - intros Hrem. unfold split, bind, lift. rewrite Hdim.
    unfold py_mod. destruct (Z.eqb_spec n 0); [lia|].
    destruct (Z.eqb_spec (dim_total mod n) 0); [contradiction|]. reflexivity.
  - intros Hpos Hrem parts Hparts. split.
    + unfold split, bind at 1, lift at 1. rewrite Hdim.
      unfold bind at 1, lift at 1, py_mod. destruct (Z.eqb_spec n 0); [lia|].
      rewrite Hrem. cbn [Z.eqb negb].
      unfold bind at 1, lift at 1, py_floordiv.
      destruct (Z.eqb_spec n 0); [lia|].
      assert (Hdiv : dim_total = ((dim_total / n) * n)%Z).
      { rewrite (Z.div_mod dim_total n) at 1 by lia. lia. }
      assert (Hdp : (0 < dim_total / n)%Z).
      { apply Z.div_str_pos. split; [lia|].
        apply Z.divide_pos_le; [lia|]. apply Z.mod_divide; assumption. }
      unfold bind at 1, lift at 1.
      replace (py_range 0 dim_total (dim_total / n))
        with (py_range 0 (n * (dim_total / n)) (dim_total / n))
        by (f_equal; lia).
      rewrite py_range_multiples by lia.
      unfold bind at 1.
      destruct (@split_loop ary axis k (dim_total / n) Hk
                            (seq 0 (Z.to_nat n))
                           (map (fun _ => {| start := None; stop := None; step := 1 |})
                                (shape ary))
                           [] parts log)
        as (ss_op' & Hloop); auto.
      * now rewrite length_map.
      * rewrite Hloop. reflexivity.
    + apply (f_equal (@List.length _)) in Hparts.
      now rewrite !length_map, length_seq in Hparts.
Qed.

(** X12: an axis of extent 0, which the data model of the arrays rules
    out.  The step of the [range] is 0 and [split] raises [ValueError],
    again before it dispatches anything. *)
Remark split_empty_axis (ary : BlockArray) (n axis : Z) (log : Log) :
  (0 < n)%Z ->
  py_getitem (shape ary) axis = Ok 0%Z ->
  split shape perform ary (Sections n) axis log
  = (Raise (ValueError "range() arg 3 must not be zero"), log).
Proof.
  intros Hn Hdim. unfold split, bind, lift. rewrite Hdim.
  unfold py_mod, py_floordiv. destruct (Z.eqb_spec n 0); [lia|].
  rewrite Z.mod_0_l by lia. cbn [Z.eqb negb].
  rewrite Z.div_0_l by lia. reflexivity.
Qed.

End Facts.

End ApiFacts.

(** ** The cyclic device grid *)

Module GridFacts.

Import Grid.

(** Consecutive runs of [P] numbers, laid end to end. *)
Lemma seq_runs (s a P : nat) :
  flat_map (fun i => seq ((a + i) * P) P) (seq 0 s) = seq (a * P) (s * P).
Proof.
  revert a. induction s as [|s IH]; intros a; [reflexivity|].
  cbn [seq flat_map]. rewrite <- seq_shift, flat_map_concat_map, map_map.
  rewrite <- flat_map_concat_map.
  rewrite (flat_map_ext _ (fun i => seq ((S a + i) * P) P))
    by (intros i; f_equal; lia).
  rewrite IH, Nat.add_0_r.
  replace (S a * P) with (a * P + P) by lia.
  now rewrite <- seq_app.
Qed.

(** Row-major order: the coordinates of the grid, in that order, flatten to
    consecutive indices. *)
Lemma flatten_from_coordinates (shape : list nat) (acc : nat) :
  map (flatten_from acc shape) (coordinates shape)
  = seq (acc * volume shape) (volume shape).
Proof.
  revert acc. induction shape as [|s rest IH]; intros acc; cbn.
  - f_equal. lia.
  - rewrite flat_map_concat_map, concat_map, map_map, <- flat_map_concat_map.
    rewrite (flat_map_ext _ (fun i => seq ((acc * s + i) * volume rest)
                                          (volume rest))).
    + rewrite seq_runs. f_equal. fold (volume rest). lia.
    + intros i. rewrite map_map. cbn. apply IH.
Qed.

Lemma flatten_coordinates (shape : list nat) :
  map (flatten shape) (coordinates shape) = seq 0 (volume shape).
Proof. apply (flatten_from_coordinates shape 0). Qed.

(** How many of the first [P] indices fall on position [i] modulo [N]. *)
Lemma count_residue (N i P : nat) :
  i < N ->
  List.length (filter (fun x => x mod N =? i) (seq 0 P))
  = P / N + (if i <? P mod N then 1 else 0).
Proof.
  intros Hi. induction P as [|P IH].
  - cbn. rewrite Nat.Div0.div_0_l, Nat.Div0.mod_0_l.
    now destruct (Nat.ltb_spec i 0); [lia|].
  - rewrite seq_S, filter_app, length_app, IH. cbn [filter List.length Nat.add].
    pose proof (Nat.div_mod_eq P N) as HP.
    pose proof (Nat.mod_upper_bound P N ltac:(lia)) as Hr.
    destruct (Nat.eq_dec (S (P mod N)) N) as [Hwrap|Hstep].
    + assert (Hq : S P / N = S (P / N)).
      { symmetry. apply Nat.div_unique with (r := 0); lia. }
      assert (Hm : S P mod N = 0).
      { symmetry. apply Nat.mod_unique with (q := S (P / N)); lia. }
      rewrite Hq, Hm.
      destruct (Nat.eqb_spec (P mod N) i), (Nat.ltb_spec i (P mod N)),
        (Nat.ltb_spec i 0); cbn; lia.
    + assert (Hq : S P / N = P / N).
      { symmetry. apply Nat.div_unique with (r := S (P mod N)); lia. }
      assert (Hm : S P mod N = S (P mod N)).
      { symmetry. apply Nat.mod_unique with (q := P / N); lia. }
      rewrite Hq, Hm.
      destruct (Nat.eqb_spec (P mod N) i), (Nat.ltb_spec i (P mod N)),
        (Nat.ltb_spec i (S (P mod N))); cbn; lia.
Qed.

Lemma filter_map_length {A B : Type} (f : A -> B) (p : B -> bool) (l : list A) :
  List.length (filter p (map f l)) = List.length (filter (fun a => p (f a)) l).
Proof.
  induction l as [|a l IH]; cbn; auto.
  destruct (p (f a)); cbn; auto.
Qed.

Section Cyclic.

Variable Device : Type.
Variable Device_eq_dec : forall x y : Device, {x = y} + {x <> y}.

Implicit Types (g : CyclicDeviceGrid Device) (d : Device).

(** The load of the device at position [i] of the device list. *)
Lemma load_at g d (i : nat) :
  NoDup (devices g) ->
  nth_error (devices g) i = Some d ->
  load Device_eq_dec g d
  = volume (cluster_shape g) / List.length (devices g)
    + (if i <? volume (cluster_shape g) mod List.length (devices g)
       then 1 else 0).
Proof.
  intros Hnd Hd.
  assert (Hi : i < List.length (devices g))
    by (apply nth_error_Some; congruence).
  rewrite <- (count_residue (volume (cluster_shape g)) Hi).
  rewrite <- flatten_coordinates, filter_map_length.
  unfold load. f_equal. apply filter_ext. intros c.
  unfold assigned_to, get_device.
  set (x := flatten (cluster_shape g) c mod List.length (devices g)).
  assert (Hx : x < List.length (devices g))
    by (apply Nat.mod_upper_bound; lia).
  destruct (nth_error (devices g) x) as [d'|] eqn:Hx'.
  - destruct (Device_eq_dec d d') as [<-|Hne].
    + symmetry. apply Nat.eqb_eq.
      apply (proj1 (NoDup_nth_error (devices g)) Hnd); [exact Hx|congruence].
    + symmetry. apply Nat.eqb_neq. intros ->. congruence.
  - apply nth_error_None in Hx'. lia.
Qed.

(** C3: the cyclic policy.  [get_device] is the device at position
    [flat mod N] of the device list, [flat] the row-major index of the
    coordinate over the cluster shape: the coordinates of the cluster grid,
    in row-major order, flatten to [0, 1, 2, ...].  It is a function of the
    coordinate alone, so repeated calls agree.  Over the coordinates of the
    cluster grid, every coordinate gets a device of the list, and the
    numbers of coordinates assigned to two devices of the list differ by at
    most 1. *)
Theorem cyclic_balanced g d1 d2 :
  NoDup (devices g) ->
  In d1 (devices g) ->
  In d2 (devices g) ->
  (forall c,
      get_device g c
      = nth_error (devices g)
                  (flatten (cluster_shape g) c mod List.length (devices g)))
  /\ map (flatten (cluster_shape g)) (coordinates (cluster_shape g))
     = seq 0 (volume (cluster_shape g))
  /\ (forall c, exists d, get_device g c = Some d /\ In d (devices g))
  /\ load Device_eq_dec g d1 <= load Device_eq_dec g d2 + 1
  /\ load Device_eq_dec g d2 <= load Device_eq_dec g d1 + 1.
Proof.
  intros Hnd H1 H2.
  split; [reflexivity|]. split; [apply flatten_coordinates|]. split.
  - intros c. unfold get_device.
    destruct (nth_error (devices g)
                (flatten (cluster_shape g) c mod List.length (devices g)))
      as [d|] eqn:Hd.
    + exists d. split; [reflexivity|]. eapply nth_error_In; eauto.
    + apply nth_error_None in Hd.
      assert (0 < List.length (devices g))
        by (destruct (devices g); [contradiction|cbn; lia]).
      pose proof (Nat.mod_upper_bound (flatten (cluster_shape g) c)
                                      (List.length (devices g))). lia.
  - apply In_nth_error in H1 as [i1 H1]. apply In_nth_error in H2 as [i2 H2].
    rewrite (@load_at g d1 i1 Hnd H1), (@load_at g d2 i2 Hnd H2).
    destruct (i1 <? _), (i2 <? _); lia.
Qed.

End Cyclic.

End GridFacts.

(** ** The block engine *)

Unset Implicit Arguments.

Module EngineFacts.

Import Engine.

(** *** Tiling arithmetic *)

Lemma block_index (n b r : nat) : 0 < b -> r < n -> r / b < num_blocks n b.
Proof.
  intros Hb Hr. unfold num_blocks.
  assert (H : (r + 1 * b) / b <= (n + b - 1) / b)
    by (apply Nat.Div0.div_le_mono; lia).
  rewrite Nat.div_add in H by lia. lia.
Qed.

Lemma block_offset (n b r : nat) : 0 < b -> r < n -> r mod b < extent n b (r / b).
Proof.
  intros Hb Hr. unfold extent.
  pose proof (Nat.div_mod_eq r b). pose proof (Nat.mod_upper_bound r b).
  apply Nat.min_glb_lt; lia.
Qed.

Lemma div_block (i b a : nat) : a < b -> (i * b + a) / b = i.
Proof. intros Ha. symmetry. apply Nat.div_unique with (r := a); lia. Qed.

Lemma mod_block (i b a : nat) : a < b -> (i * b + a) mod b = a.
Proof. intros Ha. symmetry. apply Nat.mod_unique with (q := i); lia. Qed.

Lemma extent_le (n b i : nat) : extent n b i <= b.
Proof. apply Nat.le_min_l. Qed.

Lemma num_blocks_cover (n b : nat) : 0 < b -> n <= num_blocks n b * b.
Proof.
  intros Hb. unfold num_blocks.
  pose proof (Nat.div_mod_eq (n + b - 1) b).
  pose proof (Nat.mod_upper_bound (n + b - 1) b). lia.
Qed.

Lemma map_offset_seq (s m : nat) : map (fun t => s + t) (seq 0 m) = seq s m.
Proof.
  revert s. induction m as [|m IH]; intros s; [reflexivity|].
  cbn [seq map]. rewrite Nat.add_0_r. f_equal.
  rewrite <- seq_shift, map_map.
  rewrite <- (IH (S s)). apply map_ext. intros; lia.
Qed.

(** The blocks of an axis, laid end to end, are the axis. *)
Lemma blocks_cover_prefix (n b K : nat) :
  flat_map (fun k => map (fun t => k * b + t) (seq 0 (extent n b k))) (seq 0 K)
  = seq 0 (Nat.min n (K * b)).
Proof.
  induction K as [|K IH]; [now rewrite Nat.min_0_r|].
  rewrite seq_S, flat_map_app, IH. cbn [flat_map Nat.add].
  rewrite app_nil_r, map_offset_seq. unfold extent.
  destruct (Nat.le_ge_cases (K * b) n) as [Hle|Hge].
  - rewrite (Nat.min_r n (K * b)) by exact Hle.
    replace (Nat.min n (S K * b)) with (K * b + Nat.min b (n - K * b)) by lia.
    now rewrite seq_app.
  - rewrite (Nat.min_l n (K * b)) by exact Hge.
    replace (Nat.min b (n - K * b)) with 0 by lia.
    rewrite app_nil_r. f_equal. lia.
Qed.

Lemma blocks_cover (n b : nat) :
  0 < b ->
  flat_map (fun k => map (fun t => k * b + t) (seq 0 (extent n b k)))
           (seq 0 (num_blocks n b))
  = seq 0 n.
Proof.
  intros Hb. rewrite blocks_cover_prefix. f_equal.
  pose proof (num_blocks_cover n b Hb). lia.
Qed.

(** *** Sums *)

Lemma zsum_cons (x : Z) (l : list Z) : zsum (x :: l) = (x + zsum l)%Z.
Proof. reflexivity. Qed.

Lemma zsum_app (l1 l2 : list Z) : zsum (l1 ++ l2) = (zsum l1 + zsum l2)%Z.
Proof.
  induction l1 as [|x l1 IH]; [reflexivity|].
  rewrite <- app_comm_cons, !zsum_cons, IH. lia.
Qed.

Lemma zsum_flat_map {A : Type} (f : A -> list Z) (l : list A) :
  zsum (flat_map f l) = zsum (map (fun a => zsum (f a)) l).
Proof.
  induction l as [|a l IH]; [reflexivity|].
  cbn [flat_map map]. now rewrite zsum_app, zsum_cons, IH.
Qed.

(** A sum block by block is the sum along the axis. *)
Lemma zsum_blocks (n b : nat) (h : nat -> Z) :
  0 < b ->
  zsum (map (fun k => zsum (map (fun t => h (k * b + t)) (seq 0 (extent n b k))))
            (seq 0 (num_blocks n b)))
  = zsum (map h (seq 0 n)).
Proof.
  intros Hb. rewrite <- (blocks_cover n b Hb).
  rewrite flat_map_concat_map, concat_map, map_map, <- flat_map_concat_map.
  rewrite zsum_flat_map. f_equal. apply map_ext. intros k.
  now rewrite map_map.
Qed.

Lemma zsum_const {A : Type} (l : list A) :
  zsum (map (fun _ => 1%Z) l) = Z.of_nat (List.length l).
Proof.
  induction l as [|x l IH]; [reflexivity|].
  cbn [map List.length]. rewrite zsum_cons, IH. lia.
Qed.

(** *** Blocks *)

Lemma nth_tabulated {A : Type} (f : nat -> A) (n i : nat) (d : A) :
  i < n -> nth i (map f (seq 0 n)) d = f i.
Proof.
  intros Hi. rewrite (nth_indep _ d (f 0)) by now rewrite length_map, length_seq.
  rewrite map_nth, seq_nth by exact Hi. reflexivity.
Qed.

Lemma entry_tabulate (p t : nat) (f : nat -> nat -> Z) (a c : nat) :
  a < p -> c < t -> entry (tabulate p t f) a c = f a c.
Proof.
  intros Ha Hc. unfold entry, tabulate. cbn.
  rewrite nth_tabulated by exact Ha. now rewrite nth_tabulated by exact Hc.
Qed.

Lemma block_at_build shp blk block (i j : nat) :
  i < num_blocks (fst shp) (fst blk) ->
  j < num_blocks (snd shp) (snd blk) ->
  block_at (build shp blk block) i j = block i j.
Proof.
  intros Hi Hj. unfold block_at, build. cbn.
  rewrite nth_tabulated by exact Hi. now rewrite nth_tabulated by exact Hj.
Qed.

Lemma well_tiled_spec (A : Matrix) :
  well_tiled A = true ->
  0 < fst (block_shape A)
  /\ 0 < snd (block_shape A)
  /\ forall i j,
      i < num_blocks (fst (shape A)) (fst (block_shape A)) ->
      j < num_blocks (snd (shape A)) (snd (block_shape A)) ->
      local_shape (block_at A i j)
      = (extent (fst (shape A)) (fst (block_shape A)) i,
         extent (snd (shape A)) (snd (block_shape A)) j).
Proof.
  unfold well_tiled. destruct (shape A) as [n m], (block_shape A) as [b0 b1].
  cbn [fst snd]. rewrite !andb_true_iff, !Nat.ltb_lt, forallb_forall.
  intros [[[Hb0 Hb1] _] Hall]. repeat split; auto.
  intros i j Hi Hj.
  specialize (Hall i). rewrite in_seq, andb_true_iff, forallb_forall in Hall.
  destruct Hall as [_ Hall]; [lia|].
  specialize (Hall j). rewrite in_seq in Hall. unfold block_ok in Hall.
  rewrite !andb_true_iff, !Nat.eqb_eq in Hall.
  destruct Hall as [[[H0 H1] _] _]; [lia|].
  destruct (local_shape (block_at A i j)); cbn in *. congruence.
Qed.

Lemma get_block (A : Matrix) (i j a c : nat) :
  a < fst (block_shape A) ->
  c < snd (block_shape A) ->
  get A (i * fst (block_shape A) + a) (j * snd (block_shape A) + c)
  = entry (block_at A i j) a c.
Proof.
  unfold get. destruct (block_shape A) as [b0 b1]. cbn [fst snd]. intros Ha Hc.
  now rewrite !div_block, !mod_block by assumption.
Qed.

Lemma well_tiled_of_fun shp blk f :
  0 < fst blk -> 0 < snd blk -> well_tiled (of_fun shp blk f) = true.
Proof.
  destruct shp as [n m], blk as [b0 b1]. cbn [fst snd]. intros Hb0 Hb1.
  unfold well_tiled, of_fun. cbn [shape block_shape build fst snd grid].
  rewrite !andb_true_iff, !Nat.ltb_lt, forallb_forall. repeat split; auto.
  - apply Nat.eqb_eq. now rewrite length_map, length_seq.
  - intros i Hi. apply in_seq in Hi.
    rewrite andb_true_iff, forallb_forall. split.
    + apply Nat.eqb_eq. rewrite nth_tabulated by lia.
      now rewrite length_map, length_seq.
    + intros j Hj. apply in_seq in Hj.
      change (map _ (seq 0 (num_blocks n b0)))
        with (grid (build (n, m) (b0, b1)
                          (fun i j => tabulate (extent n b0 i) (extent m b1 j)
                                               (fun a c => f (i * b0 + a) (j * b1 + c))))).
      fold (block_at (build (n, m) (b0, b1)
                            (fun i j => tabulate (extent n b0 i) (extent m b1 j)
                                                 (fun a c => f (i * b0 + a) (j * b1 + c))))
                     i j).
      rewrite block_at_build by (cbn; lia).
      unfold block_ok, tabulate. cbn [local_shape data fst snd].
      rewrite !andb_true_iff, !Nat.eqb_eq, forallb_forall.
      repeat split; auto.
      * now rewrite length_map, length_seq.
      * intros row Hrow. apply in_map_iff in Hrow as (a & <- & _).
        apply Nat.eqb_eq. now rewrite length_map, length_seq.
Qed.

Lemma get_of_fun shp blk f (r c : nat) :
  0 < fst blk -> 0 < snd blk -> r < fst shp -> c < snd shp ->
  get (of_fun shp blk f) r c = f r c.
Proof.
  destruct shp as [n m], blk as [b0 b1]. cbn [fst snd]. intros Hb0 Hb1 Hr Hc.
  unfold get, of_fun. cbn [block_shape build].
  rewrite block_at_build by (cbn [fst snd]; now apply block_index).
  cbn [fst snd].
  rewrite entry_tabulate by now apply block_offset.
  f_equal.
  - pose proof (Nat.div_mod_eq r b0). lia.
  - pose proof (Nat.div_mod_eq c b1). lia.
Qed.

(** *** Combining partial results *)

Lemma vec_add_spec (x y : list Z) (c : nat) :
  c < List.length x ->
  List.length (vec_add x y) = List.length x
  /\ nth c (vec_add x y) 0%Z = (nth c x 0 + nth c y 0)%Z.
Proof.
  intros Hc. unfold vec_add. split.
  - now rewrite length_map, length_seq.
  - now rewrite nth_tabulated.
Qed.

Lemma nth_fold_vec_add (partials : list (list Z)) (x : list Z) (c : nat) :
  c < List.length x ->
  nth c (fold_left vec_add partials x) 0%Z
  = (nth c x 0 + zsum (map (fun v => nth c v 0%Z) partials))%Z.
Proof.
  revert x. induction partials as [|y partials IH]; intros x Hc.
  - cbn. lia.
  - cbn [fold_left map]. rewrite zsum_cons.
    destruct (vec_add_spec x y c Hc) as [Hlen Hnth].
    rewrite IH by lia. rewrite Hnth. lia.
Qed.

Lemma nth_combine_ascending (F : nat -> list Z) (K c : nat) :
  (0 < K -> c < List.length (F 0)) ->
  nth c (combine_ascending vec_add [] (map F (seq 0 K))) 0%Z
  = zsum (map (fun k => nth c (F k) 0%Z) (seq 0 K)).
Proof.
  intros Hc. destruct K as [|K].
  - cbn. now destruct c.
  - cbn [seq map combine_ascending].
    rewrite (nth_fold_vec_add _ _ c (Hc (Nat.lt_0_succ K))), zsum_cons, map_map.
    reflexivity.
Qed.

(** *** The blocked reduction against the dense one *)

Lemma block_sum0_spec (X : Block) (p t c : nat) :
  local_shape X = (p, t) -> c < t ->
  List.length (block_sum0 X) = t
  /\ nth c (block_sum0 X) 0%Z = zsum (map (fun a => entry X a c) (seq 0 p)).
Proof.
  intros HX Hc. unfold block_sum0. rewrite HX. cbn [fst snd]. split.
  - now rewrite length_map, length_seq.
  - now rewrite nth_tabulated.
Qed.

(** Every entry of the blocked sum along axis 0 is the dense column sum. *)
Lemma sum_axis0_get (A : Matrix) (c : nat) :
  well_tiled A = true ->
  c < snd (shape A) ->
  vget (sum_axis0 A) c
  = zsum (map (fun r => get A r c) (seq 0 (fst (shape A)))).
Proof.
  intros HA Hc.
  destruct (well_tiled_spec A HA) as (Hb0 & Hb1 & Hls).
  set (b0 := fst (block_shape A)) in *. set (b1 := snd (block_shape A)) in *.
  pose proof (block_offset _ _ _ Hb1 Hc) as Hoff_c.
  pose proof (block_index _ _ _ Hb1 Hc) as Hidx_c.
  unfold vget, sum_axis0. cbn [vblock_shape vgrid]. fold b0 b1.
  rewrite nth_tabulated by exact Hidx_c.
  rewrite nth_combine_ascending.
  - rewrite <- (zsum_blocks (fst (shape A)) b0) by exact Hb0.
    f_equal. apply map_ext_in. intros i Hi. apply in_seq in Hi.
    rewrite (proj2 (block_sum0_spec _ _ _ _ (Hls i _ ltac:(lia) Hidx_c) Hoff_c)).
    f_equal. apply map_ext_in. intros a Ha. apply in_seq in Ha.
    pose proof (extent_le (fst (shape A)) b0 i).
    pose proof (extent_le (snd (shape A)) b1 (c / b1)).
    rewrite <- (get_block A i (c / b1) a (c mod b1)) by (fold b0; fold b1; lia).
    fold b0. fold b1.
    replace (c / b1 * b1 + c mod b1) with c
      by (pose proof (Nat.div_mod_eq c b1); lia).
    reflexivity.
  - intros HK.
    rewrite (proj1 (block_sum0_spec _ _ _ _ (Hls 0 _ HK Hidx_c) Hoff_c)).
    exact Hoff_c.
Qed.

(** The blocked reduction refines the dense one. *)
Lemma sum_axis0_dense (A : Matrix) :
  well_tiled A = true ->
  vto_dense (sum_axis0 A) = dense_sum0 (snd (shape A)) (to_dense A).
Proof.
  intros HA. unfold vto_dense, dense_sum0, to_dense. cbn [vshape sum_axis0].
  apply map_ext_in. intros c Hc. apply in_seq in Hc.
  rewrite sum_axis0_get by (auto; lia).
  rewrite map_map. f_equal. apply map_ext. intros r.
  now rewrite nth_tabulated by lia.
Qed.

(** The blocked column sums of the all-ones array. *)
Lemma sum_axis0_ones (n m b0 b1 : nat) :
  0 < b0 -> 0 < b1 ->
  vto_dense (sum_axis0 (ones (n, m) (b0, b1))) = repeat (Z.of_nat n) m.
Proof.
  intros Hb0 Hb1. unfold vto_dense.
  change (vshape (sum_axis0 (ones (n, m) (b0, b1)))) with m.
  rewrite (map_ext_in _ (fun _ => Z.of_nat n)).
  - generalize 0. induction m as [|m IH]; intros s; cbn; [reflexivity|].
    now rewrite IH.
  - intros c Hc. apply in_seq in Hc.
    rewrite sum_axis0_get
      by (unfold ones; first [now apply well_tiled_of_fun | cbn; lia]).
    change (fst (shape (ones (n, m) (b0, b1)))) with n.
    rewrite (map_ext_in _ (fun _ => 1%Z)).
    + now rewrite zsum_const, length_seq.
    + intros r Hr. apply in_seq in Hr.
      unfold ones. now rewrite get_of_fun by (cbn [fst snd]; lia).
Qed.

Example sum_ones_2_2 :
  vto_dense (sum_axis0 (ones (6, 6) (2, 2))) = [6; 6; 6; 6; 6; 6]%Z.
Proof. reflexivity. Qed.

Example sum_ones_3_3 :
  vto_dense (sum_axis0 (ones (6, 6) (3, 3))) = [6; 6; 6; 6; 6; 6]%Z.
Proof. reflexivity. Qed.

Example sum_ones_6_6 :
  vto_dense (sum_axis0 (ones (6, 6) (6, 6))) = [6; 6; 6; 6; 6; 6]%Z.
Proof. reflexivity. Qed.

Example sum_ones_4_5 :
  vgrid (sum_axis0 (ones (6, 6) (4, 5))) = [[6; 6; 6; 6; 6]; [6]]%Z.
Proof. reflexivity. Qed.

Section OnTheEngine.

Variables App ndarray dtype kwargs : Type.
Variable get_block_shape : list Z -> dtype -> list Z.
Variable other :
  forall A : Type, Api.Call App BlockArray ndarray dtype kwargs A -> result A.

Local Abbreviation perform := (Backend.perform get_block_shape other).
Local Abbreviation Log := (list (Api.AnyCall App BlockArray ndarray dtype kwargs)).

Lemma geometry_positive (a b : Z) :
  (0 < a)%Z -> (0 < b)%Z ->
  Backend.geometry [a; b] = Some (Z.to_nat a, Z.to_nat b).
Proof.
  intros Ha Hb. unfold Backend.geometry.
  destruct (Z.ltb_spec 0 a), (Z.ltb_spec 0 b); try lia. reflexivity.
Qed.

(** C2: the sum over axis 0 of the all-ones array of shape (6, 6) is
    [6, 6, 6, 6, 6, 6] under every block shape, and is the dense column sum
    of the array. *)
Theorem sum_ones_block_invariant (b0 b1 : Z) (dt : dtype) (app : App)
        (log : Log) :
  other _ Api._instance = Ok app ->
  (0 < b0)%Z -> (0 < b1)%Z ->
  get_block_shape [6; 6]%Z dt = [b0; b1] ->
  exists V,
    Api.bind (Api.ones perform [6; 6]%Z dt)
             (fun a => Api.sum perform a (Some 0%Z) None None false false false)
             log
    = (Ok (Vec V),
       log ++ [Api.any Api._instance;
               Api.any (Api.app_get_block_shape app [6; 6]%Z dt);
               Api.any (Api.app_ones app [6; 6]%Z [b0; b1] dt);
               Api.any Api._instance;
               Api.any (Api.app_sum
                          app
                          (Mat (ones (6, 6) (Z.to_nat b0, Z.to_nat b1)))
                          (Some 0%Z) false None)])
    /\ vto_dense V = [6; 6; 6; 6; 6; 6]%Z
    /\ vto_dense V
       = dense_sum0 6 (to_dense (ones (6, 6) (Z.to_nat b0, Z.to_nat b1))).
Proof.
  intros Happ Hb0 Hb1 Hgbs.
  exists (sum_axis0 (ones (6, 6) (Z.to_nat b0, Z.to_nat b1))).
  split; [|split].
  - unfold Api.ones, Api.sum, Api.bind, Api.call.
    cbn [Backend.perform]. rewrite Happ, Hgbs. unfold Backend.construct.
    rewrite !geometry_positive by lia.
    change (Z.to_nat 6) with 6.
    repeat rewrite <- app_assoc. reflexivity.
  - apply (sum_axis0_ones 6 6); lia.
  - apply (sum_axis0_dense (ones (6, 6) (Z.to_nat b0, Z.to_nat b1))).
    apply well_tiled_of_fun; cbn [fst snd]; lia.
Qed.

End OnTheEngine.

End EngineFacts.

(** ** The float64 engine *)

Module Engine64Facts.

Import Engine64.

(** *** Binary64 arithmetic *)

(** A canonical mantissa needs no shift. *)
Lemma shr_fexp_canonical (m : positive) (e : Z) :
  canonical_mantissa prec emax m e = true ->
  shr_fexp prec emax (Zpos m) e loc_Exact
  = ({| shr_m := Zpos m; shr_r := false; shr_s := false |}, e).
Proof.
  unfold canonical_mantissa, shr_fexp. intros H. apply Z.eqb_eq in H.
  cbn [Zdigits2 shr_record_of_loc]. rewrite H, Z.sub_diag. reflexivity.
Qed.

(** [1.0 * x] is [x], bit for bit. *)
Lemma fmul_one (x : spec_float) :
  valid_binary prec emax x = true -> fmul one x = x.
Proof.
  destruct x as [s|s| |s m e]; try reflexivity.
  cbn [valid_binary]. unfold bounded. intros H.
  apply andb_prop in H as [Hcanon Hmax].
  unfold fmul, one, SFmul. cbn [xorb].
  unfold binary_round_aux.
  assert (Hfirst :
            shr_fexp prec emax
                     (Zpos (Pos.mul 4503599627370496 m)) (-52 + e) loc_Exact
            = ({| shr_m := Zpos m; shr_r := false; shr_s := false |}, e)).
  { unfold shr_fexp. cbn [Pos.mul Zdigits2 digits2_pos shr_record_of_loc].
    unfold canonical_mantissa in Hcanon. apply Z.eqb_eq in Hcanon.
    rewrite !Pos2Z.inj_succ.
    replace (fexp prec emax _ - (-52 + e))%Z with 52%Z.
    - unfold shr. apply f_equal2; [reflexivity|lia].
    - match goal with
      | |- context [fexp prec emax ?a] =>
        replace a with (Zpos (digits2_pos m) + e)%Z by lia
      end.
      rewrite Hcanon. lia. }
  rewrite Hfirst. cbn [shr_m loc_of_shr_record round_nearest_even].
  rewrite (shr_fexp_canonical m e Hcanon). cbn [shr_m].
  now rewrite Hmax.
Qed.

Lemma is_finite_valid (x : spec_float) :
  is_finite x = true -> valid_binary prec emax x = true.
Proof. destruct x; cbn; auto. Qed.

(** [+0.0 * x] is a zero when [x] is finite. *)
Lemma fmul_zero (x : spec_float) :
  is_finite x = true -> is_zero (fmul pzero x) = true.
Proof. destruct x; cbn; auto. Qed.

Lemma fadd_pzero_zero (z : spec_float) :
  is_zero z = true -> fadd pzero z = pzero.
Proof. destruct z as [[|]| | |]; cbn; auto; discriminate. Qed.

Lemma fadd_pzero (x : spec_float) :
  is_finite x = true -> fadd pzero x = unsigned_zero x.
Proof. destruct x as [[|]| | |]; cbn; auto; discriminate. Qed.

Lemma fadd_zero_r (x z : spec_float) :
  is_finite x = true -> is_zero z = true ->
  fadd (unsigned_zero x) z = unsigned_zero x.
Proof.
  destruct x as [[|]| | |], z as [[|]| | |]; cbn; auto; discriminate.
Qed.

Lemma unsigned_zero_twice (x : spec_float) :
  unsigned_zero (unsigned_zero x) = unsigned_zero x.
Proof. now destruct x. Qed.

Lemma is_finite_unsigned_zero (x : spec_float) :
  is_finite x = true -> is_finite (unsigned_zero x) = true.
Proof. now destruct x. Qed.

(** A finite value equals itself, and itself without the sign of a zero. *)
Lemma feqb_unsigned_zero (x : spec_float) :
  is_finite x = true -> feqb (unsigned_zero x) x = true.
Proof.
  destruct x as [[|]| | |[|] m e]; cbn; auto; try discriminate; intros _;
    unfold feqb, SFeqb, SFcompare; rewrite Z.compare_refl, Pos.compare_cont_refl;
    reflexivity.
Qed.

(** *** Sums with at most one term that is not a zero *)

Lemma fold_fadd_zeros (l : list spec_float) (y : spec_float) :
  is_finite y = true ->
  Forall (fun z => is_zero z = true) l ->
  fold_left fadd l (unsigned_zero y) = unsigned_zero y.
Proof.
  intros Hy Hall. induction Hall as [|z l Hz _ IH]; [reflexivity|].
  cbn [fold_left]. now rewrite fadd_zero_r.
Qed.

Lemma fsum_one_hot (t : nat -> spec_float) (n k0 : nat) :
  k0 < n ->
  is_finite (t k0) = true ->
  (forall k, k < n -> k <> k0 -> is_zero (t k) = true) ->
  fsum (map t (seq 0 n)) = unsigned_zero (t k0).
Proof.
  intros Hk0 Hfin Hzero. unfold fsum.
  replace n with (k0 + S (n - S k0)) by lia.
  rewrite seq_app, map_app, fold_left_app. cbn [seq map fold_left Nat.add].
  change pzero with (unsigned_zero pzero) at 1.
  rewrite fold_fadd_zeros; [|reflexivity|].
  - cbn [unsigned_zero is_zero pzero]. fold pzero.
    rewrite fadd_pzero by exact Hfin.
    apply fold_fadd_zeros; [exact Hfin|].
    apply Forall_forall. intros z Hz.
    apply in_map_iff in Hz as (k & <- & Hk). apply in_seq in Hk.
    apply Hzero; lia.
  - apply Forall_forall. intros z Hz.
    apply in_map_iff in Hz as (k & <- & Hk). apply in_seq in Hk.
    apply Hzero; lia.
Qed.

Lemma fsum_zeros (t : nat -> spec_float) (n : nat) :
  (forall k, k < n -> is_zero (t k) = true) ->
  fsum (map t (seq 0 n)) = pzero.
Proof.
  intros Hzero. unfold fsum. change pzero with (unsigned_zero pzero).
  apply fold_fadd_zeros; [reflexivity|].
  apply Forall_forall. intros z Hz.
  apply in_map_iff in Hz as (k & <- & Hk). apply in_seq in Hk.
  apply Hzero; lia.
Qed.

Lemma fold_one_hot (g : nat -> spec_float) (K k0 : nat) (y : spec_float) :
  k0 < K ->
  is_finite y = true ->
  (forall k, k < K -> g k = if k =? k0 then unsigned_zero y else pzero) ->
  fold_left fadd (map g (seq 1 (K - 1))) (g 0) = unsigned_zero y.
Proof.
  intros Hk0 Hy Hg.
  assert (Hfin : forall k, k < K -> is_finite (g k) = true).
  { intros k Hk. rewrite (Hg k Hk).
    destruct (k =? k0); [now apply is_finite_unsigned_zero|reflexivity]. }
  assert (Hhead : fadd pzero (g 0) = g 0).
  { rewrite fadd_pzero by (apply Hfin; lia). rewrite (Hg 0) by lia.
    destruct (0 =? k0); [apply unsigned_zero_twice|reflexivity]. }
  rewrite <- Hhead.
  change (fold_left fadd (map g (seq 1 (K - 1))) (fadd pzero (g 0)))
    with (fsum (map g (seq 0 (S (K - 1))))).
  replace (S (K - 1)) with K by lia.
  rewrite (fsum_one_hot g K k0 Hk0 (Hfin k0 Hk0)).
  - rewrite (Hg k0 Hk0), Nat.eqb_refl. apply unsigned_zero_twice.
  - intros k Hk Hne. rewrite (Hg k Hk).
    destruct (Nat.eqb_spec k k0); [contradiction|reflexivity].
Qed.

(** The part of row [r] of the identity that lies in contraction block [k],
    against a finite column: the entry of the column at [r] when [r] lies in
    the block, and [+0.0] otherwise. *)
Lemma eye_row_product (n bk r k : nat) (h : nat -> spec_float) :
  0 < bk -> r < n ->
  (forall u, u < n -> is_finite (h u) = true) ->
  fsum (map (fun b => fmul (if r =? k * bk + b then one else pzero)
                           (h (k * bk + b)))
            (seq 0 (Engine.extent n bk k)))
  = if k =? r / bk then unsigned_zero (h r) else pzero.
Proof.
  intros Hbk Hr Hfin.
  assert (Hin : forall b, b < Engine.extent n bk k -> k * bk + b < n /\ b < bk).
  { unfold Engine.extent. intros b Hb. lia. }
  destruct (Nat.eqb_spec k (r / bk)) as [->|Hne].
  - pose proof (EngineFacts.block_offset n bk r Hbk Hr) as Hoff.
    assert (Hpos : r / bk * bk + r mod bk = r)
      by (pose proof (Nat.div_mod_eq r bk); lia).
    rewrite (fsum_one_hot _ _ (r mod bk) Hoff); cbn beta.
    + rewrite Hpos, Nat.eqb_refl.
      rewrite fmul_one by (apply is_finite_valid, Hfin, Hr). reflexivity.
    + rewrite Hpos, Nat.eqb_refl.
      rewrite fmul_one by (apply is_finite_valid, Hfin, Hr). now apply Hfin.
    + intros b Hb Hneq.
      destruct (Nat.eqb_spec r (r / bk * bk + b)) as [Heq|_]; [lia|].
      apply fmul_zero, Hfin, Hin, Hb.
  - apply fsum_zeros. intros b Hb. destruct (Hin b Hb) as [Hu Hb'].
    destruct (Nat.eqb_spec r (k * bk + b)) as [Heq|_].
    + exfalso. apply Hne. rewrite Heq. symmetry. now apply EngineFacts.div_block.
    + now apply fmul_zero, Hfin.
Qed.

(** *** Blocks *)

Lemma entry_tabulate64 (p t : nat) (f : nat -> nat -> spec_float) (a c : nat) :
  a < p -> c < t -> entry (tabulate p t f) a c = f a c.
Proof.
  intros Ha Hc. unfold entry, tabulate. cbn.
  rewrite EngineFacts.nth_tabulated by exact Ha.
  now rewrite EngineFacts.nth_tabulated by exact Hc.
Qed.

Lemma block_at_build64 shp blk block (i j : nat) :
  i < Engine.num_blocks (fst shp) (fst blk) ->
  j < Engine.num_blocks (snd shp) (snd blk) ->
  block_at (build shp blk block) i j = block i j.
Proof.
  intros Hi Hj. unfold block_at, build. cbn.
  rewrite EngineFacts.nth_tabulated by exact Hi.
  now rewrite EngineFacts.nth_tabulated by exact Hj.
Qed.

Lemma well_tiled_spec64 (A : Matrix) :
  well_tiled A = true ->
  0 < fst (block_shape A)
  /\ 0 < snd (block_shape A)
  /\ forall i j,
      i < Engine.num_blocks (fst (shape A)) (fst (block_shape A)) ->
      j < Engine.num_blocks (snd (shape A)) (snd (block_shape A)) ->
      local_shape (block_at A i j)
      = (Engine.extent (fst (shape A)) (fst (block_shape A)) i,
         Engine.extent (snd (shape A)) (snd (block_shape A)) j).
Proof.
  unfold well_tiled. destruct (shape A) as [n m], (block_shape A) as [b0 b1].
  cbn [fst snd]. rewrite !andb_true_iff, !Nat.ltb_lt, forallb_forall.
  intros [[[Hb0 Hb1] _] Hall]. repeat split; auto.
  intros i j Hi Hj.
  specialize (Hall i). rewrite in_seq, andb_true_iff, forallb_forall in Hall.
  destruct Hall as [_ Hall]; [lia|].
  specialize (Hall j). rewrite in_seq in Hall. unfold block_ok in Hall.
  rewrite !andb_true_iff, !Nat.eqb_eq in Hall.
  destruct Hall as [[[H0 H1] _] _]; [lia|].
  destruct (local_shape (block_at A i j)); cbn in *. congruence.
Qed.

Lemma get_block64 (A : Matrix) (i j a c : nat) :
  a < fst (block_shape A) ->
  c < snd (block_shape A) ->
  get A (i * fst (block_shape A) + a) (j * snd (block_shape A) + c)
  = entry (block_at A i j) a c.
Proof.
  unfold get. destruct (block_shape A) as [b0 b1]. cbn [fst snd]. intros Ha Hc.
  now rewrite !EngineFacts.div_block, !EngineFacts.mod_block by assumption.
Qed.

Lemma get_of_fun64 shp blk f (r c : nat) :
  0 < fst blk -> 0 < snd blk -> r < fst shp -> c < snd shp ->
  get (of_fun shp blk f) r c = f r c.
Proof.
  destruct shp as [n m], blk as [b0 b1]. cbn [fst snd]. intros Hb0 Hb1 Hr Hc.
  unfold get, of_fun. cbn [block_shape build].
  rewrite block_at_build64 by (cbn [fst snd]; now apply EngineFacts.block_index).
  cbn [fst snd].
  rewrite entry_tabulate64 by now apply EngineFacts.block_offset.
  f_equal.
  - pose proof (Nat.div_mod_eq r b0). lia.
  - pose proof (Nat.div_mod_eq c b1). lia.
Qed.

(** *** Combining partial products *)

Lemma entry_block_add64 (X Y : Block) (p t a c : nat) :
  local_shape X = (p, t) -> a < p -> c < t ->
  local_shape (block_add X Y) = (p, t)
  /\ entry (block_add X Y) a c = fadd (entry X a c) (entry Y a c).
Proof.
  intros HX Ha Hc. unfold block_add. rewrite HX. cbn [fst snd]. split.
  - reflexivity.
  - now rewrite entry_tabulate64.
Qed.

Lemma entry_fold_block_add64 (partials : list Block) (X : Block) (p t a c : nat) :
  local_shape X = (p, t) -> a < p -> c < t ->
  entry (fold_left block_add partials X) a c
  = fold_left fadd (map (fun B => entry B a c) partials) (entry X a c).
Proof.
  revert X. induction partials as [|Y partials IH]; intros X HX Ha Hc.
  - reflexivity.
  - cbn [fold_left map].
    destruct (entry_block_add64 X Y p t a c HX Ha Hc) as [Hshape Hentry].
    now rewrite (IH _ Hshape Ha Hc), Hentry.
Qed.

Lemma entry_combine_ascending64 (F : nat -> Block) (K p t a c : nat) :
  0 < K -> local_shape (F 0) = (p, t) -> a < p -> c < t ->
  entry (Engine.combine_ascending block_add (tabulate 0 0 (fun _ _ => pzero))
                                  (map F (seq 0 K))) a c
  = fold_left fadd (map (fun k => entry (F k) a c) (seq 1 (K - 1)))
              (entry (F 0) a c).
Proof.
  intros HK HF Ha Hc. destruct K as [|K]; [lia|].
  cbn [seq map Engine.combine_ascending].
  rewrite (entry_fold_block_add64 _ _ p t a c HF Ha Hc), map_map.
  now replace (S K - 1) with K by lia.
Qed.

Lemma entry_block_matmul64 (X Y : Block) (p q t a c : nat) :
  local_shape X = (p, q) -> snd (local_shape Y) = t -> a < p -> c < t ->
  local_shape (block_matmul X Y) = (p, t)
  /\ entry (block_matmul X Y) a c
     = fsum (map (fun u => fmul (entry X a u) (entry Y u c)) (seq 0 q)).
Proof.
  intros HX HY Ha Hc. unfold block_matmul. rewrite HX, HY. cbn [fst snd]. split.
  - reflexivity.
  - now rewrite entry_tabulate64.
Qed.

(** *** The blocked product with the identity *)

(** Against a finite operand, the blocked product with the identity has the
    entries of the operand, a negative zero apart. *)
Lemma matmul_eye64 (n a0 bk : nat) (X : Matrix) :
  0 < a0 -> 0 < bk ->
  well_tiled X = true ->
  fst (shape X) = n ->
  fst (block_shape X) = bk ->
  (forall r c, r < fst (shape X) -> c < snd (shape X) ->
               is_finite (get X r c) = true) ->
  exists R,
    matmul (eye (n, n) (a0, bk)) X = Ok R
    /\ shape R = shape X
    /\ block_shape R = (a0, snd (block_shape X))
    /\ forall r c, r < fst (shape X) -> c < snd (shape X) ->
                   get R r c = unsigned_zero (get X r c).
Proof.
  intros Ha0 Hbk HX Hn Hb Hfin.
  destruct (well_tiled_spec64 X HX) as (_ & Hb1 & HlsX).
  set (m := snd (shape X)) in *. set (b1 := snd (block_shape X)) in *.
  rewrite Hn, Hb in HlsX.
  unfold matmul. change (snd (shape (eye (n, n) (a0, bk)))) with n.
  change (snd (block_shape (eye (n, n) (a0, bk)))) with bk.
  change (fst (shape (eye (n, n) (a0, bk)))) with n.
  change (fst (block_shape (eye (n, n) (a0, bk)))) with a0.
  rewrite Hn, Hb, !Nat.eqb_refl. cbn [negb].
  eexists. split; [reflexivity|].
  split; [cbn [shape build]; rewrite <- Hn; now destruct (shape X)|].
  split; [reflexivity|].
  intros r c Hr Hc.
  pose proof (EngineFacts.block_offset n a0 r Ha0 Hr) as Hoff_r.
  pose proof (EngineFacts.block_offset m b1 c Hb1 Hc) as Hoff_c.
  pose proof (EngineFacts.block_index n a0 r Ha0 Hr) as Hidx_r.
  pose proof (EngineFacts.block_index m b1 c Hb1 Hc) as Hidx_c.
  pose proof (EngineFacts.block_index n bk r Hbk Hr) as Hidx_k.
  assert (Hrow : r / a0 * a0 + r mod a0 = r)
    by (pose proof (Nat.div_mod_eq r a0); lia).
  assert (Hcol : c / b1 * b1 + c mod b1 = c)
    by (pose proof (Nat.div_mod_eq c b1); lia).
  set (K := Engine.num_blocks n bk) in *.
  set (P := fun k => block_matmul (block_at (eye (n, n) (a0, bk)) (r / a0) k)
                                  (block_at X k (c / b1))).
  assert (HlsI : forall k,
             k < K ->
             block_at (eye (n, n) (a0, bk)) (r / a0) k
             = tabulate (Engine.extent n a0 (r / a0)) (Engine.extent n bk k)
                        (fun a u => if r / a0 * a0 + a =? k * bk + u
                                    then one else pzero)).
  { intros k Hk. unfold eye, of_fun. now rewrite block_at_build64. }
  assert (HP : forall k,
             k < K ->
             local_shape (P k)
             = (Engine.extent n a0 (r / a0), Engine.extent m b1 (c / b1))
             /\ entry (P k) (r mod a0) (c mod b1)
                = if k =? r / bk then unsigned_zero (get X r c) else pzero).
  { intros k Hk. unfold P.
    destruct (entry_block_matmul64
                (block_at (eye (n, n) (a0, bk)) (r / a0) k)
                (block_at X k (c / b1))
                (Engine.extent n a0 (r / a0)) (Engine.extent n bk k)
                (Engine.extent m b1 (c / b1)) (r mod a0) (c mod b1))
      as [Hshape Hentry]; auto.
    - now rewrite HlsI.
    - now rewrite HlsX.
    - split; [exact Hshape|]. rewrite Hentry.
      rewrite <- (eye_row_product n bk r k (fun u => get X u c) Hbk Hr)
        by (intros u Hu; apply Hfin; [now rewrite Hn|exact Hc]).
      f_equal. apply map_ext_in. intros u Hu. apply in_seq in Hu.
      pose proof (EngineFacts.extent_le n bk k).
      pose proof (EngineFacts.extent_le m b1 (c / b1)).
      rewrite HlsI by exact Hk. rewrite entry_tabulate64 by lia.
      rewrite Hrow. f_equal.
      pose proof (get_block64 X k (c / b1) u (c mod b1)) as Hg.
      rewrite Hb in Hg. fold b1 in Hg. rewrite Hcol in Hg.
      symmetry. apply Hg; lia. }
  unfold get at 1. cbn [block_shape build].
  rewrite block_at_build64 by (cbn [fst snd]; assumption).
  cbn [fst snd]. fold K. fold b1.
  change (map (fun k => block_matmul (block_at (eye (n, n) (a0, bk)) (r / a0) k)
                                     (block_at X k (c / b1))) (seq 0 K))
    with (map P (seq 0 K)).
  assert (HK : 0 < K) by lia.
  rewrite (entry_combine_ascending64 P K _ _ _ _ HK (proj1 (HP 0 HK)) Hoff_r Hoff_c).
  apply (fold_one_hot (fun k => entry (P k) (r mod a0) (c mod b1)) K (r / bk)).
  - exact Hidx_k.
  - apply Hfin; [now rewrite Hn|exact Hc].
  - intros k Hk. now apply HP.
Qed.

Lemma all_finite_spec (A : Matrix) :
  all_finite A = true ->
  forall r c, r < fst (shape A) -> c < snd (shape A) ->
              is_finite (get A r c) = true.
Proof.
  unfold all_finite, to_dense. rewrite forallb_forall. intros Hall r c Hr Hc.
  specialize (Hall (map (get A r) (seq 0 (snd (shape A))))).
  rewrite forallb_forall in Hall. apply Hall.
  - apply in_map_iff. exists r. split; [reflexivity|]. apply in_seq. lia.
  - apply in_map_iff. exists c. split; [reflexivity|]. apply in_seq. lia.
Qed.

(** The product under two block shapes of the identity and of the other
    operand. *)
Example matmul_eye_4_by_2 :
  match matmul (eye (4, 4) (3, 2)) Samples64.X43 with
  | Ok R => to_dense R
  | Raise _ => []
  end
  = to_dense Samples64.X43.
Proof. vm_compute. reflexivity. Qed.

Example matmul_eye_4_by_3 :
  match matmul (eye (4, 4) (4, 3))
               (of_fun (4, 3) (3, 1) (fun r c => of_Z (Z.of_nat (10 * r + c)))) with
  | Ok R => to_dense R
  | Raise _ => []
  end
  = to_dense Samples64.X43.
Proof. vm_compute. reflexivity. Qed.

Example matmul_block_mismatch :
  matmul (eye (4, 4) (2, 3)) Samples64.X43
  = Raise (ValueError "matmul: block shapes differ along the contracted axis").
Proof. reflexivity. Qed.

(** An infinite entry makes the product with the identity a NaN in the
    other rows of its column: [0.0 * inf] is a NaN.  Here the operand is the
    column [1.0, inf]. *)
Example matmul_eye_infinity :
  match matmul (eye (2, 2) (2, 2)) Samples64.X21 with
  | Ok R => to_dense R
  | Raise _ => []
  end
  = [[S754_nan]; [S754_infinity false]].
Proof. vm_compute. reflexivity. Qed.

Section OnTheEngine.

Variables App ndarray dtype kwargs : Type.
Variable is_float64 : dtype -> bool.
Variable get_block_shape : list Z -> dtype -> list Z.
Variable other :
  forall A : Type, Api.Call App Matrix ndarray dtype kwargs A -> result A.

Local Abbreviation perform := (Backend64.perform is_float64 get_block_shape other).
Local Abbreviation Log := (list (Api.AnyCall App Matrix ndarray dtype kwargs)).

(** C1: [matmul(identity(n), X)] on the float64 engine.  Whatever block
    shape the application picks for the identity, and for every tiled [X]
    of [n] rows with finite entries whose row blocks are those of the
    identity's columns, the product is computed, has the shape of [X], and
    each of its entries is the entry of [X], a negative zero having become
    a positive one: the two compare equal. *)
Theorem matmul_identity (n a0 bk : Z) (dt : dtype) (X : Matrix) (app : App)
        (log : Log) :
  other _ Api._instance = Ok app ->
  is_float64 dt = true ->
  (0 < n)%Z -> (0 < a0)%Z -> (0 < bk)%Z ->
  get_block_shape [n; n] dt = [a0; bk] ->
  well_tiled X = true ->
  fst (shape X) = Z.to_nat n ->
  fst (block_shape X) = Z.to_nat bk ->
  all_finite X = true ->
  exists R,
    Api.bind (Api.identity perform n dt)
             (fun I => Api.matmul perform I X) log
    = (Ok R,
       log ++ [Api.any Api._instance;
               Api.any (Api.app_get_block_shape app [n; n] dt);
               Api.any (Api.app_eye app [n; n] [a0; bk] dt);
               Api.any Api._instance;
               Api.any (Api.app_matmul
                          app
                          (eye (Z.to_nat n, Z.to_nat n)
                               (Z.to_nat a0, Z.to_nat bk))
                          X)])
    /\ shape R = shape X
    /\ (forall r c, r < fst (shape X) -> c < snd (shape X) ->
                    get R r c = unsigned_zero (get X r c)
                    /\ feqb (get R r c) (get X r c) = true).
Proof.
  intros Happ Hdt Hn Ha0 Hbk Hgbs HX Hrows Hblk Hfin.
  pose proof (all_finite_spec X Hfin) as Hentries.
  destruct (matmul_eye64 (Z.to_nat n) (Z.to_nat a0) (Z.to_nat bk) X)
    as (R & HR & Hshape & _ & Hget); auto; try lia.
  exists R. split; [|split; [exact Hshape|]].
  - unfold Api.identity, Api.eye, Api.matmul, Api.bind, Api.call.
    cbn [Backend64.perform]. rewrite Happ. cbn [Z.eqb negb].
    rewrite Hgbs, Hdt. unfold Backend64.construct.
    rewrite !EngineFacts.geometry_positive by assumption.
    rewrite HR. repeat rewrite <- app_assoc. reflexivity.
  - intros r c Hr Hc. rewrite (Hget r c Hr Hc). split; [reflexivity|].
    apply feqb_unsigned_zero. now apply Hentries.
Qed.

End OnTheEngine.

End Engine64Facts.

(** ** The properties at concrete inputs *)

Module Witnesses.

Import Samples Samples64.

Lemma singleton_lifecycle_witness :
  ApplicationManager.reachable returning running
  /\ ApplicationManager.settings_ok serial_settings = true
  /\ ApplicationManager.hooks_return returning running
  /\ ApplicationManager.is_initialized (ApplicationManager.destroy running) = false
  /\ (exists app st',
         ApplicationManager.instance returning serial_settings
                                     (ApplicationManager.destroy running)
         = (Ok app, st')
         /\ ApplicationManager._instance st' = Some app
         /\ ApplicationManager.app_id app = 1).
Proof.
  assert (Hreach : ApplicationManager.reachable returning running).
  { unfold running, registered. apply ApplicationManager.reach_instance.
    apply ApplicationManager.reach_call_on_create.
    apply ApplicationManager.reach_init. }
  assert (Hall : ApplicationManager.hooks_return returning running).
  { intros func _ app st'. reflexivity. }
  split; [exact Hreach|]. split; [reflexivity|]. split; [exact Hall|].
  destruct (@ManagerFacts.singleton_lifecycle nat returning serial_settings running)
    as (_ & _ & _ & Hoff & Hnext).
  destruct (Hnext Hreach eq_refl)
    as (app & r & st' & Hrun & Hinst & _ & _ & _ & Hret).
  rewrite (Hret Hall) in Hrun.
  split; [exact Hoff|].
  exists app, st'. split; [exact Hrun|]. split; [exact Hinst|].
  vm_compute in Hrun. injection Hrun as <- _. reflexivity.
Defined.



Lemma argmax_rank_guard_witness :
  1 < List.length (fst (([4; 4], [2; 2])%Z : Geometry))
  /\ Api.argmax fst answer ([4; 4], [2; 2])%Z None None []
     = (Raise (NotImplementedError
                 "argmax currently only supports one-dimensional arrays."),
        [])
  /\ Api.argmin answer ([4; 4], [2; 2])%Z None None []
     = (Raise (NotImplementedError "not part of this instance"),
        [Api.any Api._instance;
         Api.any (Api.app_argop tt "argmin" ([4; 4], [2; 2])%Z None)]).
Proof.
  destruct (@ApiFacts.argmax_rank_guard
              unit Geometry (list Z) unit unit fst answer
              ([4; 4], [2; 2])%Z None None [])
    as [Hmax Hmin].
  split; [cbn; lia|]. split.
  - apply Hmax. cbn. lia.
  - apply (Hmin tt). reflexivity.
Defined.

Lemma loadtxt_fallback_witness :
  is_Exception (Exception "no workers") = true
  /\ Api.loadtxt fst (fun a : list Z => a) answer "data.txt" tt tt []
     = (Ok ([3; 2]%Z, [3; 2]%Z),
        [Api.any Api._instance;
         Api.any (Api.get_num_cores tt);
         Api.any (Api.app_loadtxt tt "data.txt" tt tt 4%Z);
         Api.any (Api.warnings_warn
                    "Failed to load text data in parallel; using np.loadtxt locally.");
         Api.any (Api.np_loadtxt "data.txt" tt tt);
         Api.any (Api.app_compute_block_shape tt [3; 2]%Z tt);
         Api.any (Api.app_array tt [3; 2]%Z [3; 2]%Z)]).
Proof.
  split; [reflexivity|].
  apply (@ApiFacts.loadtxt_fallback
           unit Geometry (list Z) unit unit
           fst (fun a : list Z => a) answer "data.txt" tt tt
           tt 4%Z (Exception "no workers") [3; 2]%Z [3; 2]%Z
           ([3; 2], [3; 2])%Z []);
    reflexivity.
Defined.

Lemma concatenate_mode_witness :
  let arrays : list Geometry :=
      [([4; 4], [2; 2]); ([4; 4], [3; 2]); ([4; 4], [2; 2])]%Z in
  arrays <> []
  /\ Forall2 (fun arr size => py_getitem (snd arr) 0 = Ok size) arrays [2; 3; 2]%Z
  /\ exists axis_block_size,
      In axis_block_size [2; 3; 2]%Z
      /\ (forall v, occurrences [2; 3; 2]%Z v
                    <= occurrences [2; 3; 2]%Z axis_block_size)
      /\ Api.concatenate snd answer arrays 0 None []
         = (answer (Api.app_concatenate tt arrays 0 axis_block_size),
            [Api.any Api._instance;
             Api.any (Api.app_concatenate tt arrays 0 axis_block_size)]).
Proof.
  intros arrays.
  assert (Hne : arrays <> []) by discriminate.
  assert (Hsizes : Forall2 (fun arr size => py_getitem (snd arr) 0 = Ok size)
                           arrays [2; 3; 2]%Z)
    by (repeat constructor).
  split; [exact Hne|]. split; [exact Hsizes|].
  destruct (@ApiFacts.concatenate_mode
              unit Geometry (list Z) unit unit snd answer
              arrays 0%Z [2; 3; 2]%Z tt [] Hne Hsizes eq_refl)
    as (m & Hin & Hmax & _ & Hrun).
  exists m. split; [exact Hin|]. split; [exact Hmax|]. exact Hrun.
Defined.

Lemma split_sections_witness :
  (0 < 3)%Z
  /\ py_index 2 0 = Some 0
  /\ py_getitem [6; 4]%Z 0 = Ok 6%Z
  /\ Api.split fst answer (([6; 4], [2; 2])%Z : Geometry) (Api.Sections 3) 0 []
     = (Ok [([2; 4], [2; 2]); ([2; 4], [2; 2]); ([2; 4], [2; 2])]%Z,
        map (fun i => Api.any
                        (Api.ba_getitem (([6; 4], [2; 2])%Z : Geometry)
                                        (Api.section_slices [6; 4]%Z 0 2 (Z.of_nat i))))
            [0; 1; 2]).
Proof.
  split; [lia|]. split; [reflexivity|]. split; [reflexivity|].
  destruct (@ApiFacts.split_sections
              unit Geometry (list Z) unit unit fst answer
              ([6; 4], [2; 2])%Z 3%Z 0%Z 6%Z 0 []
              ltac:(lia) eq_refl eq_refl)
    as [_ Hsplit].
  apply (Hsplit ltac:(lia) eq_refl
                [([2; 4], [2; 2]); ([2; 4], [2; 2]); ([2; 4], [2; 2])]%Z eq_refl).
Defined.

Lemma cyclic_balanced_witness :
  NoDup (Grid.devices grid_2_3)
  /\ In 10 (Grid.devices grid_2_3)
  /\ In 13 (Grid.devices grid_2_3)
  /\ Grid.load Nat.eq_dec grid_2_3 10 <= Grid.load Nat.eq_dec grid_2_3 13 + 1
  /\ Grid.load Nat.eq_dec grid_2_3 13 <= Grid.load Nat.eq_dec grid_2_3 10 + 1.
Proof.
  assert (Hnd : NoDup (Grid.devices grid_2_3)).
  { cbn. repeat constructor; cbn; intuition discriminate. }
  assert (H1 : In 10 (Grid.devices grid_2_3)) by (cbn; tauto).
  assert (H2 : In 13 (Grid.devices grid_2_3)) by (cbn; tauto).
  split; [exact Hnd|]. split; [exact H1|]. split; [exact H2|].
  apply (GridFacts.cyclic_balanced Nat.eq_dec grid_2_3 10 13 Hnd H1 H2).
Defined.

Lemma matmul_identity_witness :
  Engine64.well_tiled X43 = true
  /\ Engine64.all_finite X43 = true
  /\ fst (Engine64.shape X43) = Z.to_nat 4
  /\ fst (Engine64.block_shape X43) = Z.to_nat 2
  /\ exists R,
      fst (Api.bind
             (Api.identity
                (Backend64.perform is_float64 (fun _ _ => [3; 2]%Z) engine64_other)
                4 "float"%string)
             (fun I => Api.matmul
                         (Backend64.perform is_float64 (fun _ _ => [3; 2]%Z)
                                            engine64_other)
                         I X43)
             [])
      = Ok R
      /\ Engine64.shape R = (4, 3)
      /\ Engine64.get R 0 0 = Engine64.pzero
      /\ Engine64.feqb (Engine64.get R 3 2) (Engine64.of_Z 32) = true.
Proof.
  split; [reflexivity|]. split; [reflexivity|].
  split; [reflexivity|]. split; [reflexivity|].
  destruct (Engine64Facts.matmul_identity
              unit (list Z) string unit is_float64 (fun _ _ => [3; 2]%Z)
              engine64_other
              4 3 2 "float"%string X43 tt [] eq_refl eq_refl
              ltac:(lia) ltac:(lia) ltac:(lia) eq_refl eq_refl eq_refl eq_refl
              eq_refl)
    as (R & Hrun & Hshape & Hget).
  exists R. split; [now rewrite Hrun|]. split; [exact Hshape|]. split.
  - apply (Hget 0 0); cbn; lia.
  - apply (Hget 3 2); cbn; lia.
Defined.

(** The product of the identity of order 2 with the float64 column
    [1.0, inf]: its first entry is a NaN, which equals nothing, and not the
    [1.0] of the column. *)
Lemma matmul_identity_counterexample :
  Engine64.well_tiled X21 = true
  /\ fst (Engine64.shape X21) = 2
  /\ exists R,
      fst (Api.bind
             (Api.identity
                (Backend64.perform is_float64 (fun shp _ => shp) engine64_other)
                2 "float"%string)
             (fun I => Api.matmul
                         (Backend64.perform is_float64 (fun shp _ => shp)
                                            engine64_other)
                         I X21)
             [])
      = Ok R
      /\ Engine64.shape R = Engine64.shape X21
      /\ Engine64.get X21 0 0 = Engine64.one
      /\ Engine64.get R 0 0 = S754_nan
      /\ Engine64.feqb (Engine64.get R 0 0) (Engine64.get X21 0 0) = false.
Proof.
  split; [reflexivity|]. split; [reflexivity|].
  eexists. split; [vm_compute; reflexivity|].
  repeat split.
Qed.
Lemma sum_ones_block_invariant_witness :
  (0 < 2)%Z
  /\ exists V,
      fst (Api.bind
             (Api.ones (Backend.perform (fun _ _ => [2; 2]%Z) engine_other)
                       [6; 6]%Z tt)
             (fun a => Api.sum (Backend.perform (fun _ _ => [2; 2]%Z) engine_other)
                               a (Some 0%Z) None None false false false)
             [])
      = Ok (Engine.Vec V)
      /\ Engine.vto_dense V = [6; 6; 6; 6; 6; 6]%Z.
Proof.
  split; [lia|].
  destruct (EngineFacts.sum_ones_block_invariant
              unit (list Z) unit unit (fun _ _ => [2; 2]%Z) engine_other
              2 2 tt tt [] eq_refl ltac:(lia) ltac:(lia) eq_refl)
    as (V & Hrun & Hdense & _).
  exists V. split.
  - now rewrite Hrun.
  - exact Hdense.
Defined.

End Witnesses.

(** ** More on the application manager *)

Module ManagerMore.

Import ApplicationManager Views.

Section Facts.

Variable Hook : Type.
Variable hook_result : Hook -> ArrayApplication -> State Hook -> result unit.

Implicit Types (st : State Hook) (settings : Settings) (func : Hook).

Lemma hooks_fired_app (tr1 tr2 : list (Event Hook)) :
  hooks_fired (tr1 ++ tr2) = hooks_fired tr1 ++ hooks_fired tr2.
Proof.
  induction tr1 as [|ev tr1 IH]; [reflexivity|].
  destruct ev; cbn; rewrite IH; reflexivity.
Qed.

Lemma hooks_fired_map (app : ArrayApplication) (hooks : list Hook) :
  hooks_fired (map (fun f => EvHook f app) hooks) = hooks.
Proof. induction hooks as [|f hooks IH]; cbn; [|rewrite IH]; reflexivity. Qed.

Lemma handlers_added_app (tr1 tr2 : list (Event Hook)) :
  handlers_added (tr1 ++ tr2) = handlers_added tr1 + handlers_added tr2.
Proof.
  induction tr1 as [|ev tr1 IH]; [reflexivity|].
  destruct ev; cbn; rewrite IH; reflexivity.
Qed.

Lemma handlers_added_hooks (app : ArrayApplication) (hooks : list Hook) :
  handlers_added (map (fun f => EvHook f app) hooks) = 0.
Proof. induction hooks as [|f hooks IH]; cbn; auto. Qed.

Lemma quiet_hooks (app : ArrayApplication) (hooks : list Hook) :
  forallb (@quiet Hook) (map (fun f => EvHook f app) hooks) = true.
Proof. induction hooks as [|f hooks IH]; cbn; auto. Qed.

(** What [create] appends to the trace: the logging event first, then, as
    far as it gets, the initialisation of the system and the creation of
    the compute manager; never a hook, never a shutdown. *)
Lemma create_trace settings st r st1 :
  create settings st = (r, st1) ->
  exists tail,
    trace st1 = trace st ++ EvConfigureLogging :: tail
    /\ hooks_fired tail = []
    /\ handlers_added tail = 0
    /\ forall app, r = Ok app ->
                   tail = [EvSystemInit Hook (system (cm app));
                           EvComputeManagerCreate Hook (cm app)]
                   /\ grid_system (device_grid (cm app)) = system (cm app).
Proof.
  unfold create. cbn.
  destruct (_instance st) eqn:Hi.
  { intros [= <- <-]. exists []. cbn. repeat split; auto; discriminate. }
  destruct (select_system settings) as [s|e] eqn:Hs; cbn.
  2:{ intros [= <- <-]. exists []. cbn. repeat split; auto; discriminate. }
  destruct (select_compute_module settings) as [m|e] eqn:Hm; cbn.
  2:{ intros [= <- <-]. exists [EvSystemInit Hook s]. cbn.
      rewrite <- app_assoc. repeat split; auto; discriminate. }
  destruct (select_device_grid settings s) as [g|e] eqn:Hg; cbn.
  2:{ intros [= <- <-]. exists [EvSystemInit Hook s]. cbn.
      rewrite <- app_assoc. repeat split; auto; discriminate. }
  intros [= <- <-].
  exists [EvSystemInit Hook s;
          EvComputeManagerCreate Hook
            {| system := s; compute_module := m; device_grid := g |}].
  cbn. rewrite <- !app_assoc.
  split; [reflexivity|]. split; [reflexivity|]. split; [reflexivity|].
  intros app [= <-]. cbn. split; [reflexivity|].
  unfold select_device_grid in Hg.
  destruct (String.eqb (device_grid_name settings) "cyclic");
    [|destruct (String.eqb (device_grid_name settings) "packed")];
    injection Hg as <- || discriminate; reflexivity.
Qed.

(** X1: [create] never assigns [_instance].  Under supported settings and
    without an instance it builds a new application, yet the module is still
    not initialized afterwards: only [instance] registers what [create]
    builds. *)
Theorem create_registers_nothing settings st :
  _instance (snd (create settings st)) = _instance st
  /\ (_instance st = None ->
      settings_ok settings = true ->
      exists app st1,
        create settings st = (Ok app, st1)
        /\ app_id app = next_id st
        /\ is_initialized st1 = false).
Proof.
  split.
  - destruct (create settings st) as [r st1] eqn:Hc.
    now apply ManagerFacts.create_keeps in Hc.
  - intros Hnone Hok.
    destruct (ManagerFacts.create_fresh settings st Hnone Hok)
      as (app & st1 & Hc & Hid & Hi & _).
    exists app, st1. repeat split; auto.
    unfold is_initialized. now rewrite Hi.
Qed.

(** X2: how [create] fails.  An unexpected system name raises before any
    system exists.  An unexpected compute name raises [KeyError], and an
    unexpected device grid name raises [Exception], after the system has
    been initialised: the system is left running, with no application and
    nothing to shut it down. *)
Theorem create_failure_modes settings st :
  _instance st = None ->
  (forall e,
      select_system settings = Raise e ->
      create settings st = (Raise e, configure_logging st))
  /\ (forall s,
         select_system settings = Ok s ->
         String.eqb (compute_name settings) "numpy" = false ->
         create settings st
         = (Raise (KeyError (compute_name settings)),
            emit (EvSystemInit Hook s) (configure_logging st)))
  /\ (forall s,
         select_system settings = Ok s ->
         String.eqb (compute_name settings) "numpy" = true ->
         String.eqb (device_grid_name settings) "cyclic" = false ->
         String.eqb (device_grid_name settings) "packed" = false ->
         create settings st
         = (Raise (Exception ("Unexpected device grid name "
                              ++ device_grid_name settings)),
            emit (EvSystemInit Hook s) (configure_logging st)))
  /\ (forall e st1,
         create settings st = (Raise e, st1) ->
         _instance st1 = None /\ next_id st1 = next_id st).
Proof.
  intros Hnone. split; [|split; [|split]].
  - intros e Hs. unfold create. cbn. now rewrite Hnone, Hs.
  - intros s Hs Hm. unfold create, select_compute_module. cbn.
    now rewrite Hnone, Hs, Hm.
  - intros s Hs Hm Hc Hp. unfold create, select_compute_module, select_device_grid.
    cbn. now rewrite Hnone, Hs, Hm, Hc, Hp.
  - intros e st1. unfold create. cbn. rewrite Hnone.
    destruct (select_system settings) as [s|e1]; cbn.
    2:{ intros [= <- <-]. auto. }
    destruct (select_compute_module settings) as [m|e1]; cbn.
    2:{ intros [= <- <-]. auto. }
    destruct (select_device_grid settings s) as [g|e1]; cbn.
    2:{ intros [= <- <-]. auto. }
    discriminate.
Qed.

(** X3: a failed [instance()] is not sticky.  When [create] raises inside
    [instance()], the exception is passed on, the module stays
    uninitialized and no hook is invoked; a later [instance()] under
    supported settings creates and registers the application, and returns
    it when the hooks return. *)
Theorem instance_failure_not_sticky settings st e st1 :
  _instance st = None ->
  create settings st = (Raise e, st1) ->
  instance hook_result settings st = (Raise e, st1)
  /\ is_initialized st1 = false
  /\ hooks_fired (trace st1) = hooks_fired (trace st)
  /\ _call_on_create st1 = _call_on_create st
  /\ forall good,
      settings_ok good = true ->
      exists app r st2,
        instance hook_result good st1 = (r, st2)
        /\ _instance st2 = Some app
        /\ (hooks_return hook_result st -> r = Ok app).
Proof.
  intros Hnone Hc.
  destruct (ManagerFacts.create_keeps _ _ Hc) as (Hi & Hh & _).
  destruct (create_trace _ _ _ _ Hc) as (tail & Htr & Hfired & _).
  rewrite Hnone in Hi.
  split; [unfold instance; now rewrite Hnone, Hc|].
  split; [unfold is_initialized; now rewrite Hi|].
  split.
  { rewrite Htr, hooks_fired_app. cbn. rewrite Hfired. apply app_nil_r. }
  split; [exact Hh|].
  intros good Hgood.
  destruct (ManagerFacts.create_fresh good st1 Hi Hgood)
    as (app & st2 & Hc2 & _).
  destruct (@ManagerFacts.instance_builds _ hook_result _ _ _ _ Hi Hc2)
    as (r & st3 & Hrun & Hreg & _ & _ & _ & _ & Hret).
  exists app, r, st3. split; [exact Hrun|]. split; [exact Hreg|].
  intros Hall. apply Hret. unfold hooks_return. now rewrite Hh.
Qed.

Lemma destroy_trace st :
  trace (destroy st)
  = trace st
    ++ match _instance st with
       | Some app => [EvSystemShutdown Hook (system (cm app));
                      EvComputeManagerDestroy]
       | None => []
       end.
Proof.
  unfold destroy. destruct (_instance st); cbn.
  - now rewrite <- app_assoc.
  - now rewrite app_nil_r.
Qed.

(** What a creating [instance()] leaves: the application registered, the
    hooks as they were, and the trace of [create] followed by one
    invocation per hook, up to the first that raises. *)
Lemma instance_creates settings st app st1 :
  _instance st = None ->
  create settings st = (Ok app, st1) ->
  exists r st2 invoked,
    instance hook_result settings st = (r, st2)
    /\ _instance st2 = Some app
    /\ _call_on_create st2 = _call_on_create st
    /\ trace st2
       = trace st
         ++ EvConfigureLogging
         :: EvSystemInit Hook (system (cm app))
         :: EvComputeManagerCreate Hook (cm app)
         :: map (fun f => EvHook f app) invoked
    /\ grid_system (device_grid (cm app)) = system (cm app)
    /\ (hooks_return hook_result st -> invoked = _call_on_create st).
Proof.
  intros Hnone Hc.
  destruct (create_trace _ _ _ _ Hc) as (tail & Htr & _ & _ & Htail).
  destruct (Htail app eq_refl) as [-> Hgrid].
  destruct (@ManagerFacts.instance_builds _ hook_result _ _ _ _ Hnone Hc)
    as (r & st2 & Hrun & Hreg & Hh & _ & (k & Hk) & _ & Hret).
  assert (Hshape : forall hooks,
             trace st2 = trace st1 ++ map (fun f => EvHook f app) hooks ->
             trace st2
             = trace st
               ++ EvConfigureLogging
               :: EvSystemInit Hook (system (cm app))
               :: EvComputeManagerCreate Hook (cm app)
               :: map (fun f => EvHook f app) hooks).
  { intros hooks ->. rewrite Htr, <- app_assoc. reflexivity. }
  exists r, st2, (firstn k (_call_on_create st)).
  split; [exact Hrun|]. split; [exact Hreg|]. split; [exact Hh|].
  split; [now apply Hshape|]. split; [exact Hgrid|].
  intros Hall. destruct (Hret Hall) as [_ Hfull].
  rewrite Hk in Hfull. apply app_inv_head in Hfull.
  apply (f_equal (@hooks_fired Hook)) in Hfull.
  now rewrite !hooks_fired_map in Hfull.
Qed.

(** X4: while an application is registered its system is live.  In every
    state the module can reach, the trace holds the initialisation of the
    registered application's system and the creation of its compute
    manager, followed only by hook invocations and logging configuration:
    no shutdown and no destruction since.  The application's device grid is
    built on that same system. *)
Theorem registered_system_is_live st app :
  reachable hook_result st ->
  _instance st = Some app ->
  grid_system (device_grid (cm app)) = system (cm app)
  /\ exists before since,
      trace st
      = before
        ++ EvSystemInit Hook (system (cm app))
        :: EvComputeManagerCreate Hook (cm app)
        :: since
      /\ forallb (@quiet Hook) since = true.
Proof.
  intros Hreach. revert app.
  induction Hreach as [|st func _ IH|st settings _ IH|st settings _ IH|st _ IH];
    intros app Happ.
  - discriminate.
  - destruct (ManagerFacts.call_on_create_keeps hook_result func st)
      as (Hi & _ & _ & Hev).
    rewrite Hi in Happ. destruct (IH app Happ) as (Hg & before & since & Htr & Hq).
    split; [exact Hg|].
    rewrite Hev, Happ, Htr.
    exists before, (since ++ [EvHook func app]). split.
    + now rewrite <- app_assoc.
    + rewrite forallb_app, Hq. reflexivity.
  - destruct (_instance st) as [old|] eqn:Hi.
    + rewrite (ManagerFacts.instance_initialized hook_result settings _ Hi) in *.
      cbn in Happ. apply IH. congruence.
    + destruct (create settings st) as [[a|e] st1] eqn:Hc.
      * destruct (instance_creates _ _ _ _ Hi Hc)
          as (r & st2 & invoked & Hrun & Hinst & _ & Htr & Hg & _).
        rewrite Hrun in *. cbn in *.
        assert (a = app) by congruence. subst a.
        split; [exact Hg|].
        exists (trace st ++ [EvConfigureLogging]),
               (map (fun f => EvHook f app) invoked).
        split.
        -- rewrite Htr, <- app_assoc. reflexivity.
        -- apply quiet_hooks.
      * unfold instance in Happ. rewrite Hi, Hc in Happ. cbn in Happ.
        apply ManagerFacts.create_keeps in Hc as (Hk & _). congruence.
  - destruct (create settings st) as [r st1] eqn:Hc. cbn in *.
    destruct (ManagerFacts.create_keeps _ _ Hc) as (Hk & _).
    rewrite Hk in Happ. destruct (IH app Happ) as (Hg & before & since & Htr & Hq).
    split; [exact Hg|].
    unfold create in Hc. cbn in Hc. rewrite Happ in Hc.
    injection Hc as _ <-. cbn. rewrite Htr.
    exists before, (since ++ [EvConfigureLogging]). split.
    + now rewrite <- app_assoc.
    + rewrite forallb_app, Hq. reflexivity.
  - destruct (ManagerFacts.destroy_clears st) as (Hnone & _). congruence.
Qed.

Lemma cycle_step settings st :
  settings_ok settings = true ->
  hooks_return hook_result st ->
  _call_on_create (cycle hook_result settings st) = _call_on_create st
  /\ hooks_fired (trace (cycle hook_result settings st))
     = hooks_fired (trace st) ++ _call_on_create st.
Proof.
  intros Hok Hall. unfold cycle.
  destruct (ManagerFacts.destroy_clears st) as (Hnone & Hh & _).
  destruct (ManagerFacts.create_fresh settings (destroy st) Hnone Hok)
    as (app & st1 & Hc & _).
  destruct (instance_creates _ _ _ _ Hnone Hc)
    as (r & st2 & invoked & Hrun & _ & Hh2 & Htr & _ & Hfull).
  rewrite Hfull in Htr by (unfold hooks_return; now rewrite Hh).
  rewrite Hrun. cbn. split; [congruence|].
  rewrite Htr, destroy_trace, Hh, !hooks_fired_app. cbn.
  rewrite hooks_fired_map.
  destruct (_instance st); cbn; now rewrite app_nil_r.
Qed.

(** X5: hooks over destroy/create cycles.  Under supported settings and
    with hooks that return normally, [k] rounds of [destroy()] then
    [instance()] leave the registered hooks as they were and invoke the
    whole list, in registration order, once per round. *)
Theorem hooks_over_cycles settings st (k : nat) :
  settings_ok settings = true ->
  hooks_return hook_result st ->
  _call_on_create (Nat.iter k (cycle hook_result settings) st)
  = _call_on_create st
  /\ hooks_fired (trace (Nat.iter k (cycle hook_result settings) st))
     = hooks_fired (trace st) ++ List.concat (repeat (_call_on_create st) k).
Proof.
  intros Hok Hall. induction k as [|k [IHh IHt]].
  - cbn. now rewrite app_nil_r.
  - rewrite Nat.iter_succ.
    destruct (cycle_step settings (Nat.iter k (cycle hook_result settings) st) Hok)
      as [Hh Ht].
    { unfold hooks_return. now rewrite IHh. }
    split; [congruence|].
    rewrite Ht, IHt, IHh, <- app_assoc. f_equal.
    clear. induction k as [|k IH]; cbn; [now rewrite app_nil_r|].
    cbn in IH. now rewrite <- app_assoc, IH.
Qed.

Lemma create_handlers settings st :
  handlers_added (trace (snd (create settings st)))
  = S (handlers_added (trace st)).
Proof.
  destruct (create settings st) as [r st1] eqn:Hc. cbn.
  destruct (create_trace _ _ _ _ Hc) as (tail & -> & _ & Hz & _).
  rewrite handlers_added_app. cbn. rewrite Hz. lia.
Qed.

Lemma cycle_handlers settings st :
  handlers_added (trace (cycle hook_result settings st))
  = S (handlers_added (trace st)).
Proof.
  unfold cycle.
  destruct (ManagerFacts.destroy_clears st) as (Hnone & _).
  assert (Hd : handlers_added (trace (destroy st)) = handlers_added (trace st)).
  { rewrite destroy_trace, handlers_added_app.
    destruct (_instance st); cbn; lia. }
  rewrite <- Hd.
  destruct (create (Hook := Hook) settings (destroy st)) as [[app|e] st1] eqn:Hc.
  - destruct (instance_creates _ _ _ _ Hnone Hc)
      as (r & st2 & invoked & Hrun & _ & _ & Htr & _).
    rewrite Hrun. cbn [snd]. rewrite Htr, handlers_added_app. cbn.
    rewrite handlers_added_hooks. lia.
  - unfold instance. rewrite Hnone, Hc. cbn.
    rewrite <- (create_handlers settings (destroy st)). now rewrite Hc.
Qed.

(** X6: logging handlers pile up.  Every call of [create], failing or not,
    adds one handler to the root logger; [instance()] adds one exactly when
    it has to create; [destroy()] and [call_on_create] add none and nothing
    removes one.  So [k] rounds of [destroy()] then [instance()], under any
    settings, leave [k] more handlers. *)
Theorem logging_handlers_pile_up settings st func (k : nat) :
  handlers_added (trace (snd (create settings st)))
  = S (handlers_added (trace st))
  /\ handlers_added (trace (snd (instance hook_result settings st)))
     = handlers_added (trace st) + (if is_initialized st then 0 else 1)
  /\ handlers_added (trace (destroy st)) = handlers_added (trace st)
  /\ handlers_added (trace (snd (call_on_create hook_result func st)))
     = handlers_added (trace st)
  /\ handlers_added (trace (Nat.iter k (cycle hook_result settings) st))
     = handlers_added (trace st) + k.
Proof.
  split; [apply create_handlers|]. split; [|split; [|split]].
  - unfold is_initialized. destruct (_instance st) as [app|] eqn:Hi.
    + rewrite (ManagerFacts.instance_initialized hook_result settings _ Hi).
      cbn. lia.
    + destruct (create settings st) as [[app|e] st1] eqn:Hc.
      * destruct (instance_creates _ _ _ _ Hi Hc)
          as (r & st2 & invoked & Hrun & _ & _ & Htr & _).
        rewrite Hrun. cbn [snd]. rewrite Htr, handlers_added_app. cbn.
        rewrite handlers_added_hooks. lia.
      * unfold instance. rewrite Hi, Hc. cbn.
        pose proof (create_handlers settings st) as H. rewrite Hc in H.
        cbn in H. lia.
  - rewrite destroy_trace, handlers_added_app.
    destruct (_instance st); cbn; lia.
  - destruct (ManagerFacts.call_on_create_keeps hook_result func st)
      as (_ & _ & _ & ->).
    rewrite handlers_added_app. destruct (_instance st); cbn; lia.
  - induction k as [|k IH]; [cbn; lia|].
    rewrite Nat.iter_succ, cycle_handlers, IH. lia.
Qed.

(** X7: [destroy()] is idempotent.  On an initialized module it shuts the
    registered application's system down, then destroys the compute
    manager, and does nothing else to the outside; a second [destroy()]
    changes nothing. *)
Theorem destroy_idempotent st :
  destroy (destroy st) = destroy st
  /\ forall app,
      _instance st = Some app ->
      trace (destroy st)
      = trace st ++ [EvSystemShutdown Hook (system (cm app));
                     EvComputeManagerDestroy]
      /\ next_id (destroy st) = next_id st
      /\ _call_on_create (destroy st) = _call_on_create st.
Proof.
  split.
  - destruct (ManagerFacts.destroy_clears st) as (Hnone & _).
    unfold destroy at 1. now rewrite Hnone.
  - intros app Happ. rewrite destroy_trace, Happ.
    destruct (ManagerFacts.destroy_clears st) as (_ & Hh & Hn). auto.
Qed.

End Facts.

End ManagerMore.

(** ** More on [split], [concatenate], [loadtxt] and [eye] *)

Module ApiMoreFacts.

Import Api.

(** A negative index and its non-negative equivalent denote one position. *)
Lemma py_index_negative (len : nat) (i : Z) :
  (0 <= i < Z.of_nat len)%Z ->
  py_index len (i - Z.of_nat len) = py_index len i.
Proof.
  intros Hi. unfold py_index.
  destruct (Z.leb_spec 0 (i - Z.of_nat len)); [lia|].
  destruct (Z.leb_spec 0 i); [|lia].
  destruct (Z.ltb_spec i (Z.of_nat len)); [|lia].
  destruct (Z.leb_spec (- Z.of_nat len) (i - Z.of_nat len)); [|lia].
  destruct (Z.ltb_spec (i - Z.of_nat len) 0); [|lia].
  cbn. f_equal. f_equal. lia.
Qed.

(** With a negative step, [range(0, stop, step)] over a positive [stop] is
    empty. *)
Lemma py_range_backwards (stop step : Z) :
  (0 < stop)%Z -> (step < 0)%Z -> py_range 0 stop step = Ok [].
Proof.
  intros Hstop Hstep. unfold py_range, py_range_len.
  destruct (Z.eqb_spec step 0); [lia|].
  destruct (Z.ltb_spec 0 step); [lia|].
  assert (Hlen : ((0 - stop - step - 1) / - step <= 0)%Z).
  { destruct (Z.le_gt_cases 0 (0 - stop - step - 1)) as [Hp|Hneg].
    - rewrite Z.div_small by lia. lia.
    - assert ((0 - stop - step - 1) / - step < 0)%Z
        by (apply Z.div_lt_upper_bound; lia).
      lia. }
  rewrite Z.max_l by lia. reflexivity.
Qed.

Section Facts.

Variables App BlockArray ndarray dtype kwargs : Type.
Variable shape : BlockArray -> list Z.
Variable block_shape : BlockArray -> list Z.
Variable np_shape : ndarray -> list Z.
Variable perform :
  forall A : Type, Call App BlockArray ndarray dtype kwargs A -> result A.

Local Abbreviation Log := (list (AnyCall App BlockArray ndarray dtype kwargs)).
Local Abbreviation full := {| start := None; stop := None; step := 1 |}.

(** *** [split] *)

Lemma foreach_app {A S : Type} (l1 l2 : list A)
      (body : S -> A -> M App BlockArray ndarray dtype kwargs S) :
  forall (acc : S) (log : Log),
    foreach (l1 ++ l2) body acc log
    = bind (foreach l1 body acc) (fun acc' => foreach l2 body acc') log.
Proof.
  induction l1 as [|a l1 IH]; intros acc log; [reflexivity|].
  cbn [List.app foreach]. unfold bind.
  destruct (body acc a log) as [[acc'|e] log']; [|reflexivity].
  rewrite IH. reflexivity.
Qed.

(** The loop of [split] reads the axis only through the position it
    denotes. *)
Lemma split_loop_position (ary : BlockArray) (axis1 axis2 dim_partial : Z)
      (rng : list Z) :
  py_index (List.length (shape ary)) axis1
  = py_index (List.length (shape ary)) axis2 ->
  forall (ss_op : list slice) (results : list BlockArray) (log : Log),
    List.length ss_op = List.length (shape ary) ->
    foreach rng (split_step perform ary axis1 dim_partial) (ss_op, results) log
    = foreach rng (split_step perform ary axis2 dim_partial) (ss_op, results) log.
Proof.
  intros Hpos. induction rng as [|i rng IH]; intros ss_op results log Hlen;
    [reflexivity|].
  cbn [foreach]. unfold bind. unfold split_step.
  unfold bind, lift, py_setitem. rewrite Hlen, <- Hpos.
  destruct (py_index (List.length (shape ary)) axis1) as [k|]; [|reflexivity].
  unfold call.
  destruct (perform _ (ba_getitem ary _)) as [p|e]; [|reflexivity].
  unfold ret. apply IH. now rewrite ApiFacts.list_update_length.
Qed.

(** X8: a negative axis.  Where the extent divides, [split] along
    [axis - ndim] runs exactly as [split] along [axis]: the same
    selections, the same outcome, also when a selection fails. *)
Theorem split_negative_axis (ary : BlockArray) (n axis dim_total : Z)
        (log : Log) :
  (0 <= axis < Z.of_nat (List.length (shape ary)))%Z ->
  py_getitem (shape ary) axis = Ok dim_total ->
  n <> 0%Z ->
  (dim_total mod n)%Z = 0%Z ->
  split shape perform ary (Sections n)
        (axis - Z.of_nat (List.length (shape ary))) log
  = split shape perform ary (Sections n) axis log.
Proof.
  intros Haxis Hdim Hn Hrem.
  pose proof (py_index_negative (List.length (shape ary)) axis Haxis) as Hpos.
  assert (Hdim' : py_getitem (shape ary)
                             (axis - Z.of_nat (List.length (shape ary)))
                  = Ok dim_total).
  { unfold py_getitem in *. now rewrite Hpos. }
  unfold split, bind, lift. rewrite Hdim, Hdim'.
  unfold py_mod, py_floordiv. destruct (Z.eqb_spec n 0); [contradiction|].
  rewrite Hrem. cbn [Z.eqb negb].
  destruct (py_range 0 dim_total (dim_total / n)) as [rng|e]; [|reflexivity].
  rewrite (split_loop_position ary _ axis (dim_total / n) rng Hpos)
    by now rewrite length_map.
  reflexivity.
Qed.

(** X9: a negative number of sections.  When [n < 0] divides a positive
    extent, the step of the [range] is negative, the loop does not run, and
    [split] returns the empty tuple without dispatching anything. *)
Theorem split_negative_sections (ary : BlockArray) (n axis dim_total : Z)
        (log : Log) :
  (n < 0)%Z ->
  (0 < dim_total)%Z ->
  py_getitem (shape ary) axis = Ok dim_total ->
  (dim_total mod n)%Z = 0%Z ->
  split shape perform ary (Sections n) axis log = (Ok [], log).
Proof.
  intros Hn Hpos Hdim Hrem.
  unfold split, bind, lift. rewrite Hdim.
  unfold py_mod, py_floordiv. destruct (Z.eqb_spec n 0); [lia|].
  rewrite Hrem. cbn [Z.eqb negb].
  assert (Hdp : (dim_total / n < 0)%Z).
  { assert (dim_total = n * (dim_total / n))%Z
      by (rewrite (Z.div_mod dim_total n) at 1 by lia; lia).
    nia. }
  rewrite py_range_backwards by assumption. reflexivity.
Qed.

(** X10: what [split] rejects before dispatching.  A second argument that
    is not an [int] raises [NotImplementedError], whatever the axis; an
    axis the array lacks raises the [IndexError] of a tuple; [0] sections
    raise [ZeroDivisionError], under a text that depends on the
    interpreter. *)
Theorem split_rejections (ary : BlockArray) (axis : Z) (log : Log) :
  (forall l,
      split shape perform ary (Indices l) axis log
      = (Raise (NotImplementedError "Split currently supports integers only."),
         log))
  /\ (forall n,
         py_index (List.length (shape ary)) axis = None ->
         split shape perform ary (Sections n) axis log
         = (Raise (IndexError "tuple index out of range"), log))
  /\ (forall dim_total,
         py_getitem (shape ary) axis = Ok dim_total ->
         exists text,
           split shape perform ary (Sections 0) axis log
           = (Raise (ZeroDivisionError text), log)).
Proof.
  split; [reflexivity|]. split.
  - intros n Hnone. unfold split, bind, lift, py_getitem. now rewrite Hnone.
  - intros dim_total Hdim. unfold split, bind, lift. rewrite Hdim.
    eexists. reflexivity.
Qed.

Section Split.

Variable ary : BlockArray.
Variable axis : Z.
Variable k : nat.
Variable dim_partial : Z.
Hypothesis Hk : py_index (List.length (shape ary)) axis = Some k.

Local Abbreviation section i :=
  (section_slices (shape ary) k dim_partial (Z.of_nat i)).

(** The loop of [split] over a run of sections that all succeed, with the
    selection it leaves in [ss_op]. *)
Lemma split_prefix (indices : list nat) :
  forall (ss_op : list slice) (results parts : list BlockArray) (log : Log),
    List.length ss_op = List.length (shape ary) ->
    (forall v, list_update ss_op k v
               = list_update (map (fun _ => full) (shape ary)) k v) ->
    map Ok parts = map (fun i => perform _ (ba_getitem ary (section i))) indices ->
    exists ss_op',
      foreach (map (fun i => (0 + Z.of_nat i * dim_partial)%Z) indices)
              (split_step perform ary axis dim_partial) (ss_op, results) log
      = (Ok (ss_op', results ++ parts),
         log ++ map (fun i => any (ba_getitem ary (section i))) indices)
      /\ List.length ss_op' = List.length (shape ary)
      /\ (forall v, list_update ss_op' k v
                    = list_update (map (fun _ => full) (shape ary)) k v).
Proof.
  induction indices as [|i indices IH];
    intros ss_op results parts log Hlen Hss Hparts.
  - destruct parts; [|discriminate]. cbn.
    exists ss_op. unfold ret. now rewrite !app_nil_r.
  - destruct parts as [|p parts]; [discriminate|].
    cbn in Hparts. injection Hparts as Hp Hparts. symmetry in Hp.
    destruct (IH (section i) (results ++ [p]) parts
                 (log ++ [any (ba_getitem ary (section i))]))
      as (ss_op' & Hloop & Hlen' & Hss'); auto.
    + unfold section_slices.
      now rewrite ApiFacts.list_update_length, length_map.
    + intros v. unfold section_slices. apply ApiFacts.list_update_twice.
    + exists ss_op'. cbn [map foreach].
      erewrite ApiFacts.bind_Ok
        by (eapply (ApiFacts.split_step_section shape perform ary axis
                      dim_partial Hk); eauto).
      rewrite Hloop. rewrite <- !app_assoc. auto.
Qed.

Lemma split_step_fails (i : nat) (ss_op : list slice)
      (results : list BlockArray) (e : exn) (log : Log) :
  List.length ss_op = List.length (shape ary) ->
  (forall v, list_update ss_op k v
             = list_update (map (fun _ => full) (shape ary)) k v) ->
  perform _ (ba_getitem ary (section i)) = Raise e ->
  split_step perform ary axis dim_partial (ss_op, results)
             (0 + Z.of_nat i * dim_partial)%Z log
  = (Raise e, log ++ [any (ba_getitem ary (section i))]).
Proof.
  intros Hlen Hss He.
  unfold split_step, bind, lift, py_setitem. rewrite Hlen, Hk, Hss.
  unfold call.
  change (list_update _ k _) with (section i).
  now rewrite He.
Qed.

End Split.

(** X11: [split] stops at the first selection that fails.  When the
    sections before the [j]-th succeed and the [j]-th raises, [split]
    raises that exception; the selections up to the [j]-th have been
    dispatched, none after it, and the arrays already selected are lost. *)
Theorem split_stops_at_first_failure (ary : BlockArray)
        (n axis dim_total : Z) (k j : nat) (parts : list BlockArray)
        (e : exn) (log : Log) :
  (0 < n)%Z ->
  py_index (List.length (shape ary)) axis = Some k ->
  py_getitem (shape ary) axis = Ok dim_total ->
  (0 < dim_total)%Z ->
  (dim_total mod n)%Z = 0%Z ->
  j < Z.to_nat n ->
  let section i :=
      section_slices (shape ary) k (dim_total / n) (Z.of_nat i) in
  map Ok parts = map (fun i => perform _ (ba_getitem ary (section i))) (seq 0 j) ->
  perform _ (ba_getitem ary (section j)) = Raise e ->
  split shape perform ary (Sections n) axis log
  = (Raise e,
     log ++ map (fun i => any (ba_getitem ary (section i))) (seq 0 (S j))).
Proof.
  intros Hn Hk Hdim Hpos Hrem Hj section Hparts He.
  set (expected := log ++ map _ (seq 0 (S j))).
  unfold split, bind at 1, lift at 1. rewrite Hdim.
  unfold bind at 1, lift at 1, py_mod. destruct (Z.eqb_spec n 0); [lia|].
  rewrite Hrem. cbn [Z.eqb negb].
  unfold bind at 1, lift at 1, py_floordiv.
  destruct (Z.eqb_spec n 0); [lia|].
  assert (Hdiv : dim_total = ((dim_total / n) * n)%Z).
  { rewrite (Z.div_mod dim_total n) at 1 by lia. lia. }
  assert (Hdp : (0 < dim_total / n)%Z).
  { apply Z.div_str_pos. split; [lia|].
    apply Z.divide_pos_le; [lia|]. apply Z.mod_divide; assumption. }
  unfold bind at 1, lift at 1.
  replace (py_range 0 dim_total (dim_total / n))
    with (py_range 0 (n * (dim_total / n)) (dim_total / n))
    by (f_equal; lia).
  rewrite ApiFacts.py_range_multiples by lia.
  replace (Z.to_nat n) with (j + S (Z.to_nat n - S j)) by lia.
  rewrite seq_app, map_app. cbn [seq map Nat.add].
  unfold bind at 1. rewrite foreach_app. unfold bind at 1.
  destruct (split_prefix ary axis k (dim_total / n) Hk (seq 0 j)
                         (map (fun _ => full) (shape ary)) [] parts log)
    as (ss_op' & Hloop & Hlen & Hss); auto.
  { now rewrite length_map. }
  rewrite Hloop. cbn [foreach]. unfold bind at 1.
  rewrite (split_step_fails ary axis k (dim_total / n) Hk j ss_op' _ e) by auto.
  subst expected. rewrite seq_S, map_app, app_assoc. reflexivity.
Qed.

(** *** [concatenate] *)

Lemma concatenate_run (arrays : list BlockArray) (axis : Z) (sizes : list Z)
      (m : Z) (app : App) (log : Log) :
  Forall2 (fun arr size => py_getitem (block_shape arr) axis = Ok size)
          arrays sizes ->
  scipy_stats_mode sizes = Ok m ->
  perform _ _instance = Ok app ->
  concatenate block_shape perform arrays axis None log
  = (perform _ (app_concatenate app arrays axis m),
     log ++ [any _instance; any (app_concatenate app arrays axis m)]).
Proof.
  intros Hsizes Hmode Happ. unfold concatenate, bind.
  rewrite (ApiFacts.mapM_lift _ log Hsizes).
  unfold lift, call. rewrite Hmode, Happ.
  now rewrite <- app_assoc.
Qed.

Lemma sizes_of (size_of : BlockArray -> Z) (axis : Z) (arrays : list BlockArray) :
  (forall arr, In arr arrays ->
               py_getitem (block_shape arr) axis = Ok (size_of arr)) ->
  Forall2 (fun arr size => py_getitem (block_shape arr) axis = Ok size)
          arrays (map size_of arrays).
Proof.
  induction arrays as [|arr arrays IH]; intros H; cbn; constructor.
  - apply H. now left.
  - apply IH. intros a Ha. apply H. now right.
Qed.

(** X13: inputs that agree on the block size along the axis.  When every
    input has block size [b] there, [concatenate] passes [b]: it asks for
    no re-blocking. *)
Theorem concatenate_uniform (arrays : list BlockArray) (axis b : Z)
        (app : App) (log : Log) :
  arrays <> [] ->
  (forall arr, In arr arrays -> py_getitem (block_shape arr) axis = Ok b) ->
  perform _ _instance = Ok app ->
  concatenate block_shape perform arrays axis None log
  = (perform _ (app_concatenate app arrays axis b),
     log ++ [any _instance; any (app_concatenate app arrays axis b)]).
Proof.
  intros Hne Hall Happ.
  pose proof (sizes_of (fun _ => b) axis arrays Hall) as Hsizes.
  assert (Hne' : map (fun _ : BlockArray => b) arrays <> [])
    by (destruct arrays; [congruence|discriminate]).
  destruct (BuiltinFacts.scipy_stats_mode_spec Hne') as (m & Hmode & Hin & _).
  apply in_map_iff in Hin as (arr & <- & _).
  now apply concatenate_run with (sizes := map (fun _ => b) arrays).
Qed.

(** The mode does not depend on the order of the values. *)
Lemma scipy_stats_mode_permutation (l l' : list Z) :
  Permutation l l' -> scipy_stats_mode l = scipy_stats_mode l'.
Proof.
  intros Hperm.
  destruct l as [|x l0].
  { apply Permutation_nil in Hperm. now subst. }
  assert (Hne : x :: l0 <> []) by discriminate.
  assert (Hne' : l' <> []).
  { intros ->. apply Permutation_sym, Permutation_nil in Hperm. discriminate. }
  destruct (BuiltinFacts.scipy_stats_mode_spec Hne)
    as (m & -> & Hin & Hmax & Hmin).
  destruct (BuiltinFacts.scipy_stats_mode_spec Hne')
    as (m' & -> & Hin' & Hmax' & Hmin').
  assert (Hocc : forall v, occurrences (x :: l0) v = occurrences l' v).
  { intros v. unfold occurrences.
    now apply (proj1 (Permutation_count_occ Z.eq_dec (x :: l0) l')). }
  assert (Heq : occurrences (x :: l0) m = occurrences (x :: l0) m').
  { pose proof (Hmax m'). pose proof (Hmax' m). rewrite <- !Hocc in *. lia. }
  f_equal. apply Z.le_antisymm.
  - apply Hmin. now symmetry.
  - apply Hmin'. rewrite <- !Hocc. exact Heq.
Qed.

(** X14: the order of the inputs.  The block size [concatenate] passes
    along does not depend on the order in which the arrays are given. *)
Theorem concatenate_order_independent (arrays arrays' : list BlockArray)
        (axis : Z) (size_of : BlockArray -> Z) (app : App) (log : Log) :
  Permutation arrays arrays' ->
  arrays <> [] ->
  (forall arr, In arr arrays ->
               py_getitem (block_shape arr) axis = Ok (size_of arr)) ->
  perform _ _instance = Ok app ->
  exists axis_block_size,
    concatenate block_shape perform arrays axis None log
    = (perform _ (app_concatenate app arrays axis axis_block_size),
       log ++ [any _instance;
               any (app_concatenate app arrays axis axis_block_size)])
    /\ concatenate block_shape perform arrays' axis None log
       = (perform _ (app_concatenate app arrays' axis axis_block_size),
          log ++ [any _instance;
                  any (app_concatenate app arrays' axis axis_block_size)]).
Proof.
  intros Hperm Hne Hall Happ.
  assert (Hall' : forall arr, In arr arrays' ->
                              py_getitem (block_shape arr) axis = Ok (size_of arr)).
  { intros arr Harr. apply Hall.
    now apply (Permutation_in _ (Permutation_sym Hperm)). }
  assert (Hne' : map size_of arrays <> [])
    by (destruct arrays; [congruence|discriminate]).
  destruct (BuiltinFacts.scipy_stats_mode_spec Hne') as (m & Hmode & _).
  exists m. split.
  - now apply concatenate_run with (sizes := map size_of arrays);
      [apply sizes_of| |].
  - apply concatenate_run with (sizes := map size_of arrays');
      [now apply sizes_of| |assumption].
    rewrite <- Hmode. symmetry.
    apply scipy_stats_mode_permutation. now apply Permutation_map.
Qed.

Lemma mapM_lift_fails {A B : Type} (f : A -> result B) (e : exn)
      (l : list A) (log : Log) :
  (forall a, In a l -> (exists b, f a = Ok b) \/ f a = Raise e) ->
  Exists (fun a => f a = Raise e) l ->
  mapM (App := App) (BlockArray := BlockArray) (ndarray := ndarray)
       (dtype := dtype) (kwargs := kwargs) (fun a => lift (f a)) l log
  = (Raise e, log).
Proof.
  induction l as [|a l IH]; intros Hall Hex; [inversion Hex|].
  cbn [mapM]. unfold bind at 1. unfold lift at 1.
  destruct (Hall a (or_introl eq_refl)) as [[b Hb]|Hb]; rewrite Hb;
    [|reflexivity].
  unfold bind. rewrite IH; [reflexivity| |].
  - intros a' Ha'. apply Hall. now right.
  - inversion Hex; subst; [congruence|assumption].
Qed.

(** X15: what [concatenate] rejects before dispatching.  An [out] argument
    raises [NotImplementedError], whatever the arrays and the axis; an
    input whose block shape lacks the axis raises the [IndexError] of a
    tuple before the application is asked for. *)
Theorem concatenate_rejections (arrays : list BlockArray) (axis : Z)
        (log : Log) :
  (forall out,
      concatenate block_shape perform arrays axis (Some out) log
      = (Raise (NotImplementedError
                  "out is currently not supported for concatenate."),
         log))
  /\ (Exists (fun arr => py_index (List.length (block_shape arr)) axis = None)
             arrays ->
      concatenate block_shape perform arrays axis None log
      = (Raise (IndexError "tuple index out of range"), log)).
Proof.
  split; [reflexivity|].
  intros Hex. unfold concatenate, bind.
  rewrite (mapM_lift_fails (fun arr => py_getitem (block_shape arr) axis)
                           (IndexError "tuple index out of range")).
  - reflexivity.
  - intros arr _. unfold py_getitem.
    destruct (py_index _ axis) as [k|]; [|now right].
    destruct (nth_error (block_shape arr) k) as [s|]; [left; eauto|now right].
  - apply Exists_exists in Hex as (arr & Harr & Hnone).
    apply Exists_exists. exists arr. split; [exact Harr|].
    unfold py_getitem. now rewrite Hnone.
Qed.

(** *** [loadtxt] *)

Local Abbreviation warning :=
  "Failed to load text data in parallel; using np.loadtxt locally."%string.

(** X16: the parallel path.  When the parallel ingestion, the block-shape
    computation and the re-blocking succeed, [loadtxt] returns the
    re-blocked array: no warning is issued and [np.loadtxt] is not called. *)
Theorem loadtxt_parallel (fname : string) (dt : dtype) (kw : kwargs)
        (app : App) (num_rows : Z) (ba reblocked : BlockArray)
        (blk : list Z) (log : Log) :
  perform _ _instance = Ok app ->
  perform _ (get_num_cores app) = Ok num_rows ->
  perform _ (app_loadtxt app fname dt kw num_rows) = Ok ba ->
  perform _ (app_compute_block_shape app (shape ba) dt) = Ok blk ->
  perform _ (ba_reshape ba blk) = Ok reblocked ->
  loadtxt shape np_shape perform fname dt kw log
  = (Ok reblocked,
     log ++ [any _instance;
             any (get_num_cores app);
             any (app_loadtxt app fname dt kw num_rows);
             any (app_compute_block_shape app (shape ba) dt);
             any (ba_reshape ba blk)]).
Proof.
  intros Happ Hcores Hload Hblk Hre.
  unfold loadtxt, bind, try_except, call.
  rewrite Happ, Hcores, Hload, Hblk, Hre.
  repeat rewrite <- app_assoc. reflexivity.
Qed.

(** X17: the fallback also covers the re-blocking.  When the parallel
    ingestion succeeds but the re-blocking of its result raises an
    [Exception], [loadtxt] drops the array already loaded, warns, and
    parses the file again with [np.loadtxt]. *)
Theorem loadtxt_reblock_fallback (fname : string) (dt : dtype) (kw : kwargs)
        (app : App) (num_rows : Z) (ba : BlockArray) (blk : list Z)
        (e : exn) (np_arr : ndarray) (blk' : list Z) (local : BlockArray)
        (log : Log) :
  perform _ _instance = Ok app ->
  perform _ (get_num_cores app) = Ok num_rows ->
  perform _ (app_loadtxt app fname dt kw num_rows) = Ok ba ->
  perform _ (app_compute_block_shape app (shape ba) dt) = Ok blk ->
  perform _ (ba_reshape ba blk) = Raise e ->
  is_Exception e = true ->
  perform _ (warnings_warn warning) = Ok tt ->
  perform _ (np_loadtxt fname dt kw) = Ok np_arr ->
  perform _ (app_compute_block_shape app (np_shape np_arr) dt) = Ok blk' ->
  perform _ (app_array app np_arr blk') = Ok local ->
  loadtxt shape np_shape perform fname dt kw log
  = (Ok local,
     log ++ [any _instance;
             any (get_num_cores app);
             any (app_loadtxt app fname dt kw num_rows);
             any (app_compute_block_shape app (shape ba) dt);
             any (ba_reshape ba blk);
             any (warnings_warn warning);
             any (np_loadtxt fname dt kw);
             any (app_compute_block_shape app (np_shape np_arr) dt);
             any (app_array app np_arr blk')]).
Proof.
  intros Happ Hcores Hload Hblk Hre Hexc Hwarn Hnp Hblk' Harr.
  unfold loadtxt, bind, try_except, call.
  rewrite Happ, Hcores, Hload, Hblk, Hre, Hexc, Hwarn, Hnp, Hblk', Harr.
  repeat rewrite <- app_assoc. reflexivity.
Qed.

(** X18: the fallback is not protected.  When the parallel ingestion raises
    an [Exception] and the local parse raises too, [loadtxt] raises the
    exception of the local parse; that of the parallel ingestion is lost. *)
Theorem loadtxt_local_failure (fname : string) (dt : dtype) (kw : kwargs)
        (app : App) (num_rows : Z) (e e' : exn) (log : Log) :
  perform _ _instance = Ok app ->
  perform _ (get_num_cores app) = Ok num_rows ->
  perform _ (app_loadtxt app fname dt kw num_rows) = Raise e ->
  is_Exception e = true ->
  perform _ (warnings_warn warning) = Ok tt ->
  perform _ (np_loadtxt fname dt kw) = Raise e' ->
  loadtxt shape np_shape perform fname dt kw log
  = (Raise e',
     log ++ [any _instance;
             any (get_num_cores app);
             any (app_loadtxt app fname dt kw num_rows);
             any (warnings_warn warning);
             any (np_loadtxt fname dt kw)]).
Proof.
  intros Happ Hcores Hload Hexc Hwarn Hnp.
  unfold loadtxt, bind, try_except, call.
  rewrite Happ, Hcores, Hload, Hexc, Hwarn, Hnp.
  repeat rewrite <- app_assoc. reflexivity.
Qed.

(** *** [eye] and [identity] *)

(** X20: [eye] asks for the application before it tests [k].  With
    [k <> 0] it raises [NotImplementedError] only after [_instance()] has
    run, and when [_instance()] itself raises, that exception is the one
    that comes out, for every [k].  [identity] never meets the guard: it
    dispatches [app.eye] on the square shape. *)
Theorem eye_asks_first (N : Z) (M_ : option Z) (k : Z) (dt : dtype)
        (log : Log) :
  (forall app,
      perform _ _instance = Ok app ->
      k <> 0%Z ->
      eye perform N M_ k dt log
      = (Raise (NotImplementedError "Only k==0 is currently supported."),
         log ++ [any _instance]))
  /\ (forall e,
         perform _ _instance = Raise e ->
         eye perform N M_ k dt log = (Raise e, log ++ [any _instance]))
  /\ (forall app blk,
         perform _ _instance = Ok app ->
         perform _ (app_get_block_shape app [N; N] dt) = Ok blk ->
         identity perform N dt log
         = (perform _ (app_eye app [N; N] blk dt),
            log ++ [any _instance;
                    any (app_get_block_shape app [N; N] dt);
                    any (app_eye app [N; N] blk dt)])).
Proof.
  split; [|split].
  - intros app Happ Hk. unfold eye, bind, call. rewrite Happ.
    destruct (Z.eqb_spec k 0); [contradiction|]. reflexivity.
  - intros e He. unfold eye, bind, call. now rewrite He.
  - intros app blk Happ Hblk. unfold identity, eye, bind, call.
    rewrite Happ. cbn [Z.eqb negb]. rewrite Hblk.
    repeat rewrite <- app_assoc. reflexivity.
Qed.

End Facts.

End ApiMoreFacts.

(** ** The other wrappers of [api.py] *)

Module ApiRestFacts.

Import ApiRest.

Section Facts.

Variables App BlockArray ndarray dtype kwargs number PyObject : Type.
Variable shape : BlockArray -> list Z.
Variable dtype_of : BlockArray -> dtype.
Variable np_shape : ndarray -> list Z.
Variable np_dtype_str : ndarray -> string.
Variable dtype_is : dtype -> dtype -> bool.
Variable dtype_eq : dtype -> dtype -> bool.
Variable float64 : dtype.
Variable no_kwargs : kwargs.
Variable perform :
  forall A : Type,
    Call App BlockArray ndarray dtype kwargs number PyObject A -> result A.

Local Abbreviation Log :=
  (list (AnyCall (Call App BlockArray ndarray dtype kwargs number PyObject))).
Local Abbreviation array_ :=
  (array dtype_of np_shape np_dtype_str dtype_is perform).
Local Abbreviation logspace_ :=
  (logspace dtype_of dtype_eq float64 no_kwargs perform).

(** X21: [arange] forgets where it starts.  With step 1,
    [arange(start, stop)] dispatches exactly what [arange(stop - start)]
    dispatches, the shape [(stop - start,)] and nothing of [start]: shifting
    both ends by the same amount changes nothing.  Any other step raises
    [NotImplementedError] before the application is asked for. *)
Theorem arange_forgets_start (start stop : Z) (dt : dtype) (log : Log) :
  arange perform start (Some stop) 1 dt log
  = arange perform (stop - start) None 1 dt log
  /\ (forall d,
         arange perform (start + d)%Z (Some (stop + d)%Z) 1 dt log
         = arange perform start (Some stop) 1 dt log)
  /\ (forall app blk,
         perform _ _instance = Ok app ->
         perform _ (app_get_block_shape app [(stop - start)%Z] dt) = Ok blk ->
         arange perform start (Some stop) 1 dt log
         = (perform _ (app_arange app [(stop - start)%Z] blk 1 dt),
            log ++ [any _instance;
                    any (app_get_block_shape app [(stop - start)%Z] dt);
                    any (app_arange app [(stop - start)%Z] blk 1 dt)]))
  /\ (forall stop' step,
         step <> 1%Z ->
         arange perform start stop' step dt log
         = (Raise (NotImplementedError
                     "Only step size of 1 is currently supported."),
            log)).
Proof.
  split; [|split; [|split]].
  - unfold arange. cbn [Z.eqb negb Pos.eqb].
    now replace (stop - start - 0)%Z with (stop - start)%Z by lia.
  - intros d. unfold arange. cbn [Z.eqb negb Pos.eqb].
    now replace (stop + d - (start + d))%Z with (stop - start)%Z by lia.
  - intros app blk Happ Hblk. unfold arange. cbn [Z.eqb negb Pos.eqb].
    unfold bind, call. rewrite Happ, Hblk.
    repeat rewrite <- app_assoc. reflexivity.
  - intros stop' step Hstep. unfold arange.
    destruct stop'; destruct (Z.eqb_spec step 1); try contradiction;
      reflexivity.
Qed.

(** X22: [array] on a [BlockArray].  With [copy=False] and no dtype, or the
    array's own dtype, [array] returns the very array it was given and
    dispatches nothing.  Whatever [copy] and [dtype] are, it only calls
    methods of the array: the application is never asked for and no block
    shape is computed. *)
Theorem array_of_block_array (ba : BlockArray) (dt : option dtype)
        (copy : bool) (order : option string) (log : Log) :
  bad_order order = false ->
  (match dt with
   | None => True
   | Some d => dtype_is d (dtype_of ba) = true
   end ->
   array_ (IsBlockArray ba) dt false order 0 false log = (Ok ba, log))
  /\ exists calls,
      snd (array_ (IsBlockArray ba) dt copy order 0 false log) = log ++ calls
      /\ forallb (@Views.is_array_method
                    App BlockArray ndarray dtype kwargs number PyObject)
                 calls = true.
Proof.
  intros Horder. split.
  - intros Hdt. unfold array. rewrite Horder. cbn [Z.eqb negb].
    unfold bind, ret. destruct dt as [d|]; [|reflexivity].
    now rewrite Hdt.
  - unfold array. rewrite Horder. cbn [Z.eqb negb].
    unfold bind, ret, call.
    destruct copy.
    + destruct (perform _ (ba_copy ba)) as [c|e]; cbn [snd].
      * destruct dt as [d|].
        -- destruct (dtype_is d (dtype_of c)); cbn [negb snd].
           ++ exists [any (ba_copy ba)]. split; reflexivity.
           ++ exists [any (ba_copy ba); any (ba_astype c d)].
              split; [now rewrite <- app_assoc|reflexivity].
        -- exists [any (ba_copy ba)]. split; reflexivity.
      * exists [any (ba_copy ba)]. split; reflexivity.
    + destruct dt as [d|].
      * destruct (dtype_is d (dtype_of ba)); cbn [negb snd].
        -- exists []. split; [now rewrite app_nil_r|reflexivity].
        -- exists [any (ba_astype ba d)]. split; reflexivity.
      * exists []. split; [now rewrite app_nil_r|reflexivity].
Qed.

(** X23: the guards of [array], in order.  An [order] other than [None] or
    ["K"] raises [NotImplementedError] whatever else is passed; then a
    non-zero [ndmin] raises [NotImplementedError]; then [subok] raises
    [ValueError].  Each guard fires before anything is dispatched, also for
    an argument that is not a [BlockArray]. *)
Theorem array_guards (object : array_like BlockArray PyObject)
        (dt : option dtype) (copy : bool) (order : option string)
        (ndmin : Z) (subok : bool) (log : Log) :
  (bad_order order = true ->
   array_ object dt copy order ndmin subok log
   = (Raise (NotImplementedError "Only order='K' is supported."), log))
  /\ (bad_order order = false ->
      ndmin <> 0%Z ->
      array_ object dt copy order ndmin subok log
      = (Raise (NotImplementedError "Only ndmin=0 is currently supported."),
         log))
  /\ (bad_order order = false ->
      ndmin = 0%Z ->
      subok = true ->
      array_ object dt copy order ndmin subok log
      = (Raise (ValueError "subok must be False."), log)).
Proof.
  split; [|split].
  - intros Horder. unfold array. now rewrite Horder.
  - intros Horder Hndmin. unfold array. rewrite Horder.
    destruct (Z.eqb_spec ndmin 0); [contradiction|]. reflexivity.
  - intros Horder -> ->. unfold array. now rewrite Horder.
Qed.

(** X24: [logspace].  The requested dtype never reaches [linspace]: the
    exponents are always laid out in [float64], raised by [power] from the
    scalar base, and the result is cast at the end, only when a dtype is
    given and differs from the result's.  The application is asked for
    three times. *)
Theorem logspace_run (start stop base : number) (num axis : Z)
        (endpoint : bool) (dt : option dtype) (app : App) (blk : list Z)
        (exponents b powers : BlockArray) (kw : kwargs) (log : Log) :
  perform _ _instance = Ok app ->
  perform _ (app_get_block_shape app [num] float64) = Ok blk ->
  perform _ (app_linspace app start stop [num] blk endpoint false float64 axis)
  = Ok exponents ->
  perform _ (app_scalar app base) = Ok b ->
  perform _ (ufunc_kwargs no_kwargs) = Ok kw ->
  perform _ (app_map_bop app "power" b exponents None true kw) = Ok powers ->
  let log' :=
      log ++ [any _instance;
              any _instance;
              any (app_get_block_shape app [num] float64);
              any (app_linspace app start stop [num] blk endpoint false
                                float64 axis);
              any (app_scalar app base);
              any _instance;
              any (ufunc_kwargs no_kwargs);
              any (app_map_bop app "power" b exponents None true kw)] in
  logspace_ start stop num endpoint base dt axis log
  = match dt with
    | Some d =>
      if dtype_eq d (dtype_of powers) then (Ok powers, log')
      else (perform _ (ba_astype powers d), log' ++ [any (ba_astype powers d)])
    | None => (Ok powers, log')
    end.
Proof.
  intros Happ Hblk Hlin Hb Hkw Hpow log'.
  unfold logspace, linspace, power, binary, bind, call.
  rewrite Happ, Hblk, Hlin, Hb, Hkw, Hpow.
  subst log'. repeat rewrite <- app_assoc. cbn [List.app].
  destruct dt as [d|]; [|reflexivity].
  destruct (dtype_eq d (dtype_of powers)); cbn [negb]; [reflexivity|].
  unfold call. repeat rewrite <- app_assoc. reflexivity.
Qed.

(** The guards of the reductions.  [min] and [max] test [initial], then
    [where], then [out]; [mean], [var], [std] and [all] test [out];
    [allclose] tests [equal_nan].  Each raises [NotImplementedError] before
    the application is asked for. *)
Remark reductions_guards (a b : BlockArray) (axis : option Z)
        (dt : option dtype) (ddof : Z) (keepdims : bool)
        (rtol atol : number) (log : Log) :
  (forall out where_ v,
      min perform a axis out keepdims (Some v) where_ log
      = (Raise (NotImplementedError "'initial' is currently not supported."), log)
      /\ max perform a axis out keepdims (Some v) where_ log
         = (Raise (NotImplementedError "'initial' is currently not supported."),
            log))
  /\ (forall out w,
         min perform a axis out keepdims None (Some w) log
         = (Raise (NotImplementedError "'where' is currently not supported."), log)
         /\ max perform a axis out keepdims None (Some w) log
            = (Raise (NotImplementedError "'where' is currently not supported."),
               log))
  /\ (forall o,
         let rejected :=
             (Raise (NotImplementedError "'out' is currently not supported."),
              log) in
         min perform a axis (Some o) keepdims None None log = rejected
         /\ max perform a axis (Some o) keepdims None None log = rejected
         /\ mean perform a axis dt (Some o) keepdims log = rejected
         /\ var perform a axis dt (Some o) ddof keepdims log = rejected
         /\ std perform a axis dt (Some o) ddof keepdims log = rejected
         /\ all perform a axis (Some o) keepdims log = rejected)
  /\ allclose perform a b rtol atol true log
     = (Raise (NotImplementedError "equal_nan=True not supported."), log).
Proof. repeat split. Qed.

End Facts.

End ApiRestFacts.

(** ** The further properties at concrete inputs *)

Module MoreWitnesses.

Import Samples Samples2.

Lemma create_registers_nothing_witness :
  ApplicationManager.settings_ok serial_settings = true
  /\ exists app st1,
      ApplicationManager.create serial_settings
                                (ApplicationManager.initial_state (Hook := nat))
      = (Ok app, st1)
      /\ ApplicationManager.app_id app = 0
      /\ ApplicationManager.is_initialized st1 = false.
Proof.
  split; [reflexivity|].
  apply (proj2 (ManagerMore.create_registers_nothing
                  nat serial_settings ApplicationManager.initial_state));
    reflexivity.
Defined.

Lemma create_failure_modes_witness :
  ApplicationManager._instance (ApplicationManager.initial_state (Hook := nat))
  = None
  /\ ApplicationManager.create jax_settings ApplicationManager.initial_state
     = (Raise (KeyError "jax"),
        ApplicationManager.emit
          (ApplicationManager.EvSystemInit
             nat (ApplicationManager.SerialSystem (Some 4%Z)))
          (ApplicationManager.configure_logging
             ApplicationManager.initial_state)).
Proof.
  split; [reflexivity|].
  destruct (ManagerMore.create_failure_modes
              nat jax_settings ApplicationManager.initial_state eq_refl)
    as (_ & Hcompute & _).
  apply Hcompute; reflexivity.
Defined.

Lemma instance_failure_not_sticky_witness :
  let st1 :=
      ApplicationManager.emit
        (ApplicationManager.EvSystemInit
           nat (ApplicationManager.SerialSystem (Some 4%Z)))
        (ApplicationManager.configure_logging registered) in
  ApplicationManager.create jax_settings registered
  = (Raise (KeyError "jax"), st1)
  /\ ApplicationManager.instance returning jax_settings registered
     = (Raise (KeyError "jax"), st1)
  /\ ApplicationManager.hooks_return returning registered
  /\ exists app st2,
      ApplicationManager.instance returning serial_settings st1 = (Ok app, st2)
      /\ ApplicationManager._instance st2 = Some app.
Proof.
  intros st1.
  assert (Hall : ApplicationManager.hooks_return returning registered).
  { intros func _ app st'. reflexivity. }
  destruct (ManagerMore.instance_failure_not_sticky
              nat returning jax_settings registered
              (KeyError "jax") st1 eq_refl eq_refl)
    as (Hrun & _ & _ & _ & Hretry).
  split; [reflexivity|]. split; [exact Hrun|]. split; [exact Hall|].
  destruct (Hretry serial_settings eq_refl) as (app & r & st2 & Hgood & Hreg & Hret).
  rewrite (Hret Hall) in Hgood.
  exists app, st2. split; [exact Hgood|exact Hreg].
Defined.

Lemma registered_system_is_live_witness :
  ApplicationManager.reachable returning running
  /\ ApplicationManager._instance running = Some serial_app
  /\ exists before since,
      ApplicationManager.trace running
      = before
        ++ ApplicationManager.EvSystemInit
             nat (ApplicationManager.SerialSystem (Some 4%Z))
        :: ApplicationManager.EvComputeManagerCreate
             nat (ApplicationManager.cm serial_app)
        :: since
      /\ forallb (@Views.quiet nat) since = true.
Proof.
  assert (Hreach : ApplicationManager.reachable returning running).
  { unfold running, registered. apply ApplicationManager.reach_instance.
    apply ApplicationManager.reach_call_on_create.
    apply ApplicationManager.reach_init. }
  split; [exact Hreach|]. split; [reflexivity|].
  apply (ManagerMore.registered_system_is_live
           nat returning running serial_app Hreach eq_refl).
Defined.

Lemma hooks_over_cycles_witness :
  ApplicationManager.settings_ok serial_settings = true
  /\ ApplicationManager.hooks_return returning running
  /\ Views.hooks_fired
       (ApplicationManager.trace
          (Nat.iter 2 (Views.cycle returning serial_settings) running))
     = [7; 7; 7].
Proof.
  assert (Hall : ApplicationManager.hooks_return returning running).
  { intros func _ app st'. reflexivity. }
  split; [reflexivity|]. split; [exact Hall|].
  rewrite (proj2 (ManagerMore.hooks_over_cycles
                    nat returning serial_settings running 2 eq_refl Hall)).
  reflexivity.
Defined.

Lemma destroy_idempotent_witness :
  ApplicationManager._instance running = Some serial_app
  /\ ApplicationManager.trace (ApplicationManager.destroy running)
     = ApplicationManager.trace running
       ++ [ApplicationManager.EvSystemShutdown
             nat (ApplicationManager.SerialSystem (Some 4%Z));
           ApplicationManager.EvComputeManagerDestroy].
Proof.
  split; [reflexivity|].
  apply (proj2 (ManagerMore.destroy_idempotent nat running) serial_app eq_refl).
Defined.

Lemma split_negative_axis_witness :
  (0 <= 1 < Z.of_nat 2)%Z
  /\ py_getitem [6; 4]%Z 1 = Ok 4%Z
  /\ Api.split fst answer (([6; 4], [2; 2])%Z : Geometry) (Api.Sections 2) (-1) []
     = Api.split fst answer (([6; 4], [2; 2])%Z : Geometry) (Api.Sections 2) 1 [].
Proof.
  split; [lia|]. split; [reflexivity|].
  apply (ApiMoreFacts.split_negative_axis
           unit Geometry (list Z) unit unit fst answer
           ([6; 4], [2; 2])%Z 2%Z 1%Z 4%Z []);
    [cbn; lia | reflexivity | lia | reflexivity].
Defined.

Lemma split_negative_sections_witness :
  (-3 < 0)%Z
  /\ (6 mod -3)%Z = 0%Z
  /\ Api.split fst answer (([6; 4], [2; 2])%Z : Geometry) (Api.Sections (-3)) 0 []
     = (Ok [], []).
Proof.
  split; [lia|]. split; [reflexivity|].
  apply (ApiMoreFacts.split_negative_sections
           unit Geometry (list Z) unit unit fst answer
           ([6; 4], [2; 2])%Z (-3)%Z 0%Z 6%Z []);
    [lia | lia | reflexivity | reflexivity].
Defined.

Lemma split_rejections_witness :
  py_index 2 5 = None
  /\ Api.split fst answer (([6; 4], [2; 2])%Z : Geometry) (Api.Sections 3) 5 []
     = (Raise (IndexError "tuple index out of range"), [])
  /\ exists text,
      Api.split fst answer (([6; 4], [2; 2])%Z : Geometry) (Api.Sections 0) 0 []
      = (Raise (ZeroDivisionError text), []).
Proof.
  destruct (ApiMoreFacts.split_rejections
              unit Geometry (list Z) unit unit fst answer
              ([6; 4], [2; 2])%Z 5%Z []) as (_ & Haxis & _).
  destruct (ApiMoreFacts.split_rejections
              unit Geometry (list Z) unit unit fst answer
              ([6; 4], [2; 2])%Z 0%Z []) as (_ & _ & Hzero).
  split; [reflexivity|]. split.
  - apply Haxis. reflexivity.
  - apply (Hzero 6%Z). reflexivity.
Defined.

Lemma split_stops_at_first_failure_witness :
  let perform :=
      respond (Raise (Exception "no workers")) (Raise (Exception "no workers"))
              (Ok [3; 2]%Z) select_below_4 in
  let ary : Geometry := ([6; 4], [2; 2])%Z in
  2 < Z.to_nat 3
  /\ Api.split fst perform ary (Api.Sections 3) 0 []
     = (Raise (Exception "worker lost"),
        map (fun i => Api.any
                        (Api.ba_getitem
                           ary (Api.section_slices [6; 4]%Z 0 2 (Z.of_nat i))))
            [0; 1; 2]).
Proof.
  intros perform ary. split; [cbn; lia|].
  apply (ApiMoreFacts.split_stops_at_first_failure
           unit Geometry (list Z) unit unit fst perform ary
           3%Z 0%Z 6%Z 0 2 [([2; 4], [2; 2])%Z; ([2; 4], [2; 2])%Z]
           (Exception "worker lost") []);
    [lia | reflexivity | reflexivity | lia | reflexivity | cbn; lia
     | reflexivity | reflexivity].
Defined.

Lemma split_empty_axis_witness :
  (0 < 2)%Z
  /\ py_getitem [0; 4]%Z 0 = Ok 0%Z
  /\ Api.split fst answer (([0; 4], [1; 2])%Z : Geometry) (Api.Sections 2) 0 []
     = (Raise (ValueError "range() arg 3 must not be zero"), []).
Proof.
  split; [lia|]. split; [reflexivity|].
  apply (@ApiFacts.split_empty_axis
           unit Geometry (list Z) unit unit fst answer
           ([0; 4], [1; 2])%Z 2%Z 0%Z []);
    [lia | reflexivity].
Defined.

Lemma concatenate_uniform_witness :
  let perform :=
      respond (Raise (Exception "no workers")) (Raise (Exception "no workers"))
              (Ok [3; 2]%Z) select_below_4 in
  let arrays : list Geometry := [([4; 4], [2; 2]); ([6; 4], [2; 2])]%Z in
  arrays <> []
  /\ Api.concatenate snd perform arrays 0 None []
     = (Ok ([], [2])%Z,
        [Api.any Api._instance; Api.any (Api.app_concatenate tt arrays 0 2)]).
Proof.
  intros perform arrays. split; [discriminate|].
  apply (ApiMoreFacts.concatenate_uniform
           unit Geometry (list Z) unit unit snd perform arrays 0%Z 2%Z tt []).
  - discriminate.
  - intros arr [<-|[<-|[]]]; reflexivity.
  - reflexivity.
Defined.

Lemma concatenate_order_independent_witness :
  let perform :=
      respond (Raise (Exception "no workers")) (Raise (Exception "no workers"))
              (Ok [3; 2]%Z) select_below_4 in
  let a : Geometry := ([4; 4], [2; 2])%Z in
  let b : Geometry := ([4; 4], [3; 2])%Z in
  Permutation [a; b; a] [b; a; a]
  /\ exists axis_block_size,
      Api.concatenate snd perform [a; b; a] 0 None []
      = (perform _ (Api.app_concatenate tt [a; b; a] 0 axis_block_size),
         [Api.any Api._instance;
          Api.any (Api.app_concatenate tt [a; b; a] 0 axis_block_size)])
      /\ Api.concatenate snd perform [b; a; a] 0 None []
         = (perform _ (Api.app_concatenate tt [b; a; a] 0 axis_block_size),
            [Api.any Api._instance;
             Api.any (Api.app_concatenate tt [b; a; a] 0 axis_block_size)]).
Proof.
  intros perform a b.
  assert (Hperm : Permutation [a; b; a] [b; a; a]) by apply perm_swap.
  split; [exact Hperm|].
  apply (ApiMoreFacts.concatenate_order_independent
           unit Geometry (list Z) unit unit snd perform
           [a; b; a] [b; a; a] 0%Z (fun arr => hd 0%Z (snd arr)) tt [] Hperm).
  - discriminate.
  - intros arr [<-|[<-|[<-|[]]]]; reflexivity.
  - reflexivity.
Defined.

Lemma concatenate_rejections_witness :
  let arrays : list Geometry := [([4; 4], [2; 2]); ([4], [2])]%Z in
  Exists (fun arr => py_index (List.length (snd arr)) 1 = None) arrays
  /\ Api.concatenate snd answer arrays 1 None []
     = (Raise (IndexError "tuple index out of range"), []).
Proof.
  intros arrays.
  assert (Hex : Exists (fun arr : Geometry =>
                          py_index (List.length (snd arr)) 1 = None) arrays)
    by (apply Exists_cons_tl, Exists_cons_hd; reflexivity).
  split; [exact Hex|].
  apply (proj2 (ApiMoreFacts.concatenate_rejections
                  unit Geometry (list Z) unit unit snd answer arrays 1%Z [])).
  exact Hex.
Defined.

Lemma loadtxt_parallel_witness :
  let perform :=
      respond (Ok ([8; 2], [8; 2])%Z) (Ok ([8; 2], [4; 2])%Z)
              (Ok [3; 2]%Z) select_below_4 in
  Api.loadtxt fst (fun a : list Z => a) perform "data.txt" tt tt []
  = (Ok ([8; 2], [4; 2])%Z,
     [Api.any Api._instance;
      Api.any (Api.get_num_cores tt);
      Api.any (Api.app_loadtxt tt "data.txt" tt tt 4%Z);
      Api.any (Api.app_compute_block_shape tt [8; 2]%Z tt);
      Api.any (Api.ba_reshape (([8; 2], [8; 2])%Z : Geometry) [8; 2]%Z)]).
Proof.
  intros perform.
  apply (ApiMoreFacts.loadtxt_parallel
           unit Geometry (list Z) unit unit fst (fun a : list Z => a) perform
           "data.txt" tt tt tt 4%Z ([8; 2], [8; 2])%Z ([8; 2], [4; 2])%Z
           [8; 2]%Z []);
    reflexivity.
Defined.

Lemma loadtxt_reblock_fallback_witness :
  let perform :=
      respond (Ok ([8; 2], [8; 2])%Z) (Raise (Exception "cannot re-block"))
              (Ok [3; 2]%Z) select_below_4 in
  is_Exception (Exception "cannot re-block") = true
  /\ fst (Api.loadtxt fst (fun a : list Z => a) perform "data.txt" tt tt [])
     = Ok ([3; 2], [3; 2])%Z.
Proof.
  intros perform. split; [reflexivity|].
  exact (f_equal fst
           (ApiMoreFacts.loadtxt_reblock_fallback
              unit Geometry (list Z) unit unit fst (fun a : list Z => a) perform
              "data.txt" tt tt tt 4%Z ([8; 2], [8; 2])%Z [8; 2]%Z
              (Exception "cannot re-block") [3; 2]%Z [3; 2]%Z
              ([3; 2], [3; 2])%Z []
              eq_refl eq_refl eq_refl eq_refl eq_refl eq_refl eq_refl eq_refl
              eq_refl eq_refl)).
Defined.

Lemma loadtxt_local_failure_witness :
  let perform :=
      respond (Raise (Exception "no workers")) (Raise (Exception "no workers"))
              (Raise (ValueError "bad file")) select_below_4 in
  is_Exception (Exception "no workers") = true
  /\ fst (Api.loadtxt fst (fun a : list Z => a) perform "data.txt" tt tt [])
     = Raise (ValueError "bad file").
Proof.
  intros perform. split; [reflexivity|].
  exact (f_equal fst
           (ApiMoreFacts.loadtxt_local_failure
              unit Geometry (list Z) unit unit fst (fun a : list Z => a) perform
              "data.txt" tt tt tt 4%Z (Exception "no workers")
              (ValueError "bad file") []
              eq_refl eq_refl eq_refl eq_refl eq_refl eq_refl)).
Defined.

Lemma loadtxt_lets_through_witness :
  let perform :=
      respond (Raise KeyboardInterrupt) (Raise (Exception "no workers"))
              (Ok [3; 2]%Z) select_below_4 in
  is_Exception KeyboardInterrupt = false
  /\ Api.loadtxt fst (fun a : list Z => a) perform "data.txt" tt tt []
     = (Raise KeyboardInterrupt,
        [Api.any Api._instance;
         Api.any (Api.get_num_cores tt);
         Api.any (Api.app_loadtxt tt "data.txt" tt tt 4%Z)]).
Proof.
  intros perform. split; [reflexivity|].
  apply (@ApiFacts.loadtxt_lets_through
           unit Geometry (list Z) unit unit fst (fun a : list Z => a) perform
           "data.txt" tt tt tt 4%Z KeyboardInterrupt []);
    reflexivity.
Defined.

Lemma eye_asks_first_witness :
  1%Z <> 0%Z
  /\ Api.eye answer 3 None 1 tt []
     = (Raise (NotImplementedError "Only k==0 is currently supported."),
        [Api.any Api._instance]).
Proof.
  split; [lia|].
  apply (proj1 (ApiMoreFacts.eye_asks_first
                  unit Geometry (list Z) unit unit answer 3%Z None 1%Z tt [])
               tt eq_refl).
  lia.
Defined.

Lemma arange_forgets_start_witness :
  ApiRest.arange respond_rest 2 (Some 5%Z) 1 "int64"%string []
  = (Ok ([3]%Z, "int64"%string),
     [ApiRest.any ApiRest._instance;
      ApiRest.any (ApiRest.app_get_block_shape tt [3]%Z "int64"%string);
      ApiRest.any (ApiRest.app_arange tt [3]%Z [3]%Z 1 "int64"%string)]).
Proof.
  destruct (ApiRestFacts.arange_forgets_start
              unit Typed (list Z) string unit Z (list Z) respond_rest
              2%Z 5%Z "int64"%string []) as (_ & _ & Hrun & _).
  apply (Hrun tt [3]%Z); reflexivity.
Defined.

Lemma array_of_block_array_witness :
  ApiRest.bad_order (Some "K"%string) = false
  /\ ApiRest.array snd (fun a : list Z => a) (fun _ => "int64"%string)
                   String.eqb respond_rest
                   (ApiRest.IsBlockArray (([4]%Z, "float64"%string) : Typed))
                   (Some "float64"%string) false (Some "K"%string) 0 false []
     = (Ok ([4]%Z, "float64"%string), []).
Proof.
  split; [reflexivity|].
  apply (proj1 (ApiRestFacts.array_of_block_array
                  unit Typed (list Z) string unit Z (list Z)
                  snd (fun a : list Z => a) (fun _ => "int64"%string)
                  String.eqb respond_rest ([4]%Z, "float64"%string)
                  (Some "float64"%string) false (Some "K"%string) [] eq_refl)).
  reflexivity.
Defined.

Lemma array_guards_witness :
  ApiRest.bad_order (Some "C"%string) = true
  /\ ApiRest.array snd (fun a : list Z => a) (fun _ => "int64"%string)
                   String.eqb respond_rest
                   (ApiRest.Other (BlockArray := Typed) [1; 2]%Z)
                   None true (Some "C"%string) 1 true []
     = (Raise (NotImplementedError "Only order='K' is supported."), []).
Proof.
  split; [reflexivity|].
  apply (proj1 (ApiRestFacts.array_guards
                  unit Typed (list Z) string unit Z (list Z)
                  snd (fun a : list Z => a) (fun _ => "int64"%string)
                  String.eqb respond_rest (ApiRest.Other [1; 2]%Z)
                  None true (Some "C"%string) 1%Z true [])).
  reflexivity.
Defined.

Lemma logspace_run_witness :
  fst (ApiRest.logspace snd String.eqb "float64"%string tt respond_rest
                        0%Z 2%Z 5 true 10%Z (Some "float32"%string) 0 [])
  = Ok ([5]%Z, "float32"%string).
Proof.
  exact (f_equal fst
           (ApiRestFacts.logspace_run
              unit Typed (list Z) string unit Z (list Z)
              snd String.eqb "float64"%string tt respond_rest
              0%Z 2%Z 10%Z 5%Z 0%Z true (Some "float32"%string) tt [5]%Z
              ([5]%Z, "float64"%string) ([], "float64"%string)
              ([5]%Z, "float64"%string) tt []
              eq_refl eq_refl eq_refl eq_refl eq_refl eq_refl)).
Defined.

End MoreWitnesses.
